(** * nnfusion: the PyTorch session (python/nnfusion/session.py)

    A shallow embedding of [session.py]: the sample synthesizer
    ([generate_sample]), contract inference ([generate_output_desc]), the
    exporter adapter ([convert_model_to_onnx]), the build pipeline
    ([codegen], [modify_nnfusion_rt], [build]) and the [PTSession] class
    with its binding validator ([_create_executor]) and its run loop
    ([run_by_nnf], [is_weights_nan]).  [run_by_pytorch], which only
    forwards to the model, is left out.

    Python objects that are shared and mutated (torch tensors, nn.Module
    instances) live in an object store and are referred to by location;
    everything the module does to the outside (making directories,
    export, shell commands, loading and invoking the artifact, logging)
    is recorded in a trace, and each of these actions but logging can
    fail.  An [assert] raises [AssertionError], and its message is
    evaluated only then; f-strings are kept as the list of their
    pieces.  Memory is not bounded: a tensor of a valid size can always
    be made. *)

From Stdlib Require Import ZArith String Ascii List Bool.
From Stdlib Require Import SpecFloat DecimalString Lia.
From stdpp Require Import base list strings.

Local Open Scope string_scope.
Local Open Scope Z_scope.

(** ** Python values, f-strings and exceptions *)

(** The values a codegen flag can take. *)
Inductive PyVal :=
| PyNone
| PyBool (b : bool)
| PyInt (z : Z)
| PyStr (s : string).

(** Python's [bool(v)]. *)
Definition truthy (v : PyVal) : bool :=
  match v with
  | PyNone => false
  | PyBool b => b
  | PyInt z => negb (z =? 0)
  | PyStr s => negb (String.eqb s "")
  end.

Definition str_of_Z (z : Z) : string := NilZero.string_of_int (Z.to_int z).

(** Python's [str(v)], as used by [str.format]. *)
Definition py_str (v : PyVal) : string :=
  match v with
  | PyNone => "None"
  | PyBool true => "True"
  | PyBool false => "False"
  | PyInt z => str_of_Z z
  | PyStr s => s
  end.

(** One dimension of a descriptor's shape: an integer or a symbolic
    (dynamic) marker. *)
Inductive dim :=
| DInt (n : Z)
| DSym (s : string).

Definition dim_eqb (a b : dim) : bool :=
  match a, b with
  | DInt x, DInt y => x =? y
  | DSym x, DSym y => String.eqb x y
  | _, _ => false
  end.

Fixpoint shape_eqb (a b : list dim) : bool :=
  match a, b with
  | [], [] => true
  | x :: a', y :: b' => dim_eqb x y && shape_eqb a' b'
  | _, _ => false
  end.

(** An f-string before rendering: its literal pieces and the values
    interpolated into it. *)
Inductive frag :=
| Lit (s : string)
| FStr (s : string)
| FShape (sh : list dim).

Definition message := list frag.

Inductive exn :=
| AssertionError (msg : message)
| KeyError (key : string)
| Exception (msg : message)
| TypeError (msg : string)
| AttributeError (attr : string)
| RuntimeError (msg : string)
| CalledProcessError (cmd : string)
| ExternalError (what : string)
| SystemError (what : string)
| OSError (what : string).

Inductive Result (A : Type) :=
| Ok (a : A)
| Raise (e : exn).
Arguments Ok {A} a.
Arguments Raise {A} e.

(** [assert cond, msg]: the message expression is only evaluated when
    the condition fails, and may itself raise. *)
Definition py_assert (cond : bool) (msg : Result message) : Result unit :=
  if cond then Ok tt
  else match msg with
       | Ok m => Raise (AssertionError m)
       | Raise e => Raise e
       end.

Definition rbind {A B} (r : Result A) (k : A -> Result B) : Result B :=
  match r with
  | Ok a => k a
  | Raise e => Raise e
  end.

Notation "x <-? c ;; k" := (rbind c (fun x => k))
  (at level 100, c at next level, right associativity).

(** ** Python dicts: insertion-ordered, unique keys *)

Definition dict (V : Type) := list (string * V).

Fixpoint dict_get {V} (k : string) (d : dict V) : option V :=
  match d with
  | [] => None
  | (k', v) :: d' => if String.eqb k k' then Some v else dict_get k d'
  end.

(** [k in d] *)
Definition dict_mem {V} (k : string) (d : dict V) : bool :=
  match dict_get k d with Some _ => true | None => false end.

(** [d[k] = v]: an existing key keeps its position. *)
Fixpoint dict_set {V} (k : string) (v : V) (d : dict V) : dict V :=
  match d with
  | [] => [(k, v)]
  | (k', v') :: d' =>
      if String.eqb k k' then (k, v) :: d' else (k', v') :: dict_set k v d'
  end.

(** [d.update(items)] *)
Definition dict_update {V} (d : dict V) (items : list (string * V)) : dict V :=
  fold_left (fun acc kv => dict_set (fst kv) (snd kv) acc) items d.

(** [{k: v for k, v in items}] *)
Definition dict_of_items {V} (items : list (string * V)) : dict V :=
  dict_update [] items.

(** [d[k]] *)
Definition dict_getitem {V} (k : string) (d : dict V) : Result V :=
  match dict_get k d with
  | Some v => Ok v
  | None => Raise (KeyError k)
  end.

(** ** Strings and paths *)

(** [sub in s] *)
Definition str_contains (sub s : string) : bool :=
  match String.index 0 sub s with Some _ => true | None => false end.

(** [s.split(sep)] for a one-character separator. *)
Fixpoint str_split (sep : ascii) (s : string) : list string :=
  match s with
  | EmptyString => [EmptyString]
  | String c s' =>
      let r := str_split sep s' in
      if Ascii.eqb c sep then EmptyString :: r
      else match r with
           | [] => [String c EmptyString]
           | p :: ps => String c p :: ps
           end
  end.

(** [sep.join(l)] *)
Fixpoint str_join (sep : string) (l : list string) : string :=
  match l with
  | [] => ""
  | [x] => x
  | x :: l' => x ++ sep ++ str_join sep l'
  end.

Fixpoint str_ends_with_slash (s : string) : bool :=
  match s with
  | EmptyString => false
  | String c EmptyString => Ascii.eqb c "/"%char
  | String _ s' => str_ends_with_slash s'
  end.

(** [os.path.join(a, b)] for a relative [b]. *)
Definition path_join (a b : string) : string :=
  if String.eqb a "" then b
  else if str_ends_with_slash a then a ++ b
  else a ++ "/" ++ b.

(** ** torch: dtypes, tensors and the constructors the session uses *)

Abbreviation loc := nat.

Module torch.

Inductive dtype :=
| float16 | float32 | float64 | bfloat16
| uint8 | int8 | int16 | int32 | int64 | bool_.

(** [str(dtype)] *)
Definition dtype_str (d : dtype) : string :=
  match d with
  | float16 => "torch.float16"
  | float32 => "torch.float32"
  | float64 => "torch.float64"
  | bfloat16 => "torch.bfloat16"
  | uint8 => "torch.uint8"
  | int8 => "torch.int8"
  | int16 => "torch.int16"
  | int32 => "torch.int32"
  | int64 => "torch.int64"
  | bool_ => "torch.bool"
  end.

Definition is_floating_point (d : dtype) : bool :=
  match d with
  | float16 | float32 | float64 | bfloat16 => true
  | _ => false
  end.

(** One element of a tensor: an integer, or an IEEE-754 value. *)
Inductive scalar :=
| SInt (z : Z)
| SFloat (f : spec_float).

Definition float_of_Z (z : Z) : spec_float :=
  match z with
  | Z0 => S754_zero false
  | Zpos p => S754_finite false p 0
  | Zneg p => S754_finite true p 0
  end.

(** The integer [z] as an element of a tensor of type [d]. *)
Definition scalar_of_Z (d : dtype) (z : Z) : scalar :=
  if is_floating_point d then SFloat (float_of_Z z) else SInt z.

Definition scalar_isnan (s : scalar) : bool :=
  match s with
  | SFloat S754_nan => true
  | _ => false
  end.

Definition scalar_isinf (s : scalar) : bool :=
  match s with
  | SFloat (S754_infinity _) => true
  | _ => false
  end.

Record Tensor := {
  shape : list Z;
  dtype_of : dtype;
  device : string;
  data : list scalar
}.

Definition numel (size : list Z) : nat :=
  Z.to_nat (fold_right Z.mul 1 size).

Definition bad_size (size : list Z) : bool :=
  existsb (fun s => s <? 0) size.

(** [torch.full(size, v, dtype=d, device=dev)], the common part of
    [torch.ones] and [torch.zeros]. *)
Definition full (size : list Z) (v : Z) (d : dtype) (dev : string)
  : Result Tensor :=
  if bad_size size
  then Raise (RuntimeError "Trying to create tensor with negative dimension")
  else Ok {| shape := size; dtype_of := d; device := dev;
             data := repeat (scalar_of_Z d v) (numel size) |}.

Definition ones (size : list Z) (d : dtype) : Result Tensor :=
  full size 1 d "cpu".

Definition zeros (size : list Z) (d : dtype) (dev : string) : Result Tensor :=
  full size 0 d dev.

(** The bounds of [torch.randint] are 64-bit signed integers. *)
Definition int64_min : Z := - 2 ^ 63.
Definition int64_max : Z := 2 ^ 63 - 1.

Definition fits_int64 (z : Z) : bool := (int64_min <=? z) && (z <=? int64_max).

(** The least and the largest value of a type ([torch.iinfo],
    [torch.finfo]; [False] and [True] for [torch.bool]). *)
Definition dtype_min (d : dtype) : Z :=
  match d with
  | float16 => - 65504
  | bfloat16 => - (255 * 2 ^ 120)
  | float32 => - ((2 ^ 24 - 1) * 2 ^ 104)
  | float64 => - ((2 ^ 53 - 1) * 2 ^ 971)
  | uint8 => 0
  | int8 => - 128
  | int16 => - 32768
  | int32 => - 2 ^ 31
  | int64 => - 2 ^ 63
  | bool_ => 0
  end.

Definition dtype_max (d : dtype) : Z :=
  match d with
  | float16 => 65504
  | bfloat16 => 255 * 2 ^ 120
  | float32 => (2 ^ 24 - 1) * 2 ^ 104
  | float64 => (2 ^ 53 - 1) * 2 ^ 971
  | uint8 => 255
  | int8 => 127
  | int16 => 32767
  | int32 => 2 ^ 31 - 1
  | int64 => 2 ^ 63 - 1
  | bool_ => 1
  end.


(** [torch.randint(low, high, size, dtype=d)]; [draw i] is the i-th
    raw draw of the generator, [pos] the number of draws already
    consumed.  The bounds are unpacked as 64-bit integers, and
    [random_(low, high)] wants [low < high] and both [low] and
    [high - 1] among the values of the type. *)
Definition randint (draw : nat -> Z) (pos : nat)
    (low high : Z) (size : list Z) (d : dtype) : Result Tensor :=
  if negb (fits_int64 low && fits_int64 high)
  then Raise (RuntimeError "Overflow when unpacking long")
  else if high <=? low
  then Raise (RuntimeError "random_ expects 'from' to be less than 'to'")
  else if (low <? dtype_min d) || (dtype_max d <? high - 1)
  then Raise (RuntimeError "from or to - 1 is out of bounds for the type")
  else if bad_size size
  then Raise (RuntimeError "Trying to create tensor with negative dimension")
  else Ok {| shape := size; dtype_of := d; device := "cpu";
             data := map (fun i => scalar_of_Z d
                                     (low + draw (pos + i)%nat mod (high - low)))
                         (seq 0 (numel size)) |}.

(** [t.to(device)]; [None] leaves the tensor where it is. *)
Definition to (t : Tensor) (dev : option string) : Tensor :=
  match dev with
  | None => t
  | Some d => {| shape := shape t; dtype_of := dtype_of t;
                 device := d; data := data t |}
  end.

(** [bool(torch.isnan(t).any())] *)
Definition any_isnan (t : Tensor) : bool := existsb scalar_isnan (data t).

(** [bool(torch.isinf(t).any())] *)
Definition any_isinf (t : Tensor) : bool := existsb scalar_isinf (data t).

End torch.

(** What a model's forward returns: one tensor or a tuple of them. *)
Inductive ModelOut :=
| OutTensor (t : torch.Tensor)
| OutTuple (ts : list torch.Tensor).

(** A [torch.nn.Module] object: its named parameters and buffers (tensor
    objects in the store), whatever other internal state it carries, and
    its forward computation.  The forward computation and the exporter
    see the module they are given and nothing else: they get its state
    and the values of its own tensors, and return their new values. *)
Record Module := {
  named_parameters : list (string * loc);
  named_buffers : list (string * loc);
  m_state : Z;
  m_forward : Z -> list torch.Tensor -> list torch.Tensor ->
              Result (ModelOut * Z * list torch.Tensor)
}.

(** ** The modules session.py imports *)

(** Modelled from the spec: description.py is not among the sources.  A tensor
    descriptor has a name, a shape (each dimension an integer or a
    dynamic marker), a dtype and an optional [num_classes]; these are the
    four attributes session.py reads. *)
Record IODescription := {
  name : string;
  shape : list dim;
  dtype : string;
  num_classes : option Z
}.

(** Modelled from the spec: the contract, the ordered input descriptors
    and the ordered output descriptors. *)
Record ModelDescription := {
  inputs : list IODescription;
  outputs : list IODescription
}.

(** Modelled from the spec: dtypes.py is not among the sources.  An entry of its
    [str2type] table, with the two attributes session.py reads; the
    table itself is a field of [Env]. *)
Record TypeObject := {
  type_str : string;
  torch_type : torch.dtype
}.

(** Modelled from the spec: data_format.py is not among the sources.  The
    handle the executor takes for a tensor; the spec has a binding hold
    a reference to the live buffer, and [reference] is the attribute
    [run_by_nnf] reads back. *)
Record DataFormat := {
  reference : loc
}.

(** Modelled from the spec: [data_format.cast_pytorch_tensor] wraps the
    tensor it is given, without copying it. *)
Definition cast_pytorch_tensor (t : loc) : DataFormat := {| reference := t |}.

(** Modelled from the spec: executor.py is not among the sources.  A loaded
    artifact gives its declared input and output descriptors and an
    entry point that takes the input and output bindings and
    communicates only by rewriting the contents of buffers: [kernel]
    returns the tensors it rewrites. *)
Record Executor := {
  get_inputs : list IODescription;
  get_outputs : list IODescription;
  kernel : dict (option DataFormat) -> dict DataFormat ->
           list torch.Tensor -> Result (list (loc * torch.Tensor))
}.

(** A command handed to [utils.execute]: a string, or a list. *)
Inductive Command :=
| Shell (cmd : string)
| Argv (args : list string).

Definition command_str (c : Command) : string :=
  match c with
  | Shell s => s
  | Argv l => str_join " " l
  end.

(** The arguments of [torch.onnx.export] other than the model. *)
Record ExportArgs := {
  ea_args : list torch.Tensor;
  ea_f : string;
  ea_input_names : list string;
  ea_output_names : list string;
  ea_opset_version : Z;
  ea_retain_param_name : bool;
  ea_example_outputs : list torch.Tensor;
  ea_do_constant_folding : bool
}.

(** ** The world *)

Inductive Event :=
| EvOnnxExport (model : loc) (a : ExportArgs)
| EvExecute (dir : string) (cmd : Command)
| EvLoadExecutor (rt_dir : string)
| EvInvoke
| EvLogError (msg : message)
| EvMakedirs (path : string)
| EvTemporaryDirectory (path : string)
| EvEmptyCache.

Record World := {
  tensors : list torch.Tensor;
  modules : list Module;
  cwd : string;
  rng_pos : nat;
  trace : list Event
}.

(** The collaborators outside session.py. *)
Record Env := {
  (** dtypes.str2type *)
  str2type : string -> option TypeObject;
  (** the random generator behind [torch.randint] *)
  rng_draw : nat -> Z;
  (** [torch.onnx.export] on the module it is given *)
  onnx_export : Z -> list torch.Tensor -> ExportArgs ->
                Result (Z * list torch.Tensor);
  (** whether a command run by [utils.execute] in a directory exits with 0 *)
  exit_ok : string -> Command -> bool;
  (** the artifact [Executor(rt_dir)] loads *)
  load_executor : string -> Result Executor;
  abspath : string -> string;
  expand_path : string -> string;
  (** the name of the directory [tempfile.TemporaryDirectory] makes *)
  mkdtemp : string -> string;
  (** [os.makedirs], [tempfile.TemporaryDirectory] and
      [torch.cuda.empty_cache] act on the machine and can fail: the
      exception such an action raises, if it raises one *)
  action_error : Event -> option exn;
  (** [torch._has_compatible_shallow_copy_type(t, t')]: whether
      [nn.Module.to] can assign the moved tensor [t'] to the [data] of
      the parameter [t], or has to make a new parameter *)
  has_compatible_shallow_copy_type : torch.Tensor -> torch.Tensor -> bool
}.

(** ** The state-and-exception monad of the embedding *)

Definition MS (S A : Type) := S -> Result A * S.

Definition M (A : Type) := MS World A.

Definition ret {S A} (a : A) : MS S A := fun w => (Ok a, w).

Definition raise {S A} (e : exn) : MS S A := fun w => (Raise e, w).

Definition bind {S A B} (m : MS S A) (k : A -> MS S B) : MS S B :=
  fun w =>
    match m w with
    | (Ok a, w') => k a w'
    | (Raise e, w') => (Raise e, w')
    end.

Notation "x <- c ;; k" := (bind c (fun x => k))
  (at level 100, c at next level, right associativity).
Notation "c ;;; k" := (bind c (fun _ => k))
  (at level 100, right associativity).

Definition lift {S A} (r : Result A) : MS S A := fun w => (r, w).

Definition get_world : M World := fun w => (Ok w, w).

Definition emit (e : Event) : M unit :=
  fun w => (Ok tt, {| tensors := tensors w; modules := modules w; cwd := cwd w;
                      rng_pos := rng_pos w; trace := trace w ++ [e] |}).

Definition set_tensors (ts : list torch.Tensor) : M unit :=
  fun w => (Ok tt, {| tensors := ts; modules := modules w; cwd := cwd w;
                      rng_pos := rng_pos w; trace := trace w |}).

Definition set_modules (ms : list Module) : M unit :=
  fun w => (Ok tt, {| tensors := tensors w; modules := ms; cwd := cwd w;
                      rng_pos := rng_pos w; trace := trace w |}).

Definition set_cwd (d : string) : M unit :=
  fun w => (Ok tt, {| tensors := tensors w; modules := modules w; cwd := d;
                      rng_pos := rng_pos w; trace := trace w |}).

Definition set_rng_pos (n : nat) : M unit :=
  fun w => (Ok tt, {| tensors := tensors w; modules := modules w; cwd := cwd w;
                      rng_pos := n; trace := trace w |}).

(** [for x in xs: f x], stopping at the first exception. *)
Fixpoint for_each {S A} (f : A -> MS S unit) (xs : list A) : MS S unit :=
  match xs with
  | [] => ret tt
  | x :: xs' => f x ;;; for_each f xs'
  end.

(** [[f x for x in xs]] *)
Fixpoint map_M {S A B} (f : A -> MS S B) (xs : list A) : MS S (list B) :=
  match xs with
  | [] => ret []
  | x :: xs' => y <- f x ;; ys <- map_M f xs' ;; ret (y :: ys)
  end.

(** ** The object store *)

Definition read_tensor (l : loc) : M torch.Tensor :=
  fun w => match tensors w !! l with
           | Some t => (Ok t, w)
           | None => (Raise (SystemError "dangling tensor"), w)
           end.

Definition write_tensor (l : loc) (t : torch.Tensor) : M unit :=
  w <- get_world ;; set_tensors (<[l := t]> (tensors w)).

(** A new tensor object. *)
Definition alloc_tensor (t : torch.Tensor) : M loc :=
  w <- get_world ;;
  set_tensors (tensors w ++ [t]) ;;;
  ret (length (tensors w)).

Definition read_module (l : loc) : M Module :=
  fun w => match modules w !! l with
           | Some m => (Ok m, w)
           | None => (Raise (SystemError "dangling module"), w)
           end.

Definition write_module (l : loc) (m : Module) : M unit :=
  w <- get_world ;; set_modules (<[l := m]> (modules w)).

Definition alloc_module (m : Module) : M loc :=
  w <- get_world ;;
  set_modules (modules w ++ [m]) ;;;
  ret (length (modules w)).

(** The tensor objects a module owns. *)
Definition own_tensors (m : Module) : list loc :=
  map snd (named_parameters m) ++ map snd (named_buffers m).

(** [for l, t in zip(ls, ts): store[l] = t] *)
Fixpoint write_back (ls : list loc) (ts : list torch.Tensor) : M unit :=
  match ls, ts with
  | l :: ls', t :: ts' => write_tensor l t ;;; write_back ls' ts'
  | _, _ => ret tt
  end.

(** [copy.deepcopy(model)]: a new module object owning new copies of the
    tensors ([named_parameters] and [named_buffers] yield every tensor
    object once). *)
Definition copy_named (ps : list (string * loc)) : M (list (string * loc)) :=
  map_M (fun p => t <- read_tensor (snd p) ;;
                  l' <- alloc_tensor t ;;
                  ret (fst p, l')) ps.

Definition deepcopy (model : loc) : M loc :=
  m <- read_module model ;;
  ps <- copy_named (named_parameters m) ;;
  bs <- copy_named (named_buffers m) ;;
  alloc_module {| named_parameters := ps; named_buffers := bs;
                  m_state := m_state m; m_forward := m_forward m |}.

(** [model.to(device)]: in place on the module.  A parameter keeps its
    identity when the moved tensor can be assigned to [param.data], and
    is replaced by a new parameter otherwise; a buffer is rebound to what
    [buf.to(device)] returns, which is [buf] itself when it already is on
    the device.  Returns the module. *)
Definition param_to (E : Env) (dev : string) (p : string * loc)
  : M (string * loc) :=
  t <- read_tensor (snd p) ;;
  let param_applied := torch.to t (Some dev) in
  if has_compatible_shallow_copy_type E t param_applied
  then write_tensor (snd p) param_applied ;;; ret p
  else l' <- alloc_tensor param_applied ;; ret (fst p, l').

Definition buffer_to (dev : string) (p : string * loc) : M (string * loc) :=
  t <- read_tensor (snd p) ;;
  if String.eqb (torch.device t) dev then ret p
  else l' <- alloc_tensor (torch.to t (Some dev)) ;; ret (fst p, l').

Definition Module_to (E : Env) (model : loc) (dev : string) : M loc :=
  m <- read_module model ;;
  ps <- map_M (param_to E dev) (named_parameters m) ;;
  bs <- map_M (buffer_to dev) (named_buffers m) ;;
  write_module model {| named_parameters := ps;
                        named_buffers := bs;
                        m_state := m_state m; m_forward := m_forward m |} ;;;
  ret model.

(** The call of the model on [args]: the forward computation runs on
    the module object and may update it. *)
Definition call_module (model : loc) (args : list torch.Tensor) : M ModelOut :=
  m <- read_module model ;;
  ws <- map_M read_tensor (own_tensors m) ;;
  r <- lift (m_forward m (m_state m) ws args) ;;
  let '(out, st, ws') := r in
  write_back (own_tensors m) ws' ;;;
  write_module model {| named_parameters := named_parameters m;
                        named_buffers := named_buffers m;
                        m_state := st; m_forward := m_forward m |} ;;;
  ret out.

(** ** session.py *)

Record PTSession := {
  _model : loc;
  _model_format : string;
  _torch_weights : dict loc;
  _input_desc : list IODescription;
  _device : string;
  _output_desc : list IODescription;
  _model_desc : ModelDescription;
  _dir_ctx : option string;
  _workdir : string;
  _const_folding : bool;
  _build_nnf : bool;
  _onnx_model_path : string;
  _codegen_flags : dict PyVal;
  _executor : option Executor;
  _inputs : dict (option DataFormat);
  _outputs : dict DataFormat
}.

Definition set_executor (self : PTSession) (ex : Executor) : PTSession :=
  {| _model := _model self; _model_format := _model_format self;
     _torch_weights := _torch_weights self; _input_desc := _input_desc self;
     _device := _device self; _output_desc := _output_desc self;
     _model_desc := _model_desc self; _dir_ctx := _dir_ctx self;
     _workdir := _workdir self; _const_folding := _const_folding self;
     _build_nnf := _build_nnf self; _onnx_model_path := _onnx_model_path self;
     _codegen_flags := _codegen_flags self; _executor := Some ex;
     _inputs := _inputs self; _outputs := _outputs self |}.

Definition set_inputs (self : PTSession) (i : dict (option DataFormat))
  : PTSession :=
  {| _model := _model self; _model_format := _model_format self;
     _torch_weights := _torch_weights self; _input_desc := _input_desc self;
     _device := _device self; _output_desc := _output_desc self;
     _model_desc := _model_desc self; _dir_ctx := _dir_ctx self;
     _workdir := _workdir self; _const_folding := _const_folding self;
     _build_nnf := _build_nnf self; _onnx_model_path := _onnx_model_path self;
     _codegen_flags := _codegen_flags self; _executor := _executor self;
     _inputs := i; _outputs := _outputs self |}.

Definition set_outputs (self : PTSession) (o : dict DataFormat) : PTSession :=
  {| _model := _model self; _model_format := _model_format self;
     _torch_weights := _torch_weights self; _input_desc := _input_desc self;
     _device := _device self; _output_desc := _output_desc self;
     _model_desc := _model_desc self; _dir_ctx := _dir_ctx self;
     _workdir := _workdir self; _const_folding := _const_folding self;
     _build_nnf := _build_nnf self; _onnx_model_path := _onnx_model_path self;
     _codegen_flags := _codegen_flags self; _executor := _executor self;
     _inputs := _inputs self; _outputs := o |}.

(** [d.get(k, default)] *)
Definition dict_get_default {V} (k : string) (default : V) (d : dict V) : V :=
  match dict_get k d with
  | Some v => v
  | None => default
  end.

(** [if desc.num_classes:] *)
Definition num_classes_set (desc : IODescription) : option Z :=
  match num_classes desc with
  | Some nc => if nc =? 0 then None else Some nc
  | None => None
  end.

(** [torch.zeros(shape, ...)] wants integers. *)
Fixpoint shape_ints (sh : list dim) : Result (list Z) :=
  match sh with
  | [] => Ok []
  | DInt n :: sh' =>
      match shape_ints sh' with
      | Ok l => Ok (n :: l)
      | Raise e => Raise e
      end
  | DSym _ :: _ =>
      Raise (TypeError "zeros(): argument 'size' must be tuple of ints")
  end.

(** The messages of the assertions of [_create_executor]. *)
Definition msg_duplicate (n : string) : message :=
  [Lit "Duplicate inputs "; FStr n].

Definition msg_input_missing (n : string) : message :=
  [Lit "nnf requires input "; FStr n;
   Lit ", but it doesn't exist in session input desc"].

Definition msg_input_shape (n : string) (sh real : list dim) : message :=
  [Lit "nnf requires input "; FStr n; Lit " with shape "; FShape sh;
   Lit ", but session input desc is "; FShape real].

Definition msg_input_dtype (n : string) (ty real : string) : message :=
  [Lit "nnf requires input "; FStr n; Lit " with type "; FStr ty;
   Lit ", but session input desc is "; FStr real].

Definition msg_output_missing (n : string) : message :=
  [Lit "nnf requires output "; FStr n;
   Lit ", but it doesn't exist in session output desc"].

Definition msg_output_shape (n : string) (sh real : list dim) : message :=
  [Lit "nnf requires output "; FStr n; Lit " with shape "; FShape sh;
   Lit ", but session output desc is "; FShape real].

Section Session.

Variable E : Env.

Definition str2type_getitem (k : string) : Result TypeObject :=
  match str2type E k with
  | Some ty => Ok ty
  | None => Raise (KeyError k)
  end.

Definition tensor2desc (pt_tensor : torch.Tensor) (name : string)
  : Result IODescription :=
  let shape := map DInt (torch.shape pt_tensor) in
  match str2type_getitem
          (List.last (str_split "."
                        (torch.dtype_str (torch.dtype_of pt_tensor))) "") with
  | Ok ty => Ok {| name := name; shape := shape; dtype := type_str ty;
                   num_classes := None |}
  | Raise e => Raise e
  end.

(** [torch.randint] on the global generator. *)
Definition torch_randint (low high : Z) (size : list Z) (d : torch.dtype)
  : M torch.Tensor :=
  w <- get_world ;;
  t <- lift (torch.randint (rng_draw E) (rng_pos w) low high size d) ;;
  set_rng_pos (rng_pos w + torch.numel size) ;;;
  ret t.

Definition generate_sample (desc : IODescription) (device : option string)
  : M torch.Tensor :=
  let size := map (fun s => match s with DInt n => n | DSym _ => 1 end)
                  (shape desc) in
  match num_classes_set desc with
  | Some nc =>
      ty <- lift (str2type_getitem (dtype desc)) ;;
      t <- torch_randint 0 nc size (torch_type ty) ;;
      ret (torch.to t device)
  | None =>
      ty <- lift (str2type_getitem (dtype desc)) ;;
      t <- lift (torch.ones size (torch_type ty)) ;;
      ret (torch.to t device)
  end.

(** [tuple(tensor2desc(t, name=f"output_{i}") for i, t in enumerate(out))] *)
Fixpoint output_descs (i : nat) (out : list torch.Tensor)
  : Result (list IODescription) :=
  match out with
  | [] => Ok []
  | t :: out' =>
      match tensor2desc t ("output_" ++ str_of_Z (Z.of_nat i)) with
      | Ok d =>
          match output_descs (S i) out' with
          | Ok ds => Ok (d :: ds)
          | Raise e => Raise e
          end
      | Raise e => Raise e
      end
  end.

Definition generate_output_desc (model : loc)
    (input_desc : list IODescription) (device : string)
  : M (list IODescription) :=
  fake_inputs <- map_M (fun desc => generate_sample desc (Some device))
                       input_desc ;;
  model_copy <- (c <- deepcopy model ;; Module_to E c device) ;;
  out <- call_module model_copy fake_inputs ;;
  let out := match out with
             | OutTensor t => [t]
             | OutTuple ts => ts
             end in
  lift (output_descs 0 out).

(** [torch.onnx.export(model, ...)]: runs on the module object it is
    given, and may update it. *)
Definition torch_onnx_export (model : loc) (a : ExportArgs) : M unit :=
  emit (EvOnnxExport model a) ;;;
  m <- read_module model ;;
  ws <- map_M read_tensor (own_tensors m) ;;
  r <- lift (onnx_export E (m_state m) ws a) ;;
  write_back (own_tensors m) (snd r) ;;;
  write_module model {| named_parameters := named_parameters m;
                        named_buffers := named_buffers m;
                        m_state := fst r; m_forward := m_forward m |}.

Definition convert_model_to_onnx (model : loc) (model_desc : ModelDescription)
    (device : string) (file_name : string) (const_folding : bool) : M loc :=
  Module_to E model device ;;;
  let input_names := map name (inputs model_desc) in
  let output_names := map name (outputs model_desc) in
  sample_inputs <- map_M (fun input => generate_sample input (Some device))
                         (inputs model_desc) ;;
  sample_outputs <- map_M (fun output => generate_sample output (Some device))
                          (outputs model_desc) ;;
  (* note: onnx exporter might have side effect, so copy a new model *)
  model_copy <- (c <- deepcopy model ;; Module_to E c device) ;;
  torch_onnx_export model_copy
    {| ea_args := sample_inputs;
       ea_f := file_name;
       ea_input_names := input_names;
       ea_output_names := output_names;
       ea_opset_version := 12;
       ea_retain_param_name := true;
       ea_example_outputs := sample_outputs;
       ea_do_constant_folding := const_folding |} ;;;
  ret model.

(** Modelled from the spec: utils.py is not among the sources.  [execute] runs
    the command in the current directory, and a non-zero exit is
    fatal. *)
Definition execute (command : Command) : M unit :=
  w <- get_world ;;
  emit (EvExecute (cwd w) command) ;;;
  if exit_ok E (cwd w) command then ret tt
  else raise (CalledProcessError (command_str command)).

(** Modelled from the spec: utils.py is not among the sources.
    [with cd(dir): body] changes the working directory for the body and
    restores it afterward regardless of success or failure. *)
Definition with_cd {A} (dir : string) (body : M A) : M A :=
  fun w =>
    match (set_cwd dir ;;; body) w with
    | (r, w') => (r, snd (set_cwd (cwd w) w'))
    end.

Definition codegen (model_path flags output_dir : string) : M unit :=
  let model_path := abspath E model_path in
  with_cd output_dir
    (let command := "nnfusion" ++ " " ++ model_path ++ " " ++ flags in
     execute (Shell command)).

Definition modify_nnfusion_rt (rt_dir : string) : M unit :=
  with_cd rt_dir
    ((* remove cudaDevice reset in cuda_init() *)
     let command := "sed -i '/cudaDeviceReset()/s:^://:'" ++ " "
                    ++ "nnfusion_rt.cu" in
     execute (Shell command)).

Definition build (rt_dir : string) : M unit :=
  with_cd rt_dir
    (let command := "cmake ." in
     execute (Argv [command]) ;;;
     let command := "make -j" in
     execute (Shell command)).

(** [Executor(rt_dir)] *)
Definition Executor_new (rt_dir : string) : M Executor :=
  emit (EvLoadExecutor rt_dir) ;;;
  lift (load_executor E rt_dir).

(** [for l, t in writes: store[l] = t] *)
Fixpoint apply_writes (writes : list (loc * torch.Tensor))
    (ts : list torch.Tensor) : list torch.Tensor :=
  match writes with
  | [] => ts
  | (l, t) :: writes' => apply_writes writes' (<[l := t]> ts)
  end.

(** [executor(inputs, outputs)] *)
Definition Executor_call (ex : Executor) (ins : dict (option DataFormat))
    (outs : dict DataFormat) : M unit :=
  emit EvInvoke ;;;
  w <- get_world ;;
  writes <- lift (kernel ex ins outs (tensors w)) ;;
  set_tensors (apply_writes writes (tensors w)).

(** An action on the file system or on the device: it is recorded, and
    may fail. *)
Definition perform (ev : Event) : M unit :=
  emit ev ;;;
  match action_error E ev with
  | Some e => raise e
  | None => ret tt
  end.

(** *** class PTSession *)

(** [self._codegen_flags.get("training_mode", False)] *)
Definition training_mode (flags : dict PyVal) : bool :=
  truthy (dict_get_default "training_mode" (PyBool false) flags).

(** The loop over [self._torch_weights.items()] that exposes the
    weights as inputs in training mode. *)
Fixpoint add_weight_descs (items : list (string * loc))
    (real_inputs : dict IODescription) : M (dict IODescription) :=
  match items with
  | [] => ret real_inputs
  | (name, tensor) :: rest =>
      lift (py_assert (negb (dict_mem name real_inputs))
                      (Ok (msg_duplicate name))) ;;;
      t <- read_tensor tensor ;;
      d <- lift (tensor2desc t name) ;;
      add_weight_descs rest (dict_set name d real_inputs)
  end.

(** The three assertions on one artifact input. *)
Definition check_input (real_inputs : dict IODescription)
    (desc : IODescription) : Result unit :=
  (* Note: Not all inputs are consumed *)
  _ <-? py_assert (dict_mem (name desc) real_inputs)
                  (Ok (msg_input_missing (name desc))) ;;
  r <-? dict_getitem (name desc) real_inputs ;;
  _ <-? py_assert (shape_eqb (shape desc) (shape r))
          (Ok (msg_input_shape (name desc) (shape desc) (shape r))) ;;
  py_assert (String.eqb (dtype desc) (dtype r))
    (Ok (msg_input_dtype (name desc) (dtype desc) (dtype r))).

(** The loop over [nnf_inputs]. *)
Fixpoint bind_inputs (real_inputs : dict IODescription)
    (torch_weights : dict loc) (nnf_inputs : list IODescription)
    (inputs : dict (option DataFormat))
  : Result (dict (option DataFormat)) :=
  match nnf_inputs with
  | [] => Ok inputs
  | desc :: rest =>
      _ <-? check_input real_inputs desc ;;
      b <-? (if dict_mem (name desc) torch_weights
             then w <-? dict_getitem (name desc) torch_weights ;;
                  Ok (Some (cast_pytorch_tensor w))
             else Ok None) ;;
      bind_inputs real_inputs torch_weights rest
                  (dict_set (name desc) b inputs)
  end.

(** The assertions on one artifact output.  The messages of the shape
    and dtype assertions both read [real_inputs[desc.name].shape]. *)
Definition check_output (flags : dict PyVal)
    (real_inputs real_outputs : dict IODescription)
    (desc : IODescription) : Result unit :=
  _ <-? py_assert (training_mode flags || dict_mem (name desc) real_outputs)
                  (Ok (msg_output_missing (name desc))) ;;
  if dict_mem (name desc) real_outputs
  then
    r <-? dict_getitem (name desc) real_outputs ;;
    _ <-? py_assert (shape_eqb (shape desc) (shape r))
            (ri <-? dict_getitem (name desc) real_inputs ;;
             Ok (msg_output_shape (name desc) (shape desc) (shape ri))) ;;
    py_assert (String.eqb (dtype desc) (dtype r))
      (ri <-? dict_getitem (name desc) real_inputs ;;
       Ok (msg_output_shape (name desc) (shape desc) (shape ri)))
  else Ok tt.

(** The loop over [nnf_outputs]: every output gets a new zero tensor. *)
Fixpoint bind_outputs (flags : dict PyVal)
    (real_inputs real_outputs : dict IODescription) (device : string)
    (nnf_outputs : list IODescription) (outputs : dict DataFormat)
  : M (dict DataFormat) :=
  match nnf_outputs with
  | [] => ret outputs
  | desc :: rest =>
      lift (check_output flags real_inputs real_outputs desc) ;;;
      ty <- lift (str2type_getitem (dtype desc)) ;;
      size <- lift (shape_ints (shape desc)) ;;
      t <- lift (torch.zeros size (torch_type ty) device) ;;
      l <- alloc_tensor t ;;
      bind_outputs flags real_inputs real_outputs device rest
                   (dict_set (name desc) (cast_pytorch_tensor l) outputs)
  end.

Definition _create_executor (self : PTSession) : M PTSession :=
  rt_dir <- (if str_contains "cuda" (_device self)
             then ret (path_join (_workdir self) "nnfusion_rt/cuda_codegen")
             else if str_contains "cpu" (_device self)
             then raise (Exception [Lit "CPU not supported yet"])
             else if str_contains "rocm" (_device self)
             then raise (Exception [Lit "ROCm not supported yet"])
             else raise (Exception [Lit "Unknown device ";
                                    FStr (_device self)])) ;;
  (if _build_nnf self
   then
     let flags_str := "-f " ++ _model_format self ++ " " in
     let flags_str :=
       flags_str ++ str_join " "
         (map (fun kv => "-f" ++ fst kv ++ "=" ++ py_str (snd kv))
              (_codegen_flags self)) in
     codegen (_onnx_model_path self) flags_str (_workdir self) ;;;
     modify_nnfusion_rt rt_dir ;;;
     build rt_dir
   else ret tt) ;;;
  executor <- Executor_new rt_dir ;;
  let self := set_executor self executor in
  let nnf_inputs := get_inputs executor in
  let nnf_outputs := get_outputs executor in
  let real_inputs :=
    dict_of_items (map (fun desc => (name desc, desc)) (_input_desc self)) in
  let real_outputs :=
    dict_of_items (map (fun desc => (name desc, desc)) (_output_desc self)) in
  real_inputs <- (if training_mode (_codegen_flags self)
                  then add_weight_descs (_torch_weights self) real_inputs
                  else ret real_inputs) ;;
  inputs <- lift (bind_inputs real_inputs (_torch_weights self)
                              nnf_inputs []) ;;
  let self := set_inputs self inputs in
  (if negb (truthy (dict_get_default "extern_result_memory" PyNone
                                     (_codegen_flags self)))
   then raise (Exception
                 [Lit "Please add extern_result_memory to codegen flags"])
   else ret tt) ;;;
  outputs <- bind_outputs (_codegen_flags self) real_inputs real_outputs
                          (_device self) nnf_outputs [] ;;
  ret (set_outputs self outputs).

(** [codegen_flags or {}] *)
Definition flags_or_empty (codegen_flags : option (dict PyVal))
  : dict PyVal :=
  match codegen_flags with
  | Some d => d
  | None => []
  end.

Definition __init__ (model : loc) (input_desc : list IODescription)
    (device : string) (output_desc : option (list IODescription))
    (workdir : option string) (model_format : string)
    (const_folding build_nnf : bool)
    (codegen_flags : option (dict PyVal)) : M PTSession :=
  (if negb (String.eqb model_format "onnx")
   then raise (Exception [FStr model_format;
                          Lit " format not supported yet"])
   else ret tt) ;;;
  m <- read_module model ;;
  let torch_weights := dict_of_items (named_parameters m) in
  let torch_weights :=
    dict_update torch_weights (dict_of_items (named_buffers m)) in
  output_desc <- match output_desc with
                 | Some o =>
                     (* TODO: validate output shape/type against real outputs *)
                     ret o
                 | None => generate_output_desc model input_desc device
                 end ;;
  let model_desc := {| inputs := input_desc; outputs := output_desc |} in
  dirs <- match workdir with
          | Some (String c wd) =>
              let workdir := expand_path E (String c wd) in
              perform (EvMakedirs workdir) ;;;
              ret (None, workdir)
          | _ =>
              let dir_ctx := mkdtemp E "nnf_" in
              perform (EvTemporaryDirectory dir_ctx) ;;;
              ret (Some dir_ctx, dir_ctx)
          end ;;
  (* convert torch model to onnx *)
  onnx_model_path <-
    (if build_nnf
     then
       let onnx_model_path := path_join (snd dirs) "nnf.onnx" in
       convert_model_to_onnx model model_desc device onnx_model_path
                             const_folding ;;;
       ret onnx_model_path
     else ret "") ;;
  perform EvEmptyCache ;;;
  (* codegen *)
  let flags := [("extern_result_memory", PyInt 1)] in
  let flags := dict_update flags (flags_or_empty codegen_flags) in
  (if training_mode flags && const_folding
   then raise (Exception
                 [Lit "Const folding and training mode are incompatible"])
   else ret tt) ;;;
  _create_executor
    {| _model := model; _model_format := model_format;
       _torch_weights := torch_weights; _input_desc := input_desc;
       _device := device; _output_desc := output_desc;
       _model_desc := model_desc; _dir_ctx := fst dirs;
       _workdir := snd dirs; _const_folding := const_folding;
       _build_nnf := build_nnf; _onnx_model_path := onnx_model_path;
       _codegen_flags := flags; _executor := None;
       _inputs := []; _outputs := [] |}.

(** The loop of [is_weights_nan]. *)
Fixpoint weights_nan_loop (items : list (string * loc)) (have_nan : bool)
  : M bool :=
  match items with
  | [] => ret have_nan
  | (name, weight) :: rest =>
      t <- read_tensor weight ;;
      if torch.any_isnan t || torch.any_isinf t
      then emit (EvLogError [Lit "Nan or inf found in "; FStr name]) ;;;
           weights_nan_loop rest true
      else weights_nan_loop rest have_nan
  end.

Definition is_weights_nan (self : PTSession) : M bool :=
  let have_nan := false in
  weights_nan_loop (_torch_weights self) have_nan.

(** A method that assigns to an attribute of [self] runs on the
    session object and the world. *)
Definition on_world {A} (m : M A) : MS (PTSession * World) A :=
  fun sw => match m (snd sw) with
            | (r, w') => (r, (fst sw, w'))
            end.

Definition get_self : MS (PTSession * World) PTSession :=
  fun sw => (Ok (fst sw), sw).

Definition put_self (self : PTSession) : MS (PTSession * World) unit :=
  fun sw => (Ok tt, (self, snd sw)).

(** One entry of [feed_data]. *)
Definition feed_one (kv : string * loc) : MS (PTSession * World) unit :=
  self <- get_self ;;
  (* TODO: check all inputs are presented in single forward *)
  if dict_mem (fst kv) (_inputs self)
  then put_self (set_inputs self
                   (dict_set (fst kv) (Some (cast_pytorch_tensor (snd kv)))
                             (_inputs self)))
  else ret tt.

Definition run_by_nnf (feed_data : dict loc) (check_nan : bool)
  : MS (PTSession * World) (list loc) :=
  for_each feed_one feed_data ;;;
  self <- get_self ;;
  executor <- match _executor self with
              | Some ex => ret ex
              | None => raise (AttributeError "_executor")
              end ;;
  on_world (Executor_call executor (_inputs self) (_outputs self)) ;;;
  nan <- (if check_nan then on_world (is_weights_nan self) else ret false) ;;
  if nan
  then raise (Exception [Lit "Nan found after execution"])
  else map_M (fun desc =>
                d <- lift (dict_getitem (name desc) (_outputs self)) ;;
                ret (reference d))
             (_output_desc self).

Definition __call__ (feed_data : dict loc)
  : MS (PTSession * World) (list loc) :=
  run_by_nnf feed_data false.

End Session.

(** * Vocabulary of the properties *)

(** A computation preserves a relation between the state before and the
    state after, whether it returns or raises. *)
Definition preserves {S A} (R : S -> S -> Prop) (m : MS S A) : Prop :=
  forall w, R w (snd (m w)).

(** The relations between worlds that the proofs follow. *)

(** No tensor or module object is touched. *)
Definition same_store (w w' : World) : Prop :=
  tensors w' = tensors w /\ modules w' = modules w.

(** No module object is touched. *)
Definition same_modules (w w' : World) : Prop := modules w' = modules w.

(** The trace grows by events that all satisfy [P]. *)
Definition events (P : Event -> Prop) (w w' : World) : Prop :=
  exists evs, trace w' = (trace w ++ evs)%list /\ Forall P evs.

(** No object disappears. *)
Definition grows (w w' : World) : Prop :=
  (length (tensors w) <= length (tensors w'))%nat /\
  (length (modules w) <= length (modules w'))%nat.

(** An artifact input is accepted against the resolved descriptors. *)
Definition input_ok (real_inputs : dict IODescription) (d : IODescription)
  : Prop :=
  exists r, dict_get (name d) real_inputs = Some r /\
            shape d = shape r /\ dtype d = dtype r.

(** What the binding step raises for an artifact input that is not. *)
Definition input_error (real_inputs : dict IODescription) (d : IODescription)
    (e : exn) : Prop :=
  (dict_get (name d) real_inputs = None /\
   e = AssertionError (msg_input_missing (name d)))
  \/ (exists r, dict_get (name d) real_inputs = Some r /\
                shape d <> shape r /\
                e = AssertionError
                      (msg_input_shape (name d) (shape d) (shape r)))
  \/ (exists r, dict_get (name d) real_inputs = Some r /\
                shape d = shape r /\ dtype d <> dtype r /\
                e = AssertionError
                      (msg_input_dtype (name d) (dtype d) (dtype r))).

(** The binding an accepted artifact input gets. *)
Definition weight_binding (torch_weights : dict loc) (n : string)
  : option DataFormat :=
  match dict_get n torch_weights with
  | Some l => Some (cast_pytorch_tensor l)
  | None => None
  end.

(** The descriptor a name resolves to: the caller's, or in training
    mode that of a model weight. *)
Definition resolves (E : Env) (self : PTSession) (w : World) (n : string)
    (r : IODescription) : Prop :=
  dict_get n (dict_of_items
                (map (fun desc => (name desc, desc)) (_input_desc self)))
    = Some r
  \/ (training_mode (_codegen_flags self) = true /\
      exists l t, In (n, l) (_torch_weights self) /\
                  tensors w !! l = Some t /\
                  tensor2desc E t n = Ok r).

(** The directory the artifact is generated in. *)
Definition rt_dir_of (self : PTSession) : string :=
  path_join (_workdir self) "nnfusion_rt/cuda_codegen".

(** The resolved descriptors the binding loops run with. *)
Definition real_inputs_of (E : Env) (self : PTSession) (w : World)
  : Result (dict IODescription) :=
  let real_inputs :=
    dict_of_items (map (fun desc => (name desc, desc)) (_input_desc self)) in
  if training_mode (_codegen_flags self)
  then fst (add_weight_descs E (_torch_weights self) real_inputs w)
  else Ok real_inputs.

Definition real_outputs_of (self : PTSession) : dict IODescription :=
  dict_of_items (map (fun desc => (name desc, desc)) (_output_desc self)).

(** The binding table after the entries of [feed_data] have been taken in. *)
Definition feed_inputs (feed_data : dict loc)
    (inputs : dict (option DataFormat)) : dict (option DataFormat) :=
  fold_left (fun acc kv =>
               if dict_mem (fst kv) acc
               then dict_set (fst kv) (Some (cast_pytorch_tensor (snd kv))) acc
               else acc)
            feed_data inputs.

(** The tensor objects behind the declared outputs, in declaration order. *)
Definition output_handles (outs : dict DataFormat)
    (descs : list IODescription) : list (option loc) :=
  map (fun d => option_map reference (dict_get (name d) outs)) descs.

(** A weight that holds a NaN or an infinity. *)
Definition offending (ts : list torch.Tensor) (kv : string * loc) : bool :=
  match ts !! snd kv with
  | Some t => torch.any_isnan t || torch.any_isinf t
  | None => false
  end.

(** The line [is_weights_nan] logs for a weight. *)
Definition nan_log (kv : string * loc) : Event :=
  EvLogError [Lit "Nan or inf found in "; FStr (fst kv)].

(** The value of a computation that returns. *)
Definition result_or {A} (r : Result A) (default : A) : A :=
  match r with
  | Ok a => a
  | Raise _ => default
  end.

(** An export, or a command of the build pipeline. *)
Definition is_process_event (e : Event) : bool :=
  match e with
  | EvOnnxExport _ _ | EvExecute _ _ => true
  | _ => false
  end.

(** A command of the build pipeline, or the loading of the artifact. *)
Definition is_build_event (e : Event) : bool :=
  match e with
  | EvExecute _ _ | EvLoadExecutor _ => true
  | _ => false
  end.

(** The codegen flags of the session: the caller's over the default. *)
Definition merged_flags (codegen_flags : option (dict PyVal)) : dict PyVal :=
  dict_update [("extern_result_memory", PyInt 1)]
              (flags_or_empty codegen_flags).

(** The error of the check on training mode and constant folding. *)
Definition incompatible_error : exn :=
  Exception [Lit "Const folding and training mode are incompatible"].

(** The error of the check on [extern_result_memory]. *)
Definition extern_result_memory_error : exn :=
  Exception [Lit "Please add extern_result_memory to codegen flags"].

(** Every tensor and module object of [w] is still there in [w'], as it
    was. *)
Definition untouched (w w' : World) : Prop :=
  (forall l t, tensors w !! l = Some t -> tensors w' !! l = Some t) /\
  (forall l m, modules w !! l = Some m -> modules w' !! l = Some m).

(** The module object [c] and the tensors it owns were all created after
    the world [w0]. *)
Definition fresh_module (w0 : World) (c : loc) (w : World) : Prop :=
  (length (modules w0) <= c)%nat /\
  exists m, modules w !! c = Some m /\
            Forall (fun l => (length (tensors w0) <= l)%nat) (own_tensors m).

(** From a world in [P], the computation returns in [Q] or raises in [X]. *)
Definition hoare {A} (P : World -> Prop) (m : M A)
    (Q : A -> World -> Prop) (X : World -> Prop) : Prop :=
  forall w, P w ->
            match m w with
            | (Ok a, w') => Q a w'
            | (Raise _, w') => X w'
            end.

(** The invariant of the loops that work on a copy: nothing of [w0] is
    touched, and the module store satisfies [K]. *)
Definition store_inv (w0 : World) (K : list Module -> Prop) (w : World)
  : Prop :=
  untouched w0 w /\ K (modules w).

(** * A concrete session *)

(** A [str2type] table with an alias, as dtypes.py has them. *)
Definition demo_str2type (k : string) : option TypeObject :=
  if String.eqb k "float32"
  then Some {| type_str := "float32"; torch_type := torch.float32 |}
  else if String.eqb k "float"
  then Some {| type_str := "float32"; torch_type := torch.float32 |}
  else if String.eqb k "int64"
  then Some {| type_str := "int64"; torch_type := torch.int64 |}
  else None.

Definition demo_desc (n : string) (sh : list dim) (ty : string)
  : IODescription :=
  {| name := n; shape := sh; dtype := ty; num_classes := None |}.

(** An artifact that copies its input [x] into its output [y]. *)
Definition demo_kernel (ins : dict (option DataFormat))
    (outs : dict DataFormat) (ts : list torch.Tensor)
  : Result (list (loc * torch.Tensor)) :=
  match dict_get "x" ins, dict_get "y" outs with
  | Some (Some dx), Some dy =>
      match ts !! reference dx with
      | Some t => Ok [(reference dy, t)]
      | None => Raise (ExternalError "dangling input")
      end
  | _, _ => Raise (ExternalError "unbound input")
  end.

Definition demo_artifact (ins outs : list IODescription) : Executor :=
  {| get_inputs := ins; get_outputs := outs; kernel := demo_kernel |}.

(** An environment in which every external step succeeds and the build
    yields the artifact [ex]. *)
Definition demo_env (ex : Executor) : Env :=
  {| str2type := demo_str2type;
     rng_draw := fun n => Z.of_nat n * 7;
     onnx_export := fun st ws _ => Ok (st + 1, ws);
     exit_ok := fun _ _ => true;
     load_executor := fun _ => Ok ex;
     abspath := fun p => p;
     expand_path := fun p => p;
     mkdtemp := fun prefix => "/tmp/" ++ prefix ++ "0";
     action_error := fun _ => None;
     has_compatible_shallow_copy_type := fun _ _ => true |}.

(** The same environment on a machine where nothing can be made under
    [/proc]. *)
Definition demo_readonly_env (ex : Executor) : Env :=
  {| str2type := demo_str2type;
     rng_draw := fun n => Z.of_nat n * 7;
     onnx_export := fun st ws _ => Ok (st + 1, ws);
     exit_ok := fun _ _ => true;
     load_executor := fun _ => Ok ex;
     abspath := fun p => p;
     expand_path := fun p => p;
     mkdtemp := fun prefix => "/tmp/" ++ prefix ++ "0";
     action_error := fun ev =>
                       match ev with
                       | EvMakedirs path =>
                           if String.prefix "/proc" path
                           then Some (OSError "Permission denied")
                           else None
                       | _ => None
                       end;
     has_compatible_shallow_copy_type := fun _ _ => true |}.

(** The same environment with a [meta] device, whose tensors a parameter
    of another device cannot take. *)
Definition demo_meta_env (ex : Executor) : Env :=
  {| str2type := demo_str2type;
     rng_draw := fun n => Z.of_nat n * 7;
     onnx_export := fun st ws _ => Ok (st + 1, ws);
     exit_ok := fun _ _ => true;
     load_executor := fun _ => Ok ex;
     abspath := fun p => p;
     expand_path := fun p => p;
     mkdtemp := fun prefix => "/tmp/" ++ prefix ++ "0";
     action_error := fun _ => None;
     has_compatible_shallow_copy_type :=
       fun t t' => Bool.eqb (String.eqb (torch.device t) "meta")
                            (String.eqb (torch.device t') "meta") |}.

(** The identity model, with one parameter [w] and one buffer [b]. *)
Definition demo_identity : Module :=
  {| named_parameters := [("w", 0%nat)];
     named_buffers := [("b", 1%nat)];
     m_state := 0;
     m_forward := fun st ws args =>
                    Ok (match args with
                        | [t] => OutTensor t
                        | _ => OutTuple args
                        end, st, ws) |}.

Definition demo_tensor (dev : string) (xs : list torch.scalar)
  : torch.Tensor :=
  {| torch.shape := [Z.of_nat (length xs)]; torch.dtype_of := torch.float32;
     torch.device := dev; torch.data := xs |}.

Definition demo_one : torch.scalar := torch.scalar_of_Z torch.float32 1.

(** The model lives on the CPU; tensors 2 and 3 are two feeds for [x]. *)
Definition demo_world : World :=
  {| tensors := [demo_tensor "cpu" [demo_one; demo_one];
                 demo_tensor "cpu" [demo_one];
                 {| torch.shape := [2; 3]; torch.dtype_of := torch.float32;
                    torch.device := "cuda:0";
                    torch.data := repeat demo_one 6 |};
                 {| torch.shape := [2; 3]; torch.dtype_of := torch.float32;
                    torch.device := "cuda:0";
                    torch.data :=
                      repeat (torch.scalar_of_Z torch.float32 2) 6 |}];
     modules := [demo_identity];
     cwd := "/home";
     rng_pos := 0;
     trace := [] |}.

(** An artifact that copies [x] into [y] and leaves a NaN in the weight
    bound to its input [w]. *)
Definition demo_nan_kernel (ins : dict (option DataFormat))
    (outs : dict DataFormat) (ts : list torch.Tensor)
  : Result (list (loc * torch.Tensor)) :=
  match demo_kernel ins outs ts, dict_get "w" ins with
  | Ok writes, Some (Some dw) =>
      Ok (writes ++ [(reference dw,
                      demo_tensor "cuda:0" [demo_one;
                                            torch.SFloat S754_nan])])%list
  | Ok _, _ => Raise (ExternalError "unbound input")
  | Raise e, _ => Raise e
  end.

Definition demo_nan_artifact (ins outs : list IODescription) : Executor :=
  {| get_inputs := ins; get_outputs := outs; kernel := demo_nan_kernel |}.

Definition demo_x : IODescription := demo_desc "x" [DInt 2; DInt 3] "float32".
Definition demo_y : IODescription := demo_desc "y" [DInt 2; DInt 3] "float32".
Definition demo_w : IODescription := demo_desc "w" [DInt 2] "float32".
Definition demo_bias : IODescription := demo_desc "bias" [DInt 3] "float32".
Definition demo_unused : IODescription := demo_desc "mask" [DInt 2] "int64".

(** The session object as [__init__] hands it to [_create_executor]. *)
Definition demo_self (input_desc output_desc : list IODescription)
    (flags : dict PyVal) : PTSession :=
  {| _model := 0%nat; _model_format := "onnx";
     _torch_weights := [("w", 0%nat); ("b", 1%nat)];
     _input_desc := input_desc; _device := "cuda:0";
     _output_desc := output_desc;
     _model_desc := {| inputs := input_desc; outputs := output_desc |};
     _dir_ctx := None; _workdir := "/work";
     _const_folding := false; _build_nnf := false;
     _onnx_model_path := ""; _codegen_flags := flags;
     _executor := None; _inputs := []; _outputs := [] |}.

Definition demo_flags : dict PyVal := [("extern_result_memory", PyInt 1)].

(** A session built with the whole pipeline, not in training mode: the
    artifact takes [x] and the weight [w], the caller's [mask] is unused. *)
Definition demo_build : Result PTSession * World :=
  __init__ (demo_env (demo_artifact [demo_x; demo_w] [demo_y]))
           0%nat [demo_x; demo_w; demo_unused] "cuda:0" (Some [demo_y])
           None "onnx" false true None demo_world.

Definition demo_session : PTSession :=
  result_or (fst demo_build) (demo_self [] [] []).

(** Two runs of it, on two different feeds for [x]. *)
Definition demo_run1 : Result (list loc) * (PTSession * World) :=
  run_by_nnf [("x", 2%nat)] false (demo_session, snd demo_build).

Definition demo_run2 : Result (list loc) * (PTSession * World) :=
  run_by_nnf [("x", 3%nat)] false (snd demo_run1).

(** A session whose artifact takes, next to [x], the parameter [w] and
    the buffer [b] of the model, built with the whole pipeline and not
    in training mode; and a run of it. *)
Definition demo_b : IODescription := demo_desc "b" [DInt 1] "float32".

Definition demo_weights_build : Result PTSession * World :=
  __init__ (demo_env (demo_artifact [demo_x; demo_w; demo_b] [demo_y]))
           0%nat [demo_x; demo_w; demo_b] "cuda:0" (Some [demo_y])
           None "onnx" false true None demo_world.

Definition demo_weights_session : PTSession :=
  result_or (fst demo_weights_build) (demo_self [] [] []).

Definition demo_weights_run : Result (list loc) * (PTSession * World) :=
  run_by_nnf [("x", 2%nat)] false
             (demo_weights_session, snd demo_weights_build).

(** The same session in training mode, where the caller declares [x]
    only. *)
Definition demo_training_build : Result PTSession * World :=
  __init__ (demo_env (demo_artifact [demo_x; demo_w; demo_b] [demo_y]))
           0%nat [demo_x] "cuda:0" (Some [demo_y]) None "onnx" false true
           (Some [("training_mode", PyInt 1)]) demo_world.

(** A session over the artifact that corrupts [w]. *)
Definition demo_nan_build : Result PTSession * World :=
  __init__ (demo_env (demo_nan_artifact [demo_x; demo_w] [demo_y]))
           0%nat [demo_x; demo_w] "cuda:0" (Some [demo_y])
           None "onnx" false false None demo_world.

Definition demo_nan_session : PTSession :=
  result_or (fst demo_nan_build) (demo_self [] [] []).

(** What that artifact writes when [x] is fed with tensor 2. *)
Definition demo_nan_writes : list (loc * torch.Tensor) :=
  result_or
    (kernel (demo_nan_artifact [demo_x; demo_w] [demo_y])
            (feed_inputs [("x", 2%nat)] (_inputs demo_nan_session))
            (_outputs demo_nan_session) (tensors (snd demo_nan_build)))
    [].

(** Constructions of the demo session with a falsy
    [extern_result_memory], and with training mode and constant folding
    both set. *)
Definition demo_falsy_build : Result PTSession * World :=
  __init__ (demo_env (demo_artifact [demo_x; demo_w] [demo_y]))
           0%nat [demo_x; demo_w; demo_unused] "cuda:0" (Some [demo_y])
           None "onnx" false true
           (Some [("extern_result_memory", PyInt 0)]) demo_world.

Definition demo_folding_build : Result PTSession * World :=
  __init__ (demo_env (demo_artifact [demo_x; demo_w] [demo_y]))
           0%nat [demo_x; demo_w; demo_unused] "cuda:0" (Some [demo_y])
           None "onnx" true true
           (Some [("training_mode", PyInt 1)]) demo_world.

(** The same construction, not exporting, with a work directory that
    cannot be made. *)
Definition demo_unwritable_build : Result PTSession * World :=
  __init__ (demo_readonly_env (demo_artifact [demo_x; demo_w] [demo_y]))
           0%nat [demo_x; demo_w; demo_unused] "cuda:0" (Some [demo_y])
           (Some "/proc/nnf") "onnx" true false
           (Some [("training_mode", PyInt 1)]) demo_world.

(** The move of the demo model to the [meta] device. *)
Definition demo_meta_move : Result loc * World :=
  Module_to (demo_meta_env (demo_artifact [demo_x] [demo_y])) 0%nat "meta"
            demo_world.

(** The export of the demo model, which lives on the CPU, for a CUDA
    session. *)
Definition demo_export : Result loc * World :=
  convert_model_to_onnx (demo_env (demo_artifact [demo_x] [demo_y]))
    0%nat {| inputs := [demo_x]; outputs := [demo_y] |} "cuda:0"
    "/work/nnf.onnx" false demo_world.

(** A shape mismatch on the output [y]: the caller declares (2, 3), the
    artifact (2, 4). *)
Definition demo_y_wide : IODescription :=
  demo_desc "y" [DInt 2; DInt 4] "float32".

Definition demo_output_shape_mismatch : Result PTSession * World :=
  __init__ (demo_env (demo_artifact [demo_x] [demo_y_wide]))
           0%nat [demo_x] "cuda:0" (Some [demo_y])
           None "onnx" false false None demo_world.

(** A dtype mismatch on the output [w], in training mode, where [w] is
    also the name of a weight. *)
Definition demo_w_int : IODescription := demo_desc "w" [DInt 2] "int64".

Definition demo_output_dtype_mismatch : Result PTSession * World :=
  __init__ (demo_env (demo_artifact [demo_x; demo_w] [demo_y; demo_w_int]))
           0%nat [demo_x] "cuda:0" (Some [demo_y; demo_w])
           None "onnx" false false
           (Some [("training_mode", PyInt 1)]) demo_world.

(** The same shape mismatch on the input [x]. *)
Definition demo_x_wide : IODescription :=
  demo_desc "x" [DInt 2; DInt 4] "float32".

Definition demo_input_shape_mismatch : Result PTSession * World :=
  __init__ (demo_env (demo_artifact [demo_x_wide] [demo_y]))
           0%nat [demo_x] "cuda:0" (Some [demo_y])
           None "onnx" false false None demo_world.

(** A descriptor with a dynamic dimension. *)
Definition demo_dynamic : IODescription :=
  demo_desc "x" [DInt 2; DSym "batch"] "float32".

(** A descriptor of class indices. *)
Definition demo_labels : IODescription :=
  {| name := "labels"; shape := [DInt 2; DInt 2]; dtype := "int64";
     num_classes := Some 3 |}.


(** The dimension [generate_sample] takes for a dimension of a
    descriptor. *)
Definition concrete_dim (s : dim) : Z :=
  match s with
  | DInt n => n
  | DSym _ => 1
  end.

Definition is_concrete (s : dim) : Prop :=
  match s with
  | DInt _ => True
  | DSym _ => False
  end.

(** The name a torch dtype is looked up under in [str2type]. *)
Definition dtype_name (d : torch.dtype) : string :=
  List.last (str_split "." (torch.dtype_str d)) "".


(** The tensors a forward computation has returned. *)
Definition unwrap (out : ModelOut) : list torch.Tensor :=
  match out with
  | OutTensor t => [t]
  | OutTuple ts => ts
  end.







(** [f"output_{i}"] for the positions from [i] on. *)
Definition output_names (i n : nat) : list string :=
  map (fun j => "output_" ++ str_of_Z (Z.of_nat j)) (seq i n).

(** Contract inference on the demo identity model, for an input with a
    dynamic dimension. *)
Definition demo_inference : Result (list IODescription) * World :=
  generate_output_desc (demo_env (demo_artifact [] [])) 0%nat
                       [demo_dynamic; demo_labels] "cpu" demo_world.

(** ** Vocabulary of the further properties *)

(** The directory a session works in: the caller's, expanded, or a new
    temporary one when the caller gives none, or an empty one. *)
Definition workdir_of (E : Env) (workdir : option string) : string :=
  match workdir with
  | Some (String c wd) => expand_path E (String c wd)
  | _ => mkdtemp E "nnf_"
  end.

(** What the construction does to get that directory. *)
Definition workdir_event (E : Env) (workdir : option string) : Event :=
  match workdir with
  | Some (String c wd) => EvMakedirs (expand_path E (String c wd))
  | _ => EvTemporaryDirectory (mkdtemp E "nnf_")
  end.

(** The flag string of the code generation command. *)
Definition flags_str_of (model_format : string) (flags : dict PyVal)
  : string :=
  let flags_str := "-f " ++ model_format ++ " " in
  flags_str
  ++ str_join " " (map (fun kv => "-f" ++ fst kv ++ "=" ++ py_str (snd kv))
                       flags).

(** The four commands of the build pipeline, each with the directory it
    runs in. *)
Definition build_commands (E : Env) (workdir model_path flags_str : string)
  : list Event :=
  [EvExecute workdir
     (Shell ("nnfusion" ++ " " ++ abspath E model_path ++ " " ++ flags_str));
   EvExecute (path_join workdir "nnfusion_rt/cuda_codegen")
     (Shell ("sed -i '/cudaDeviceReset()/s:^://:'" ++ " " ++ "nnfusion_rt.cu"));
   EvExecute (path_join workdir "nnfusion_rt/cuda_codegen")
     (Argv ["cmake ."]);
   EvExecute (path_join workdir "nnfusion_rt/cuda_codegen")
     (Shell "make -j")].

(** The buffer the session build allocates for an artifact output: a
    tensor of zeros of the declared shape and dtype, on the device. *)
Definition zero_buffer (E : Env) (device : string) (d : IODescription)
    (t : torch.Tensor) : Prop :=
  exists ty size,
    str2type E (dtype d) = Some ty /\
    shape d = map DInt size /\
    t = {| torch.shape := size; torch.dtype_of := torch_type ty;
           torch.device := device;
           torch.data := repeat (torch.scalar_of_Z (torch_type ty) 0)
                                (torch.numel size) |}.

(** An artifact output is accepted against the caller's output contract:
    it is declared there with the same shape and dtype, or it is not
    declared there and the session is in training mode. *)
Definition output_ok (flags : dict PyVal) (real_outputs : dict IODescription)
    (d : IODescription) : Prop :=
  match dict_get (name d) real_outputs with
  | Some r => shape d = shape r /\ dtype d = dtype r
  | None => training_mode flags = true
  end.

(** An artifact output a buffer can be allocated for. *)
Definition allocatable (E : Env) (d : IODescription) : Prop :=
  exists ty size,
    str2type E (dtype d) = Some ty /\
    shape d = map DInt size /\
    torch.bad_size size = false.

(** The sample the exporter is given for a descriptor: of the declared
    dtype, of the declared shape with every dynamic dimension taken as
    1, on the device. *)
Definition export_sample (E : Env) (device : string) (d : IODescription)
    (t : torch.Tensor) : Prop :=
  exists ty, str2type E (dtype d) = Some ty /\
             torch.shape t = map concrete_dim (shape d) /\
             torch.dtype_of t = torch_type ty /\
             torch.device t = device.

(** What the session build raises for a device that is not a CUDA
    device. *)
Definition unsupported_device_error (device : string) : exn :=
  if str_contains "cpu" device
  then Exception [Lit "CPU not supported yet"]
  else if str_contains "rocm" device
  then Exception [Lit "ROCm not supported yet"]
  else Exception [Lit "Unknown device "; FStr device].

(** A weight that training mode can expose as an input: its tensor is
    there and its dtype is in the table. *)
Definition describable (E : Env) (w : World) (kv : string * loc) : Prop :=
  exists t d, tensors w !! snd kv = Some t /\ tensor2desc E t (fst kv) = Ok d.

(** The descriptor [tensor2desc] gives for a tensor: its shape, all
    integers, the table's name for its dtype, and no [num_classes]. *)
Definition described_by (E : Env) (t : torch.Tensor) (o : IODescription)
  : Prop :=
  shape o = map DInt (torch.shape t) /\
  num_classes o = None /\
  exists ty, str2type E (dtype_name (torch.dtype_of t)) = Some ty /\
             dtype o = type_str ty.

(** ** More concrete sessions *)

(** The session build alone, with [build_nnf] off. *)
Definition demo_create : Result PTSession * World :=
  _create_executor (demo_env (demo_artifact [demo_x] [demo_y]))
    (demo_self [demo_x; demo_unused] [demo_y] demo_flags) demo_world.

Definition demo_created : PTSession :=
  result_or (fst demo_create) (demo_self [] [] []).

(** An output the caller declares and the artifact does not produce. *)
Definition demo_z : IODescription := demo_desc "z" [DInt 3] "float32".

Definition demo_extra_create : Result PTSession * World :=
  _create_executor (demo_env (demo_artifact [demo_x] [demo_y]))
    (demo_self [demo_x] [demo_y; demo_z] demo_flags) demo_world.

Definition demo_extra_session : PTSession :=
  result_or (fst demo_extra_create) (demo_self [] [] []).

(** A third run of the demo session, with nothing fed. *)
Definition demo_run3 : Result (list loc) * (PTSession * World) :=
  run_by_nnf [] false (snd demo_run1).

(** A run fed with a name that is not an input of the session. *)
Definition demo_run4 : Result (list loc) * (PTSession * World) :=
  run_by_nnf [("x", 2%nat); ("nobody", 3%nat)] false
             (demo_session, snd demo_build).

(** * Properties *)

(** ** Dicts *)

Section DictFacts.

Context {V : Type}.
Implicit Types (k : string) (v : V) (d : dict V).

Lemma dict_get_set k k' v d :
  dict_get k (dict_set k' v d) =
  if String.eqb k k' then Some v else dict_get k d.
Proof.
  induction d as [|[k0 v0] d IH]; simpl.
  - destruct (String.eqb k k'); reflexivity.
  - destruct (String.eqb_spec k' k0) as [->|Hne]; simpl.
    + destruct (String.eqb k k0); reflexivity.
    + rewrite IH. destruct (String.eqb_spec k k0) as [->|Hne'].
      * destruct (String.eqb_spec k0 k'); congruence.
      * reflexivity.
Qed.

Lemma dict_get_set_eq k v d : dict_get k (dict_set k v d) = Some v.
Proof. rewrite dict_get_set, String.eqb_refl. reflexivity. Qed.

Lemma dict_get_set_ne k k' v d :
  k <> k' -> dict_get k (dict_set k' v d) = dict_get k d.
Proof.
  intros Hne. rewrite dict_get_set.
  destruct (String.eqb_spec k k'); congruence.
Qed.

Lemma dict_mem_set k k' v d :
  dict_mem k (dict_set k' v d) = String.eqb k k' || dict_mem k d.
Proof.
  unfold dict_mem. rewrite dict_get_set.
  destruct (String.eqb k k'); reflexivity.
Qed.

Lemma dict_mem_false k d : dict_mem k d = false <-> dict_get k d = None.
Proof. unfold dict_mem. destruct (dict_get k d); split; congruence. Qed.

Lemma dict_mem_true k d :
  dict_mem k d = true <-> exists v, dict_get k d = Some v.
Proof.
  unfold dict_mem. destruct (dict_get k d); split; eauto; try congruence.
  intros [v Hv]. congruence.
Qed.

Lemma dict_mem_keys k d : dict_mem k d = true <-> In k (map fst d).
Proof.
  unfold dict_mem. induction d as [|[k0 v0] d IH]; simpl.
  - split; [congruence|tauto].
  - destruct (String.eqb_spec k k0) as [->|Hne].
    + split; auto.
    + rewrite IH. split; [auto|]. intros [H|H]; [congruence|auto].
Qed.

Lemma dict_mem_update k d (items : list (string * V)) :
  dict_mem k (dict_update d items) = true <->
  dict_mem k d = true \/ In k (map fst items).
Proof.
  unfold dict_update. revert d.
  induction items as [|[k0 v0] items IH]; intros d; simpl.
  - tauto.
  - rewrite IH, dict_mem_set. simpl.
    destruct (String.eqb_spec k k0) as [->|Hne]; simpl.
    + tauto.
    + split; [tauto|]. intros [H|[H|H]]; auto; congruence.
Qed.

Lemma dict_mem_of_items k (items : list (string * V)) :
  dict_mem k (dict_of_items items) = true <-> In k (map fst items).
Proof.
  unfold dict_of_items. rewrite dict_mem_update.
  split; [intros [H|H]; [discriminate|auto] | auto].
Qed.

Lemma dict_get_update_In k v d (items : list (string * V)) :
  dict_get k (dict_update d items) = Some v ->
  dict_get k d = Some v \/ In (k, v) items.
Proof.
  unfold dict_update. revert d.
  induction items as [|[k0 v0] items IH]; intros d; simpl; [auto|].
  intros H. apply IH in H. destruct H as [H|H]; [|auto].
  rewrite dict_get_set in H.
  destruct (String.eqb_spec k k0) as [->|Hne]; [|auto].
  right. left. congruence.
Qed.

Lemma dict_get_update_None k d (items : list (string * V)) :
  dict_get k items = None ->
  dict_get k (dict_update d items) = dict_get k d.
Proof.
  unfold dict_update. revert d.
  induction items as [|[k0 v0] items IH]; intros d Hn; simpl in *;
    [reflexivity|].
  destruct (String.eqb_spec k k0) as [Hk|Hk]; [discriminate Hn|].
  rewrite IH by exact Hn. apply dict_get_set_ne. exact Hk.
Qed.

End DictFacts.

(** The caller's descriptors, keyed by name. *)
Lemma dict_mem_descs n (descs : list IODescription) :
  dict_mem n (dict_of_items (map (fun desc => (name desc, desc)) descs)) = true
  <-> In n (map name descs).
Proof.
  rewrite dict_mem_of_items, map_map. simpl. reflexivity.
Qed.

Lemma shape_eqb_spec a b : reflect (a = b) (shape_eqb a b).
Proof.
  revert b. induction a as [|x a IH]; intros [|y b]; simpl;
    try (constructor; congruence).
  destruct x as [n|s], y as [m|t]; simpl;
    try (constructor; congruence).
  - destruct (Z.eqb_spec n m) as [->|Hne]; simpl.
    + destruct (IH b) as [->|Hne]; constructor; congruence.
    + constructor; congruence.
  - destruct (String.eqb_spec s t) as [->|Hne]; simpl.
    + destruct (IH b) as [->|Hne]; constructor; congruence.
    + constructor; congruence.
Qed.

(** ** Reasoning about computations *)

Lemma bind_inv {S A B} (m : MS S A) (k : A -> MS S B) w r w' :
  bind m k w = (r, w') ->
  (exists a w1, m w = (Ok a, w1) /\ k a w1 = (r, w')) \/
  (exists e, m w = (Raise e, w') /\ r = Raise e).
Proof.
  unfold bind. destruct (m w) as [[a|e] w1]; intros H.
  - left. eauto.
  - right. inversion H; subst. eauto.
Qed.

Lemma bind_ok {S A B} (m : MS S A) (k : A -> MS S B) w a w1 :
  m w = (Ok a, w1) -> bind m k w = k a w1.
Proof. unfold bind. intros ->. reflexivity. Qed.

Lemma bind_raise {S A B} (m : MS S A) (k : A -> MS S B) w e w1 :
  m w = (Raise e, w1) -> bind m k w = (Raise e, w1).
Proof. unfold bind. intros ->. reflexivity. Qed.

Section Preserves.

Context {S : Type} (R : S -> S -> Prop).
Context {R_refl : Reflexive R} {R_trans : Transitive R}.

Lemma preserves_ret {A} (a : A) : preserves R (ret a).
Proof. intros w. apply R_refl. Qed.

Lemma preserves_raise {A} e : preserves R (@raise S A e).
Proof. intros w. apply R_refl. Qed.

Lemma preserves_lift {A} (r : Result A) : preserves R (lift r).
Proof. intros w. apply R_refl. Qed.

Lemma preserves_bind {A B} (m : MS S A) (k : A -> MS S B) :
  preserves R m -> (forall a, preserves R (k a)) -> preserves R (bind m k).
Proof.
  intros Hm Hk w. unfold bind. specialize (Hm w).
  destruct (m w) as [[a|e] w1]; simpl in *; [|exact Hm].
  eapply R_trans; [exact Hm | apply Hk].
Qed.

Lemma preserves_for_each {A} (f : A -> MS S unit) xs :
  (forall x, preserves R (f x)) -> preserves R (for_each f xs).
Proof.
  intros Hf. induction xs as [|x xs IH]; simpl.
  - apply preserves_ret.
  - apply preserves_bind; auto.
Qed.

Lemma preserves_map_M {A B} (f : A -> MS S B) xs :
  (forall x, preserves R (f x)) -> preserves R (map_M f xs).
Proof.
  intros Hf. induction xs as [|x xs IH]; simpl.
  - apply preserves_ret.
  - apply preserves_bind; [auto|]. intros y.
    apply preserves_bind; [auto|]. intros ys. apply preserves_ret.
Qed.

End Preserves.

Lemma preserves_run {S A} (R : S -> S -> Prop) (m : MS S A) w r w' :
  preserves R m -> m w = (r, w') -> R w w'.
Proof. intros H Heq. specialize (H w). rewrite Heq in H. exact H. Qed.

#[local] Instance same_store_refl : Reflexive same_store.
Proof. intros w. split; reflexivity. Qed.

#[local] Instance same_store_trans : Transitive same_store.
Proof. intros a b c [H1 H2] [H3 H4]. split; congruence. Qed.

#[local] Instance events_refl P : Reflexive (events P).
Proof. intros w. exists []. rewrite app_nil_r. auto. Qed.

#[local] Instance events_trans P : Transitive (events P).
Proof.
  intros a b c [e1 [H1 F1]] [e2 [H2 F2]]. exists (e1 ++ e2)%list.
  rewrite H2, H1, app_assoc. split; [reflexivity|]. apply Forall_app; auto.
Qed.

#[local] Instance grows_refl : Reflexive grows.
Proof. intros w. split; lia. Qed.

#[local] Instance grows_trans : Transitive grows.
Proof. intros a b c [H1 H2] [H3 H4]. split; lia. Qed.

Lemma emit_events P e : P e -> preserves (events P) (emit e).
Proof. intros H w. exists [e]. simpl. auto. Qed.

Create HintDb pres discriminated.

#[local] Hint Resolve preserves_ret preserves_raise preserves_lift : pres.

(** Breaks a goal [preserves R m] along the structure of [m]. *)
Ltac pres_step :=
  match goal with
  | |- preserves _ (bind _ _) =>
      apply preserves_bind; try typeclasses eauto; [|intros ?]
  | |- preserves _ (for_each _ _) =>
      apply preserves_for_each; try typeclasses eauto; intros ?
  | |- preserves _ (map_M _ _) =>
      apply preserves_map_M; try typeclasses eauto; intros ?
  | |- preserves (events _) (emit _) => apply emit_events; reflexivity
  | |- preserves _ (if ?b then _ else _) => destruct b
  | |- preserves _ (match ?x with _ => _ end) => destruct x
  | |- preserves _ _ => solve [eauto with pres typeclass_instances]
  end.

Ltac pres := repeat pres_step.

(** *** What the primitives preserve *)

Lemma emit_same_store e : preserves same_store (emit e).
Proof. intros w. split; reflexivity. Qed.

Lemma emit_grows e : preserves grows (emit e).
Proof. intros w. split; simpl; lia. Qed.

Lemma get_world_preserves (R : World -> World -> Prop) `{!Reflexive R} :
  preserves R get_world.
Proof. intros w. simpl. reflexivity. Qed.

Lemma read_tensor_preserves (R : World -> World -> Prop) `{!Reflexive R} l :
  preserves R (read_tensor l).
Proof.
  intros w. unfold read_tensor. destruct (tensors w !! l); simpl; reflexivity.
Qed.

Lemma read_module_preserves (R : World -> World -> Prop) `{!Reflexive R} l :
  preserves R (read_module l).
Proof.
  intros w. unfold read_module. destruct (modules w !! l); simpl; reflexivity.
Qed.

Lemma set_cwd_events P d : preserves (events P) (set_cwd d).
Proof. intros w. exists []. simpl. rewrite app_nil_r. auto. Qed.

Lemma set_cwd_same_store d : preserves same_store (set_cwd d).
Proof. intros w. split; reflexivity. Qed.

Lemma set_cwd_grows d : preserves grows (set_cwd d).
Proof. intros w. split; simpl; lia. Qed.

Lemma set_rng_pos_events P n : preserves (events P) (set_rng_pos n).
Proof. intros w. exists []. simpl. rewrite app_nil_r. auto. Qed.

Lemma set_rng_pos_same_store n : preserves same_store (set_rng_pos n).
Proof. intros w. split; reflexivity. Qed.

Lemma set_rng_pos_grows n : preserves grows (set_rng_pos n).
Proof. intros w. split; simpl; lia. Qed.

Lemma set_tensors_events P ts : preserves (events P) (set_tensors ts).
Proof. intros w. exists []. simpl. rewrite app_nil_r. auto. Qed.

Lemma set_modules_events P ms : preserves (events P) (set_modules ms).
Proof. intros w. exists []. simpl. rewrite app_nil_r. auto. Qed.

Lemma write_tensor_grows l t : preserves grows (write_tensor l t).
Proof. intros w. split; simpl; [rewrite length_insert|]; lia. Qed.

Lemma alloc_tensor_grows t : preserves grows (alloc_tensor t).
Proof. intros w. split; simpl; [rewrite length_app|]; lia. Qed.

Lemma write_module_grows l m : preserves grows (write_module l m).
Proof. intros w. split; simpl; [|rewrite length_insert]; lia. Qed.

Lemma alloc_module_grows m : preserves grows (alloc_module m).
Proof. intros w. split; simpl; [|rewrite length_app]; lia. Qed.

#[local] Hint Resolve emit_same_store emit_grows get_world_preserves
  read_tensor_preserves read_module_preserves set_cwd_events
  set_cwd_same_store set_cwd_grows set_rng_pos_events set_rng_pos_same_store
  set_rng_pos_grows set_tensors_events set_modules_events write_tensor_grows
  alloc_tensor_grows write_module_grows alloc_module_grows : pres.

Lemma write_tensor_events P l t : preserves (events P) (write_tensor l t).
Proof. unfold write_tensor. pres. Qed.

Lemma alloc_tensor_events P t : preserves (events P) (alloc_tensor t).
Proof. unfold alloc_tensor. pres. Qed.

Lemma write_module_events P l m : preserves (events P) (write_module l m).
Proof. unfold write_module. pres. Qed.

Lemma alloc_module_events P m : preserves (events P) (alloc_module m).
Proof. unfold alloc_module. pres. Qed.

#[local] Hint Resolve write_tensor_events alloc_tensor_events
  write_module_events alloc_module_events : pres.

Lemma write_back_preserves (R : World -> World -> Prop)
    `{!Reflexive R} `{!Transitive R} ls ts :
  (forall l t, preserves R (write_tensor l t)) ->
  preserves R (write_back ls ts).
Proof.
  intros H. revert ts. induction ls as [|l ls IH]; intros [|t ts]; simpl;
    try apply preserves_ret; try assumption.
  apply preserves_bind; auto.
Qed.

Lemma write_back_events P ls ts : preserves (events P) (write_back ls ts).
Proof. apply write_back_preserves; try typeclasses eauto. intros; pres. Qed.

Lemma write_back_grows ls ts : preserves grows (write_back ls ts).
Proof. apply write_back_preserves; try typeclasses eauto. intros; pres. Qed.

#[local] Hint Resolve write_back_events write_back_grows : pres.

Lemma deepcopy_events P model : preserves (events P) (deepcopy model).
Proof. unfold deepcopy, copy_named. pres. Qed.

Lemma deepcopy_grows model : preserves grows (deepcopy model).
Proof. unfold deepcopy, copy_named. pres. Qed.

Lemma Module_to_events P E model dev :
  preserves (events P) (Module_to E model dev).
Proof. unfold Module_to, param_to, buffer_to. pres. Qed.

Lemma Module_to_grows E model dev : preserves grows (Module_to E model dev).
Proof. unfold Module_to, param_to, buffer_to. pres. Qed.

Lemma call_module_events P model args :
  preserves (events P) (call_module model args).
Proof. unfold call_module. pres. Qed.

Lemma call_module_grows model args : preserves grows (call_module model args).
Proof. unfold call_module. pres. Qed.

#[local] Hint Resolve deepcopy_events deepcopy_grows Module_to_events
  Module_to_grows call_module_events call_module_grows : pres.

(** *** What the functions of session.py preserve *)

Section SessionPreserves.

Variable E : Env.

Lemma add_weight_descs_same items ri w :
  snd (add_weight_descs E items ri w) = w.
Proof.
  revert ri. induction items as [|[n l] items IH]; intros ri; simpl.
  - reflexivity.
  - unfold bind, lift, read_tensor.
    destruct (py_assert _ _); [|reflexivity].
    destruct (tensors w !! l); [|reflexivity].
    destruct (tensor2desc E _ _); [|reflexivity].
    apply IH.
Qed.

Lemma torch_randint_events P low high size d :
  preserves (events P) (torch_randint E low high size d).
Proof. unfold torch_randint. pres. Qed.

Lemma torch_randint_grows low high size d :
  preserves grows (torch_randint E low high size d).
Proof. unfold torch_randint. pres. Qed.

Lemma torch_randint_same_store low high size d :
  preserves same_store (torch_randint E low high size d).
Proof. unfold torch_randint. pres. Qed.

#[local] Hint Resolve torch_randint_events torch_randint_grows
  torch_randint_same_store : pres.

Lemma generate_sample_events P desc dev :
  preserves (events P) (generate_sample E desc dev).
Proof. unfold generate_sample. pres. Qed.

Lemma generate_sample_grows desc dev :
  preserves grows (generate_sample E desc dev).
Proof. unfold generate_sample. pres. Qed.

Lemma generate_sample_same_store desc dev :
  preserves same_store (generate_sample E desc dev).
Proof. unfold generate_sample. pres. Qed.

#[local] Hint Resolve generate_sample_events generate_sample_grows
  generate_sample_same_store : pres.

Lemma generate_output_desc_events P model input_desc dev :
  preserves (events P) (generate_output_desc E model input_desc dev).
Proof. unfold generate_output_desc. pres. Qed.

Lemma generate_output_desc_grows model input_desc dev :
  preserves grows (generate_output_desc E model input_desc dev).
Proof. unfold generate_output_desc. pres. Qed.

Lemma torch_onnx_export_events (P : Event -> Prop) model a :
  P (EvOnnxExport model a) ->
  preserves (events P) (torch_onnx_export E model a).
Proof. intros HP. unfold torch_onnx_export. pres. apply emit_events, HP. Qed.

Lemma torch_onnx_export_grows model a :
  preserves grows (torch_onnx_export E model a).
Proof. unfold torch_onnx_export. pres. Qed.

Lemma convert_model_to_onnx_events (P : Event -> Prop) model md dev f cf :
  (forall l a, P (EvOnnxExport l a)) ->
  preserves (events P) (convert_model_to_onnx E model md dev f cf).
Proof.
  intros HP. unfold convert_model_to_onnx. pres.
  apply torch_onnx_export_events, HP.
Qed.

Lemma convert_model_to_onnx_grows model md dev f cf :
  preserves grows (convert_model_to_onnx E model md dev f cf).
Proof.
  unfold convert_model_to_onnx. pres. apply torch_onnx_export_grows.
Qed.

Lemma execute_same_store c : preserves same_store (execute E c).
Proof. unfold execute. pres. Qed.

Lemma with_cd_preserves {A} (R : World -> World -> Prop)
    `{!Reflexive R} `{!Transitive R} dir (body : M A) :
  (forall d, preserves R (set_cwd d)) ->
  preserves R body -> preserves R (with_cd dir body).
Proof.
  intros Hcd Hbody w. unfold with_cd.
  assert (H1 : preserves R (set_cwd dir ;;; body)) by (pres; auto).
  specialize (H1 w). destruct ((set_cwd dir ;;; body) w) as [r w1].
  simpl in *. etransitivity; [exact H1|]. apply (Hcd (cwd w) w1).
Qed.

#[local] Hint Resolve execute_same_store : pres.

Ltac pres_cd :=
  apply with_cd_preserves; try typeclasses eauto; [intros ?|]; pres.

Lemma codegen_same_store p f o : preserves same_store (codegen E p f o).
Proof. unfold codegen. pres_cd. Qed.

Lemma modify_nnfusion_rt_same_store d :
  preserves same_store (modify_nnfusion_rt E d).
Proof. unfold modify_nnfusion_rt. pres_cd. Qed.

Lemma build_same_store d : preserves same_store (build E d).
Proof. unfold build. pres_cd. Qed.

Lemma Executor_new_same_store d : preserves same_store (Executor_new E d).
Proof. unfold Executor_new. pres. Qed.

Lemma Executor_new_events (P : Event -> Prop) d :
  P (EvLoadExecutor d) -> preserves (events P) (Executor_new E d).
Proof. intros HP. unfold Executor_new. pres. apply emit_events, HP. Qed.

Lemma perform_same_store ev : preserves same_store (perform E ev).
Proof. unfold perform. pres. Qed.

Lemma perform_grows ev : preserves grows (perform E ev).
Proof. unfold perform. pres. Qed.

Lemma perform_events (P : Event -> Prop) ev :
  P ev -> preserves (events P) (perform E ev).
Proof. intros HP. unfold perform. pres. apply emit_events, HP. Qed.

Lemma bind_outputs_events P flags ri ro dev ds acc :
  preserves (events P) (bind_outputs E flags ri ro dev ds acc).
Proof.
  revert acc. induction ds as [|d ds IH]; intros acc; simpl; pres.
Qed.

Lemma bind_outputs_grows flags ri ro dev ds acc :
  preserves grows (bind_outputs E flags ri ro dev ds acc).
Proof.
  revert acc. induction ds as [|d ds IH]; intros acc; simpl; pres.
Qed.

Lemma add_weight_descs_preserves (R : World -> World -> Prop)
    `{!Reflexive R} items ri :
  preserves R (add_weight_descs E items ri).
Proof. intros w. rewrite add_weight_descs_same. reflexivity. Qed.

End SessionPreserves.

#[local] Hint Resolve generate_sample_events generate_sample_grows
  generate_sample_same_store generate_output_desc_events
  generate_output_desc_grows convert_model_to_onnx_grows
  execute_same_store codegen_same_store modify_nnfusion_rt_same_store
  build_same_store Executor_new_same_store bind_outputs_events
  bind_outputs_grows add_weight_descs_preserves perform_same_store
  perform_grows : pres.

(** ** The binding validator *)

Lemma input_error_not_ok ri d e : input_error ri d e -> ~ input_ok ri d.
Proof.
  intros [[H1 _]|[[r [H1 [H2 _]]]|[r [H1 [_ [H2 _]]]]]] [r' [H3 [H4 H5]]];
    congruence.
Qed.

Lemma check_input_spec ri d :
  match check_input ri d with
  | Ok _ => input_ok ri d
  | Raise e => input_error ri d e
  end.
Proof.
  unfold check_input, rbind, py_assert, dict_getitem, dict_mem.
  destruct (dict_get (name d) ri) as [r|] eqn:Hget.
  - destruct (shape_eqb_spec (shape d) (shape r)) as [Hs|Hs].
    + destruct (String.eqb_spec (dtype d) (dtype r)) as [Ht|Ht].
      * exists r. auto.
      * right. right. exists r. auto.
    + right. left. exists r. auto.
  - left. auto.
Qed.

Lemma bind_inputs_spec ri ws ds acc :
  match bind_inputs ri ws ds acc with
  | Ok b =>
      Forall (input_ok ri) ds /\
      (forall n, In n (map name ds) ->
                 dict_get n b = Some (weight_binding ws n)) /\
      (forall n, ~ In n (map name ds) -> dict_get n b = dict_get n acc)
  | Raise e =>
      exists pre d post, ds = (pre ++ d :: post)%list /\
                         Forall (input_ok ri) pre /\ input_error ri d e
  end.
Proof.
  revert acc. induction ds as [|d ds IH]; intros acc; simpl.
  - split; [constructor|]. split; [tauto|auto].
  - pose proof (check_input_spec ri d) as Hc.
    unfold rbind at 1. destruct (check_input ri d) as [[]|e].
    + assert (Hb : (if dict_mem (name d) ws
                    then w <-? dict_getitem (name d) ws ;;
                         Ok (Some (cast_pytorch_tensor w))
                    else Ok None)
                   = Ok (weight_binding ws (name d))).
      { unfold dict_mem, dict_getitem, weight_binding, rbind.
        destruct (dict_get (name d) ws); reflexivity. }
      rewrite Hb. unfold rbind.
      specialize (IH (dict_set (name d) (weight_binding ws (name d)) acc)).
      destruct (bind_inputs ri ws ds _) as [b|e].
      * destruct IH as [IH1 [IH2 IH3]]. split; [constructor; auto|].
        split.
        -- intros n [Hn|Hn].
           ++ subst n. destruct (in_dec string_dec (name d) (map name ds)).
              ** auto.
              ** rewrite IH3 by assumption. apply dict_get_set_eq.
           ++ auto.
        -- intros n Hn. rewrite IH3 by tauto.
           apply dict_get_set_ne. intros ->. tauto.
      * destruct IH as [pre [d' [post [Heq [Hpre Herr]]]]].
        exists (d :: pre), d', post. subst ds. split; [reflexivity|].
        split; [constructor; auto|exact Herr].
    + exists [], d, ds. split; [reflexivity|]. split; [constructor|exact Hc].
Qed.

Section Binding.

Variable E : Env.

Lemma add_weight_descs_spec items ri w :
  match add_weight_descs E items ri w with
  | (Ok ri', _) =>
      (forall n r, dict_get n ri = Some r -> dict_get n ri' = Some r) /\
      (forall n, dict_mem n ri' = true ->
                 dict_mem n ri = true \/ In n (map fst items)) /\
      (forall n l t r, In (n, l) items -> tensors w !! l = Some t ->
                       tensor2desc E t n = Ok r -> dict_get n ri' = Some r)
  | (Raise _, _) => True
  end.
Proof.
  revert ri. induction items as [|[n l] items IH]; intros ri; simpl.
  - split; [auto|]. split; [auto|]. intros ? ? ? ? [].
  - unfold bind, lift, read_tensor, py_assert.
    destruct (dict_mem n ri) eqn:Hmem; simpl; [exact I|].
    destruct (tensors w !! l) as [t|] eqn:Ht; [|exact I].
    destruct (tensor2desc E t n) as [d|e] eqn:Hd; [|exact I].
    specialize (IH (dict_set n d ri)).
    destruct (add_weight_descs E items (dict_set n d ri) w) as [[ri'|e] w'];
      [|exact I].
    destruct IH as [IH1 [IH2 IH3]]. split; [|split].
    + intros k r Hk. apply IH1. rewrite dict_get_set_ne; [exact Hk|].
      intros ->. apply dict_mem_false in Hmem. congruence.
    + intros k Hk. apply IH2 in Hk. rewrite dict_mem_set in Hk.
      destruct Hk as [Hk|Hk]; [|auto].
      destruct (String.eqb k n) eqn:Hkn; simpl in Hk; [|auto].
      apply String.eqb_eq in Hkn. auto.
    + intros k l' t' r [Heq|Hin] Ht' Hr.
      * inversion Heq; subst. apply IH1. rewrite dict_get_set_eq.
        congruence.
      * eapply IH3; eauto.
Qed.

(** What a session build that returns has gone through. *)
Lemma create_executor_inv self w s' w' :
  _create_executor E self w = (Ok s', w') ->
  exists ex w1 ri inputs outputs,
    str_contains "cuda" (_device self) = true /\
    load_executor E (rt_dir_of self) = Ok ex /\
    same_store w w1 /\
    real_inputs_of E self w = Ok ri /\
    bind_inputs ri (_torch_weights self) (get_inputs ex) [] = Ok inputs /\
    truthy (dict_get_default "extern_result_memory" PyNone
                             (_codegen_flags self)) = true /\
    bind_outputs E (_codegen_flags self) ri (real_outputs_of self)
                 (_device self) (get_outputs ex) [] w1 = (Ok outputs, w') /\
    s' = set_outputs (set_inputs (set_executor self ex) inputs) outputs.
Proof.
  unfold _create_executor. intros H.
  apply bind_inv in H. destruct H as [[rt_dir [w0 [H0 H]]]|[e [_ He]]];
    [|discriminate].
  destruct (str_contains "cuda" (_device self)) eqn:Hcuda.
  2:{ destruct (str_contains "cpu" (_device self)); [discriminate|].
      destruct (str_contains "rocm" (_device self)); discriminate. }
  inversion H0; subst rt_dir w0. clear H0.
  apply bind_inv in H. destruct H as [[[] [w0 [H0 H]]]|[e [_ He]]];
    [|discriminate].
  assert (Hs0 : same_store w w0).
  { eapply preserves_run; [|exact H0]. pres. }
  clear H0.
  apply bind_inv in H. destruct H as [[ex [w1 [H1 H]]]|[e [_ He]]];
    [|discriminate].
  assert (Hs1 : same_store w0 w1).
  { eapply preserves_run; [|exact H1]. pres. }
  assert (Hload : load_executor E (rt_dir_of self) = Ok ex).
  { unfold Executor_new, bind, emit, lift in H1. simpl in H1.
    inversion H1. reflexivity. }
  clear H1.
  apply bind_inv in H. destruct H as [[ri [w2 [H2 H]]]|[e [_ He]]];
    [|discriminate].
  assert (Hri : real_inputs_of E self w = Ok ri /\ w2 = w1).
  { unfold real_inputs_of. simpl in H2.
    destruct (training_mode (_codegen_flags self)).
    - pose proof (add_weight_descs_same E (_torch_weights self)
                    (dict_of_items (map (fun desc => (name desc, desc))
                                        (_input_desc self))) w1) as Hsame.
      rewrite H2 in Hsame. simpl in Hsame. split; [|exact Hsame].
      assert (Hw : forall items ri0 wa wb, tensors wa = tensors wb ->
                 fst (add_weight_descs E items ri0 wa)
                 = fst (add_weight_descs E items ri0 wb)).
      { clear. induction items as [|[n l] items IH]; intros ri0 wa wb Hab;
          simpl; [reflexivity|].
        unfold bind, lift, read_tensor. rewrite Hab.
        destruct (py_assert _ _); [|reflexivity].
        destruct (tensors wb !! l); [|reflexivity].
        destruct (tensor2desc E _ _); [|reflexivity].
        apply IH, Hab. }
      rewrite (Hw _ _ w w1).
      + rewrite H2. reflexivity.
      + destruct Hs0 as [Ha _], Hs1 as [Hb _]. congruence.
    - inversion H2. auto. }
  destruct Hri as [Hri ->]. clear H2.
  apply bind_inv in H. destruct H as [[inputs [w3 [H3 H]]]|[e [_ He]]];
    [|discriminate].
  unfold lift in H3. inversion H3; subst w3. clear H3.
  apply bind_inv in H. destruct H as [[[] [w4 [H4 H]]]|[e [_ He]]];
    [|discriminate].
  simpl in H4.
  destruct (truthy (dict_get_default "extern_result_memory" PyNone
                                     (_codegen_flags self))) eqn:Hflag;
    simpl in H4; [|discriminate].
  inversion H4; subst w4. clear H4.
  apply bind_inv in H. destruct H as [[outputs [w5 [H5 H]]]|[e [_ He]]];
    [|discriminate].
  inversion H; subst. clear H.
  exists ex, w1, ri, inputs, outputs.
  repeat split; auto; try (destruct Hs0, Hs1; congruence).
Qed.

End Binding.

Section InputBinding.

Variable E : Env.

Lemma real_inputs_of_mem self w ri n :
  real_inputs_of E self w = Ok ri ->
  dict_mem n ri = true ->
  In n (map name (_input_desc self)) \/
  (training_mode (_codegen_flags self) = true /\
   In n (map fst (_torch_weights self))).
Proof.
  unfold real_inputs_of. intros Hri Hmem.
  destruct (training_mode (_codegen_flags self)) eqn:Htr.
  - pose proof (add_weight_descs_spec E (_torch_weights self)
                  (dict_of_items (map (fun desc => (name desc, desc))
                                      (_input_desc self))) w) as Hspec.
    destruct (add_weight_descs E _ _ w) as [[ri'|e] w']; simpl in Hri;
      [|discriminate].
    inversion Hri; subst ri'. destruct Hspec as [_ [H2 _]].
    destruct (H2 n Hmem) as [H|H]; [|auto].
    left. apply dict_mem_descs, H.
  - inversion Hri; subst ri. left. apply dict_mem_descs, Hmem.
Qed.

Lemma real_inputs_of_resolves self w ri n r :
  real_inputs_of E self w = Ok ri ->
  resolves E self w n r ->
  dict_get n ri = Some r.
Proof.
  unfold real_inputs_of, resolves. intros Hri Hres.
  destruct (training_mode (_codegen_flags self)) eqn:Htr.
  - pose proof (add_weight_descs_spec E (_torch_weights self)
                  (dict_of_items (map (fun desc => (name desc, desc))
                                      (_input_desc self))) w) as Hspec.
    destruct (add_weight_descs E _ _ w) as [[ri'|e] w']; simpl in Hri;
      [|discriminate].
    inversion Hri; subst ri'. destruct Hspec as [H1 [_ H3]].
    destruct Hres as [H|[_ [l [t [Hin [Ht Hd]]]]]]; eauto.
  - inversion Hri; subst ri.
    destruct Hres as [H|[Hf _]]; [exact H|discriminate].
Qed.

(** With every command succeeding, the build pipeline returns. *)
Lemma build_pipeline_ok self w :
  (forall d c, exit_ok E d c = true) ->
  exists w0,
    (if _build_nnf self
     then
       let flags_str := "-f " ++ _model_format self ++ " " in
       let flags_str :=
         flags_str ++ str_join " "
           (map (fun kv => "-f" ++ fst kv ++ "=" ++ py_str (snd kv))
                (_codegen_flags self)) in
       codegen E (_onnx_model_path self) flags_str (_workdir self) ;;;
       modify_nnfusion_rt E (rt_dir_of self) ;;;
       build E (rt_dir_of self)
     else ret tt) w = (Ok tt, w0) /\ same_store w w0.
Proof.
  intros Hexit. destruct (_build_nnf self).
  - unfold codegen, modify_nnfusion_rt, build, with_cd, execute, bind,
      get_world, emit, set_cwd, ret. simpl.
    repeat (rewrite Hexit; simpl).
    eexists. split; [reflexivity|]. split; reflexivity.
  - exists w. split; [reflexivity|]. split; reflexivity.
Qed.

(** When the session build reaches the input loop, what the loop raises
    is what the build raises. *)
Lemma create_executor_binding self w ex ri :
  str_contains "cuda" (_device self) = true ->
  (forall d c, exit_ok E d c = true) ->
  load_executor E (rt_dir_of self) = Ok ex ->
  real_inputs_of E self w = Ok ri ->
  exists w1,
    same_store w w1 /\
    _create_executor E self w
    = (inputs <- lift (bind_inputs ri (_torch_weights self)
                                   (get_inputs ex) []) ;;
       (if negb (truthy (dict_get_default "extern_result_memory" PyNone
                                          (_codegen_flags self)))
        then raise extern_result_memory_error
        else ret tt) ;;;
       outputs <- bind_outputs E (_codegen_flags self) ri
                    (real_outputs_of self) (_device self)
                    (get_outputs ex) [] ;;
       ret (set_outputs (set_inputs (set_executor self ex) inputs)
                        outputs)) w1.
Proof.
  intros Hcuda Hexit Hload Hri.
  unfold _create_executor. rewrite Hcuda.
  rewrite (bind_ok _ _ w _ w) by reflexivity.
  destruct (build_pipeline_ok self w Hexit) as [w0 [Hb Hs0]].
  fold (rt_dir_of self).
  rewrite (bind_ok _ _ w tt w0) by exact Hb.
  assert (Hnew : exists w1, Executor_new E (rt_dir_of self) w0 = (Ok ex, w1)
                            /\ same_store w0 w1).
  { unfold Executor_new, bind, emit, lift. simpl. rewrite Hload.
    eexists. split; [reflexivity|]. split; reflexivity. }
  destruct Hnew as [w1 [Hnew Hs1]].
  rewrite (bind_ok _ _ w0 ex w1) by exact Hnew.
  assert (Hw : forall items ri0 wa wb, tensors wa = tensors wb ->
             fst (add_weight_descs E items ri0 wa)
             = fst (add_weight_descs E items ri0 wb)).
  { clear. induction items as [|[n l] items IH]; intros ri0 wa wb Hab;
      simpl; [reflexivity|].
    unfold bind, lift, read_tensor. rewrite Hab.
    destruct (py_assert _ _); [|reflexivity].
    destruct (tensors wb !! l); [|reflexivity].
    destruct (tensor2desc E _ _); [|reflexivity].
    apply IH, Hab. }
  assert (Hri1 : (if training_mode (_codegen_flags (set_executor self ex))
                  then add_weight_descs E (_torch_weights (set_executor self ex))
                         (dict_of_items
                            (map (fun desc => (name desc, desc))
                                 (_input_desc (set_executor self ex))))
                  else ret (dict_of_items
                              (map (fun desc => (name desc, desc))
                                   (_input_desc (set_executor self ex))))) w1
                 = (Ok ri, w1)).
  { simpl. unfold real_inputs_of in Hri.
    destruct (training_mode (_codegen_flags self)).
    - pose proof (add_weight_descs_same E (_torch_weights self)
                    (dict_of_items (map (fun desc => (name desc, desc))
                                        (_input_desc self))) w1) as Hsame.
      rewrite (Hw _ _ w w1) in Hri
        by (destruct Hs0 as [Ha _], Hs1 as [Hb' _]; congruence).
      destruct (add_weight_descs E _ _ w1) as [r w2]. simpl in *. congruence.
    - unfold ret. congruence. }
  rewrite (bind_ok _ _ w1 ri w1) by exact Hri1.
  exists w1. split; [|reflexivity].
  etransitivity; [exact Hs0|exact Hs1].
Qed.

Lemma create_executor_input_error self w ex ri e :
  str_contains "cuda" (_device self) = true ->
  (forall d c, exit_ok E d c = true) ->
  load_executor E (rt_dir_of self) = Ok ex ->
  real_inputs_of E self w = Ok ri ->
  bind_inputs ri (_torch_weights self) (get_inputs ex) [] = Raise e ->
  exists w', _create_executor E self w = (Raise e, w').
Proof.
  intros Hcuda Hexit Hload Hri Hbind.
  destruct (create_executor_binding self w ex ri Hcuda Hexit Hload Hri)
    as [w1 [_ ->]].
  unfold lift at 1. unfold bind at 1. rewrite Hbind.
  eexists. reflexivity.
Qed.

(** With the inputs bound, a falsy [extern_result_memory] stops the
    construction with the configuration error, and no output buffer has
    been allocated. *)
Lemma create_executor_flag_error self w ex ri ins :
  str_contains "cuda" (_device self) = true ->
  (forall d c, exit_ok E d c = true) ->
  load_executor E (rt_dir_of self) = Ok ex ->
  real_inputs_of E self w = Ok ri ->
  bind_inputs ri (_torch_weights self) (get_inputs ex) [] = Ok ins ->
  truthy (dict_get_default "extern_result_memory" PyNone
                           (_codegen_flags self)) = false ->
  exists w', _create_executor E self w
             = (Raise extern_result_memory_error, w') /\
             same_store w w'.
Proof.
  intros Hcuda Hexit Hload Hri Hbind Hflag.
  destruct (create_executor_binding self w ex ri Hcuda Hexit Hload Hri)
    as [w1 [Hs ->]].
  unfold lift at 1. unfold bind at 1. rewrite Hbind, Hflag. simpl.
  exists w1. split; [reflexivity|exact Hs].
Qed.

End InputBinding.

(** C1: during session build every input the artifact declares must
    resolve in the caller's input contract or, in training mode, among
    the model weights, with exactly the artifact's shape and dtype.  A
    missing name and a shape or dtype mismatch both make the build
    raise; the input loop stops at the first offending entry with an
    AssertionError whose message carries that entry's name and, for a
    mismatch, the artifact's and the caller's values, and this is what
    the build raises once it reaches the loop; the loop accepts as soon
    as every artifact input is accepted, whatever else the caller
    declared. *)
Theorem create_executor_validates_inputs
    (E : Env) (self : PTSession) (w : World) (ex : Executor) :
  load_executor E (rt_dir_of self) = Ok ex ->
  (forall d, In d (get_inputs ex) ->
     ~ In (name d) (map name (_input_desc self)) ->
     ~ (training_mode (_codegen_flags self) = true /\
        In (name d) (map fst (_torch_weights self))) ->
     exists e w', _create_executor E self w = (Raise e, w'))
  /\ (forall d r, In d (get_inputs ex) ->
        resolves E self w (name d) r ->
        shape d <> shape r \/ dtype d <> dtype r ->
        exists e w', _create_executor E self w = (Raise e, w'))
  /\ (forall ri acc,
        match bind_inputs ri (_torch_weights self) (get_inputs ex) acc with
        | Ok _ => Forall (input_ok ri) (get_inputs ex)
        | Raise e =>
            exists pre d post,
              get_inputs ex = (pre ++ d :: post)%list /\
              Forall (input_ok ri) pre /\ input_error ri d e
        end)
  /\ (forall ri e,
        str_contains "cuda" (_device self) = true ->
        (forall d c, exit_ok E d c = true) ->
        real_inputs_of E self w = Ok ri ->
        bind_inputs ri (_torch_weights self) (get_inputs ex) [] = Raise e ->
        exists w', _create_executor E self w = (Raise e, w'))
  /\ (forall ri acc,
        Forall (input_ok ri) (get_inputs ex) ->
        exists b, bind_inputs ri (_torch_weights self) (get_inputs ex) acc
                  = Ok b).
Proof.
  intros Hload.
  assert (Hok : forall s' w', _create_executor E self w = (Ok s', w') ->
            exists ri, real_inputs_of E self w = Ok ri /\
                       Forall (input_ok ri) (get_inputs ex)).
  { intros s' w' Hrun. apply create_executor_inv in Hrun.
    destruct Hrun as [ex' [w1 [ri [ins [outs [_ [Hl [_ [Hri [Hb _]]]]]]]]]].
    assert (ex' = ex) by congruence. subst ex'.
    exists ri. split; [exact Hri|].
    pose proof (bind_inputs_spec ri (_torch_weights self) (get_inputs ex) [])
      as Hspec.
    rewrite Hb in Hspec. tauto. }
  split; [|split; [|split; [|split]]].
  - intros d Hin Hcaller Hweight.
    destruct (_create_executor E self w) as [[s'|e] w'] eqn:Hrun; [|eauto].
    exfalso. destruct (Hok _ _ eq_refl) as [ri [Hri Hall]].
    rewrite List.Forall_forall in Hall. destruct (Hall d Hin) as [r [Hget _]].
    assert (Hmem : dict_mem (name d) ri = true)
      by (apply dict_mem_true; eauto).
    destruct (real_inputs_of_mem E self w ri (name d) Hri Hmem); tauto.
  - intros d r Hin Hres Hneq.
    destruct (_create_executor E self w) as [[s'|e] w'] eqn:Hrun; [|eauto].
    exfalso. destruct (Hok _ _ eq_refl) as [ri [Hri Hall]].
    rewrite List.Forall_forall in Hall.
    destruct (Hall d Hin) as [r' [Hget [Hs Ht]]].
    rewrite (real_inputs_of_resolves E self w ri (name d) r Hri Hres) in Hget.
    inversion Hget; subst r'. tauto.
  - intros ri acc.
    pose proof (bind_inputs_spec ri (_torch_weights self) (get_inputs ex) acc)
      as Hspec.
    destruct (bind_inputs _ _ _ _); tauto.
  - intros ri e Hcuda Hexit Hri Hbind.
    eapply create_executor_input_error; eauto.
  - intros ri acc Hall.
    pose proof (bind_inputs_spec ri (_torch_weights self) (get_inputs ex) acc)
      as Hspec.
    destruct (bind_inputs _ _ _ _) as [b|e]; [eauto|].
    exfalso. destruct Hspec as [pre [d [post [Heq [_ Herr]]]]].
    apply input_error_not_ok in Herr. apply Herr.
    rewrite List.Forall_forall in Hall. apply Hall. rewrite Heq.
    apply in_or_app. right. left. reflexivity.
Qed.

(** The scenario of the extra [bias] input: not in training mode, the
    artifact asks for an input the caller never declared, while the
    caller's [mask] goes unused. *)
Example create_executor_bias_missing :
  fst (_create_executor (demo_env (demo_artifact [demo_x; demo_bias] [demo_y]))
         (demo_self [demo_x; demo_unused] [demo_y] demo_flags) demo_world)
  = Raise (AssertionError (msg_input_missing "bias")).
Proof. reflexivity. Qed.

Example create_executor_unused_input_accepted :
  exists s, fst (_create_executor (demo_env (demo_artifact [demo_x] [demo_y]))
                   (demo_self [demo_x; demo_unused] [demo_y] demo_flags)
                   demo_world) = Ok s.
Proof. eexists. reflexivity. Qed.

Lemma create_executor_validates_inputs_witness :
  load_executor (demo_env (demo_artifact [demo_x; demo_bias] [demo_y]))
                (rt_dir_of (demo_self [demo_x; demo_unused] [demo_y] demo_flags))
  = Ok (demo_artifact [demo_x; demo_bias] [demo_y]) /\
  exists e w',
    _create_executor (demo_env (demo_artifact [demo_x; demo_bias] [demo_y]))
      (demo_self [demo_x; demo_unused] [demo_y] demo_flags) demo_world
    = (Raise e, w').
Proof.
  split; [reflexivity|].
  destruct (create_executor_validates_inputs
              (demo_env (demo_artifact [demo_x; demo_bias] [demo_y]))
              (demo_self [demo_x; demo_unused] [demo_y] demo_flags)
              demo_world (demo_artifact [demo_x; demo_bias] [demo_y])
              eq_refl) as [Hmissing _].
  apply (Hmissing demo_bias).
  - simpl. auto.
  - simpl. intros [H|[H|[]]]; discriminate.
  - intros [H _]. discriminate.
Defined.

Section SessionBuild.

Variable E : Env.

(** What a construction that returns has gone through. *)
Lemma init_inv model input_desc device output_desc workdir model_format
    const_folding build_nnf codegen_flags w s w' :
  __init__ E model input_desc device output_desc workdir model_format
           const_folding build_nnf codegen_flags w = (Ok s, w') ->
  exists m od dctx wd path w1,
    model_format = "onnx" /\
    modules w !! model = Some m /\
    match output_desc with
    | Some o => od = o
    | None => exists wa, generate_output_desc E model input_desc device w
                         = (Ok od, wa)
    end /\
    grows w w1 /\
    _create_executor E
      {| _model := model; _model_format := model_format;
         _torch_weights :=
           dict_update (dict_of_items (named_parameters m))
                       (dict_of_items (named_buffers m));
         _input_desc := input_desc; _device := device; _output_desc := od;
         _model_desc := {| inputs := input_desc; outputs := od |};
         _dir_ctx := dctx; _workdir := wd;
         _const_folding := const_folding; _build_nnf := build_nnf;
         _onnx_model_path := path;
         _codegen_flags :=
           dict_update [("extern_result_memory", PyInt 1)]
                       (flags_or_empty codegen_flags);
         _executor := None; _inputs := []; _outputs := [] |} w1
    = (Ok s, w').
Proof.
  unfold __init__. intros H.
  apply bind_inv in H. destruct H as [[[] [w0 [H0 H]]]|[e [_ He]]];
    [|discriminate].
  destruct (String.eqb_spec model_format "onnx") as [Hfmt|Hfmt];
    simpl in H0; [|discriminate].
  inversion H0; subst w0. clear H0.
  apply bind_inv in H. destruct H as [[m [w0 [H0 H]]]|[e [_ He]]];
    [|discriminate].
  unfold read_module in H0.
  destruct (modules w !! model) as [m'|] eqn:Hm; [|discriminate].
  inversion H0; subst m' w0. clear H0.
  apply bind_inv in H. destruct H as [[od [w1 [H1 H]]]|[e [_ He]]];
    [|discriminate].
  assert (Hg1 : grows w w1).
  { eapply preserves_run; [|exact H1]. destruct output_desc; pres. }
  apply bind_inv in H. destruct H as [[dirs [w2 [H2 H]]]|[e [_ He]]];
    [|discriminate].
  assert (Hg2 : grows w1 w2).
  { eapply preserves_run; [|exact H2].
    destruct workdir as [[|c wd']|]; pres. }
  apply bind_inv in H. destruct H as [[path [w3 [H3 H]]]|[e [_ He]]];
    [|discriminate].
  assert (Hg3 : grows w2 w3).
  { eapply preserves_run; [|exact H3]. pres. }
  apply bind_inv in H. destruct H as [[[] [w4 [H4 H]]]|[e [_ He]]];
    [|discriminate].
  assert (Hg4 : grows w3 w4).
  { eapply preserves_run; [|exact H4]. pres. }
  apply bind_inv in H. destruct H as [[[] [w5 [H5 H]]]|[e [_ He]]];
    [|discriminate].
  destruct (training_mode _ && const_folding); [discriminate|].
  inversion H5; subst w5. clear H5.
  exists m, od, (fst dirs), (snd dirs), path, w4.
  split; [exact Hfmt|]. split; [reflexivity|]. split.
  { destruct output_desc as [o|].
    - inversion H1. reflexivity.
    - eauto. }
  split.
  { etransitivity; [exact Hg1|]. etransitivity; [exact Hg2|].
    etransitivity; [exact Hg3|exact Hg4]. }
  exact H.
Qed.

End SessionBuild.

(** ** Running the session *)

Section Run.

Variable E : Env.

Lemma for_each_feed_one feed s w :
  for_each feed_one feed (s, w)
  = (Ok tt, (set_inputs s (feed_inputs feed (_inputs s)), w)).
Proof.
  destruct s as [a1 a2 a3 a4 a5 a6 a7 a8 a9 a10 a11 a12 a13 a14 ins a16].
  unfold set_inputs. simpl. revert ins.
  induction feed as [|[n l] feed IH]; intros ins; simpl.
  - reflexivity.
  - unfold bind at 1. unfold feed_one, bind, get_self, put_self, ret. simpl.
    destruct (dict_mem n ins); simpl; apply IH.
Qed.

Lemma collect_outputs_spec (outs : dict DataFormat) descs
    (st : PTSession * World) :
  match map_M (fun desc =>
                 d <- lift (dict_getitem (name desc) outs) ;;
                 ret (reference d)) descs st with
  | (Ok ls, st') => st' = st /\ map Some ls = output_handles outs descs
  | (Raise e, st') =>
      st' = st /\ exists d, In d descs /\ dict_get (name d) outs = None /\
                            e = KeyError (name d)
  end.
Proof.
  induction descs as [|d descs IH]; simpl.
  - auto.
  - unfold bind at 1. unfold bind at 1. unfold lift, dict_getitem.
    destruct (dict_get (name d) outs) as [b|] eqn:Hb; simpl.
    + unfold bind at 1.
      destruct (map_M _ descs st) as [[ls|e] st'].
      * simpl. destruct IH as [-> IH]. split; [reflexivity|].
        rewrite IH. reflexivity.
      * destruct IH as [-> [d' [Hin [Hd He]]]]. split; [reflexivity|].
        exists d'. auto.
    + split; [reflexivity|]. exists d. auto.
Qed.

Lemma run_by_nnf_eq feed chk s w :
  run_by_nnf feed chk (s, w) =
  let s1 := set_inputs s (feed_inputs feed (_inputs s)) in
  match _executor s with
  | None => (Raise (AttributeError "_executor"), (s1, w))
  | Some ex =>
      match Executor_call ex (_inputs s1) (_outputs s) w with
      | (Raise e, w2) => (Raise e, (s1, w2))
      | (Ok _, w2) =>
          match (if chk then is_weights_nan s1 w2 else (Ok false, w2)) with
          | (Raise e, w3) => (Raise e, (s1, w3))
          | (Ok true, w3) =>
              (Raise (Exception [Lit "Nan found after execution"]), (s1, w3))
          | (Ok false, w3) =>
              map_M (fun desc =>
                       d <- lift (dict_getitem (name desc) (_outputs s)) ;;
                       ret (reference d))
                    (_output_desc s) (s1, w3)
          end
      end
  end.
Proof.
  unfold run_by_nnf. unfold bind at 1. rewrite for_each_feed_one.
  unfold bind at 1. unfold get_self at 1. simpl.
  unfold bind at 1.
  destruct s as [a1 a2 a3 a4 a5 a6 a7 a8 a9 a10 a11 a12 a13 ex ins outs].
  simpl. destruct ex as [ex|]; simpl; [|reflexivity].
  unfold bind at 1. unfold on_world at 1. simpl.
  destruct (Executor_call ex _ outs w) as [[[]|e] w2]; [|reflexivity].
  unfold bind at 1.
  destruct chk.
  - unfold on_world. simpl.
    destruct (is_weights_nan _ w2) as [[[|]|e] w3]; reflexivity.
  - reflexivity.
Qed.

Lemma Executor_call_spec ex ins outs w :
  match Executor_call ex ins outs w with
  | (Ok _, w2) =>
      exists writes, kernel ex ins outs (tensors w) = Ok writes /\
                     tensors w2 = apply_writes writes (tensors w) /\
                     modules w2 = modules w /\
                     trace w2 = (trace w ++ [EvInvoke])%list
  | (Raise e, w2) =>
      kernel ex ins outs (tensors w) = Raise e /\
      tensors w2 = tensors w /\ modules w2 = modules w /\
      trace w2 = (trace w ++ [EvInvoke])%list
  end.
Proof.
  unfold Executor_call, bind, emit, get_world, lift, set_tensors. simpl.
  destruct (kernel ex ins outs (tensors w)) as [writes|e]; simpl.
  - exists writes. auto.
  - auto.
Qed.

Lemma apply_writes_length writes ts :
  length (apply_writes writes ts) = length ts.
Proof.
  revert ts. induction writes as [|[l t] writes IH]; intros ts; simpl.
  - reflexivity.
  - rewrite IH. apply length_insert.
Qed.

Lemma weights_nan_loop_spec items acc w :
  Forall (fun kv => is_Some (tensors w !! snd kv)) items ->
  exists w',
    weights_nan_loop items acc w
    = (Ok (acc || existsb (offending (tensors w)) items), w') /\
    same_store w w' /\
    trace w' = (trace w ++ map nan_log
                                (List.filter (offending (tensors w)) items))%list.
Proof.
  revert acc w. induction items as [|[n l] items IH]; intros acc w Hall; simpl.
  - exists w. rewrite orb_false_r, app_nil_r.
    split; [reflexivity|]. split; [split|]; reflexivity.
  - inversion Hall as [|kv items' [t Ht] Hrest]; subst. simpl in Ht.
    unfold bind at 1. unfold read_tensor. rewrite Ht.
    unfold offending at 1 3. simpl. rewrite Ht.
    destruct (torch.any_isnan t || torch.any_isinf t) eqn:Hbad; simpl.
    + unfold bind at 1. simpl.
      set (w1 := {| tensors := tensors w; modules := modules w; cwd := cwd w;
                    rng_pos := rng_pos w;
                    trace := (trace w ++ [EvLogError [Lit "Nan or inf found in ";
                                                      FStr n]])%list |}).
      destruct (IH true w1 Hrest) as [w' [Hrun [[Hs1 Hs2] Htr]]].
      exists w'. rewrite Hrun. simpl. rewrite orb_true_r.
      split; [reflexivity|]. split; [split; assumption|].
      rewrite Htr. simpl. rewrite <- app_assoc. reflexivity.
    + destruct (IH acc w Hrest) as [w' [Hrun [Hs Htr]]].
      exists w'. rewrite Hrun. auto.
Qed.

Lemma bind_outputs_alloc flags ri ro dev ds acc w outs w' :
  bind_outputs E flags ri ro dev ds acc w = (Ok outs, w') ->
  forall n b, dict_get n outs = Some b ->
              dict_get n acc = Some b \/
              (length (tensors w) <= reference b < length (tensors w'))%nat.
Proof.
  revert acc w. induction ds as [|d ds IH]; intros acc w H n b Hn; simpl in H.
  - inversion H; subst. auto.
  - apply bind_inv in H. destruct H as [[[] [w0 [H0 H]]]|[e [_ He]]];
      [|discriminate].
    unfold lift in H0. inversion H0; subst w0. clear H0.
    apply bind_inv in H. destruct H as [[ty [w0 [H0 H]]]|[e [_ He]]];
      [|discriminate].
    unfold lift in H0. inversion H0; subst w0. clear H0.
    apply bind_inv in H. destruct H as [[size [w0 [H0 H]]]|[e [_ He]]];
      [|discriminate].
    unfold lift in H0. inversion H0; subst w0. clear H0.
    apply bind_inv in H. destruct H as [[t [w0 [H0 H]]]|[e [_ He]]];
      [|discriminate].
    unfold lift in H0. inversion H0; subst w0. clear H0.
    apply bind_inv in H. destruct H as [[l [w0 [H0 H]]]|[e [_ He]]];
      [|discriminate].
    unfold alloc_tensor, bind, get_world, set_tensors, ret in H0.
    simpl in H0. inversion H0; subst l w0. clear H0.
    assert (Hg : grows
                   {| tensors := (tensors w ++ [t])%list; modules := modules w;
                      cwd := cwd w; rng_pos := rng_pos w; trace := trace w |}
                   w').
    { eapply preserves_run; [|exact H]. pres. }
    destruct Hg as [Hg _]. simpl in Hg. rewrite length_app in Hg. simpl in Hg.
    destruct (IH _ _ H n b Hn) as [Hacc|Hrange].
    + rewrite dict_get_set in Hacc.
      destruct (String.eqb n (name d)); [|auto].
      inversion Hacc; subst b. simpl. right. lia.
    + simpl in Hrange. rewrite length_app in Hrange. simpl in Hrange.
      right. lia.
Qed.

End Run.

Lemma is_weights_nan_same_store s : preserves same_store (is_weights_nan s).
Proof.
  unfold is_weights_nan. generalize false.
  induction (_torch_weights s) as [|[n l] items IH]; intros acc; simpl; pres.
Qed.

(** What a run that returns has gone through. *)
Lemma run_by_nnf_ok_inv feed chk s w outs s' w' :
  run_by_nnf feed chk (s, w) = (Ok outs, (s', w')) ->
  s' = set_inputs s (feed_inputs feed (_inputs s)) /\
  map Some outs = output_handles (_outputs s) (_output_desc s) /\
  exists ex writes,
    _executor s = Some ex /\
    kernel ex (feed_inputs feed (_inputs s)) (_outputs s) (tensors w)
    = Ok writes /\
    tensors w' = apply_writes writes (tensors w).
Proof.
  rewrite run_by_nnf_eq. cbv zeta.
  destruct (_executor s) as [ex|]; [|discriminate].
  pose proof (Executor_call_spec ex
                (_inputs (set_inputs s (feed_inputs feed (_inputs s))))
                (_outputs s) w) as Hcall.
  destruct (Executor_call ex _ (_outputs s) w) as [[[]|e] w2]; [|discriminate].
  destruct Hcall as [writes [Hk [Ht _]]].
  assert (Hscan : forall r w3,
             (if chk
              then is_weights_nan
                     (set_inputs s (feed_inputs feed (_inputs s))) w2
              else (Ok false, w2)) = (r, w3) -> tensors w3 = tensors w2).
  { intros r w3 Hr. destruct chk.
    - pose proof (is_weights_nan_same_store
                    (set_inputs s (feed_inputs feed (_inputs s))) w2) as Hp.
      rewrite Hr in Hp. destruct Hp as [Hp _]. exact Hp.
    - inversion Hr. reflexivity. }
  destruct (if chk then _ else _) as [[[|]|e] w3] eqn:Hchk; try discriminate.
  specialize (Hscan _ _ eq_refl).
  pose proof (collect_outputs_spec (_outputs s) (_output_desc s)
                (set_inputs s (feed_inputs feed (_inputs s)), w3)) as Hcol.
  intros Hrun. rewrite Hrun in Hcol. destruct Hcol as [Hst Hh].
  inversion Hst; subst. split; [reflexivity|]. split; [exact Hh|].
  exists ex, writes. destruct s; simpl in *.
  split; [reflexivity|]. split; [exact Hk|]. congruence.
Qed.

Lemma map_Some_inj {A} (l1 l2 : list A) : map Some l1 = map Some l2 -> l1 = l2.
Proof.
  revert l2. induction l1 as [|x l1 IH]; intros [|y l2] H; simpl in H;
    try discriminate; [reflexivity|].
  inversion H. f_equal. auto.
Qed.

Lemma bind_outputs_keys E flags ri ro dev ds acc w outs w' :
  bind_outputs E flags ri ro dev ds acc w = (Ok outs, w') ->
  forall n, In n (map name ds) -> dict_mem n outs = true.
Proof.
  assert (Hkeep : forall ds acc w outs w',
             bind_outputs E flags ri ro dev ds acc w = (Ok outs, w') ->
             forall n, dict_mem n acc = true -> dict_mem n outs = true).
  { clear. induction ds as [|d ds IH]; intros acc w outs w' H n Hn;
      simpl in H.
    - inversion H; subst. exact Hn.
    - repeat (apply bind_inv in H;
              destruct H as [[? [? [_ H]]]|[e [_ He]]]; [|discriminate]).
      eapply IH; [exact H|]. rewrite dict_mem_set, Hn. apply orb_true_r. }
  revert acc w. induction ds as [|d ds IH]; intros acc w H n Hn; simpl in *.
  - destruct Hn.
  - repeat (apply bind_inv in H;
            destruct H as [[? [? [_ H]]]|[e [_ He]]]; [|discriminate]).
    destruct Hn as [Hn|Hn].
    + subst n. eapply Hkeep; [exact H|]. rewrite dict_mem_set.
      rewrite String.eqb_refl. reflexivity.
    + eapply IH; eauto.
Qed.

(** A run returns when the artifact does, the NaN policy is off and
    every declared output is in the output table. *)
Lemma run_by_nnf_returns feed s w ex writes :
  _executor s = Some ex ->
  kernel ex (feed_inputs feed (_inputs s)) (_outputs s) (tensors w)
  = Ok writes ->
  Forall (fun d => dict_mem (name d) (_outputs s) = true) (_output_desc s) ->
  exists outs s' w', run_by_nnf feed false (s, w) = (Ok outs, (s', w')).
Proof.
  intros Hex Hk Hall. rewrite run_by_nnf_eq. cbv zeta. rewrite Hex.
  pose proof (Executor_call_spec ex
                (_inputs (set_inputs s (feed_inputs feed (_inputs s))))
                (_outputs s) w) as Hcall.
  assert (Hfed : _inputs (set_inputs s (feed_inputs feed (_inputs s)))
                 = feed_inputs feed (_inputs s)) by reflexivity.
  rewrite Hfed in Hcall.
  destruct (Executor_call ex _ (_outputs s) w) as [[[]|e] w2].
  - pose proof (collect_outputs_spec (_outputs s) (_output_desc s)
                  (set_inputs s (feed_inputs feed (_inputs s)), w2)) as Hcol.
    destruct (map_M _ (_output_desc s) _) as [[outs|e] [s' w']].
    + eauto.
    + exfalso. destruct Hcol as [_ [d [Hin [Hnone _]]]].
      rewrite List.Forall_forall in Hall. specialize (Hall d Hin).
      apply dict_mem_true in Hall. destruct Hall as [b Hb]. congruence.
  - destruct Hcall as [Hk' _]. congruence.
Qed.

(** C4: the output buffers a run returns are, in the declared order of
    the caller's outputs, the tensor objects the session build allocated:
    objects that did not exist before the build and do after it.  Two
    runs of the session, whatever is fed, whatever the policy and
    whatever happens to the store in between, return the same objects; a
    run allocates no tensor and leaves the output table of the session
    as it was.  A run returns when the artifact does, provided the
    artifact declares every output of the caller. *)
Theorem run_is_buffer_stable
    (E : Env) model input_desc device output_desc workdir model_format
    const_folding build_nnf codegen_flags (w0 : World) (s : PTSession)
    (w : World) :
  __init__ E model input_desc device output_desc workdir model_format
           const_folding build_nnf codegen_flags w0 = (Ok s, w) ->
  (forall o, output_desc = Some o -> _output_desc s = o)
  /\ (forall feed chk wa outs s1 w1,
        run_by_nnf feed chk (s, wa) = (Ok outs, (s1, w1)) ->
        map Some outs = output_handles (_outputs s) (_output_desc s) /\
        Forall (fun l => (length (tensors w0) <= l < length (tensors w))%nat)
               outs /\
        _outputs s1 = _outputs s /\
        _output_desc s1 = _output_desc s /\
        length (tensors w1) = length (tensors wa))
  /\ (forall feed1 chk1 wa outs1 s1 w1 feed2 chk2 wb outs2 s2 w2,
        run_by_nnf feed1 chk1 (s, wa) = (Ok outs1, (s1, w1)) ->
        run_by_nnf feed2 chk2 (s1, wb) = (Ok outs2, (s2, w2)) ->
        outs1 = outs2)
  /\ (forall feed wa ex writes,
        _executor s = Some ex ->
        kernel ex (feed_inputs feed (_inputs s)) (_outputs s) (tensors wa)
        = Ok writes ->
        Forall (fun d => In (name d) (map name (get_outputs ex)))
               (_output_desc s) ->
        exists outs s1 w1,
          run_by_nnf feed false (s, wa) = (Ok outs, (s1, w1))).
Proof.
  intros Hinit.
  apply init_inv in Hinit.
  destruct Hinit as [m [od [dctx [wd [path [wi [_ [_ [Hod [Hg Hrun]]]]]]]]]].
  apply create_executor_inv in Hrun.
  destruct Hrun as [ex [wb [ri [ins [outs [_ [_ [Hsame [_ [_ [_ [Hb Hs]]]]]]]]]]]].
  simpl in Hb.
  assert (Hone : forall feed chk wa outs1 s1 w1,
             run_by_nnf feed chk (s, wa) = (Ok outs1, (s1, w1)) ->
             map Some outs1 = output_handles (_outputs s) (_output_desc s) /\
             Forall (fun l => (length (tensors w0) <= l
                               < length (tensors w))%nat) outs1 /\
             _outputs s1 = _outputs s /\
             _output_desc s1 = _output_desc s /\
             length (tensors w1) = length (tensors wa)).
  { intros feed chk wa outs1 s1 w1 Hrun1.
    apply run_by_nnf_ok_inv in Hrun1.
    destruct Hrun1 as [Hs1 [Hh1 [ex1 [wr1 [_ [_ Ht1]]]]]].
    split; [exact Hh1|]. split.
    { apply List.Forall_forall. intros l Hl.
      assert (Hin : In (Some l)
                       (output_handles (_outputs s) (_output_desc s))).
      { rewrite <- Hh1. apply in_map, Hl. }
      unfold output_handles in Hin. apply in_map_iff in Hin.
      destruct Hin as [d [Hd _]].
      destruct (dict_get (name d) (_outputs s)) as [b|] eqn:Hget;
        [|discriminate].
      simpl in Hd. inversion Hd; subst l.
      rewrite Hs in Hget. simpl in Hget.
      destruct (bind_outputs_alloc E _ _ _ _ _ _ _ _ _ Hb _ _ Hget)
        as [Hacc|Hrange]; [discriminate|].
      destruct Hg as [Hg _]. destruct Hsame as [Hsame _].
      rewrite Hsame in Hrange. lia. }
    split; [rewrite Hs1; reflexivity|].
    split; [rewrite Hs1; reflexivity|].
    rewrite Ht1. apply apply_writes_length. }
  split; [|split; [exact Hone|split]].
  - intros o Ho. subst output_desc s. simpl. exact Hod.
  - intros feed1 chk1 wa outs1 s1 w1 feed2 chk2 wc outs2 s2 w2 Hrun1 Hrun2.
    destruct (Hone _ _ _ _ _ _ Hrun1) as [Hh1 [_ [Ho1 [Hd1 _]]]].
    apply run_by_nnf_ok_inv in Hrun2. destruct Hrun2 as [_ [Hh2 _]].
    rewrite Ho1, Hd1 in Hh2. apply map_Some_inj. congruence.
  - intros feed wa ex' writes Hex Hk Hdecl.
    eapply run_by_nnf_returns; [exact Hex|exact Hk|].
    assert (ex' = ex) by (rewrite Hs in Hex; simpl in Hex; congruence).
    subst ex'.
    eapply List.Forall_impl; [|exact Hdecl]. simpl. intros d Hd.
    rewrite Hs. simpl. eapply bind_outputs_keys; eauto.
Qed.

Lemma run_is_buffer_stable_witness :
  __init__ (demo_env (demo_artifact [demo_x; demo_w] [demo_y]))
           0%nat [demo_x; demo_w; demo_unused] "cuda:0" (Some [demo_y])
           None "onnx" false true None demo_world
  = (Ok demo_session, snd demo_build) /\
  run_by_nnf [("x", 2%nat)] false (demo_session, snd demo_build)
  = (Ok [7%nat], (fst (snd demo_run1), snd (snd demo_run1))) /\
  run_by_nnf [("x", 3%nat)] false (fst (snd demo_run1), snd (snd demo_run1))
  = (Ok [7%nat], (fst (snd demo_run2), snd (snd demo_run2))) /\
  [7%nat] = [7%nat] /\
  Forall (fun l => (length (tensors demo_world) <= l
                    < length (tensors (snd demo_build)))%nat) [7%nat].
Proof.
  assert (H0 : __init__ (demo_env (demo_artifact [demo_x; demo_w] [demo_y]))
                 0%nat [demo_x; demo_w; demo_unused] "cuda:0" (Some [demo_y])
                 None "onnx" false true None demo_world
               = (Ok demo_session, snd demo_build))
    by (vm_compute; reflexivity).
  assert (H1 : run_by_nnf [("x", 2%nat)] false (demo_session, snd demo_build)
               = (Ok [7%nat], (fst (snd demo_run1), snd (snd demo_run1))))
    by (vm_compute; reflexivity).
  assert (H2 : run_by_nnf [("x", 3%nat)] false
                 (fst (snd demo_run1), snd (snd demo_run1))
               = (Ok [7%nat], (fst (snd demo_run2), snd (snd demo_run2))))
    by (vm_compute; reflexivity).
  destruct (run_is_buffer_stable _ _ _ _ _ _ _ _ _ _ _ _ _ H0)
    as [_ [Hone [Htwo _]]].
  destruct (Hone _ _ _ _ _ _ H1) as [_ [Hall _]].
  exact (conj H0 (conj H1 (conj H2 (conj (Htwo _ _ _ _ _ _ _ _ _ _ _ _ H1 H2)
                                         Hall)))).
Defined.

(** The scenario of the artifact [y = x]: the object returned by both
    runs holds the first feed after the first run and the second feed
    after the second. *)
Example run_rewrites_the_output_buffer :
  tensors (snd (snd demo_run1)) !! 7%nat = tensors demo_world !! 2%nat /\
  tensors (snd (snd demo_run2)) !! 7%nat = tensors demo_world !! 3%nat.
Proof. split; vm_compute; reflexivity. Qed.

Lemma offending_iff ts (ws : dict loc) :
  existsb (offending ts) ws = true <->
  exists n l t x, In (n, l) ws /\ ts !! l = Some t /\ In x (torch.data t) /\
                  (torch.scalar_isnan x = true \/ torch.scalar_isinf x = true).
Proof.
  rewrite existsb_exists. split.
  - intros [[n l] [Hin Hoff]]. unfold offending in Hoff. simpl in Hoff.
    destruct (ts !! l) as [t|] eqn:Ht; [|discriminate].
    apply orb_true_iff in Hoff. unfold torch.any_isnan, torch.any_isinf in Hoff.
    rewrite !existsb_exists in Hoff.
    destruct Hoff as [[x [Hx Hnan]]|[x [Hx Hinf]]]; exists n, l, t, x; auto.
  - intros [n [l [t [x [Hin [Ht [Hx Hbad]]]]]]]. exists (n, l).
    split; [exact Hin|]. unfold offending. simpl. rewrite Ht.
    apply orb_true_iff. unfold torch.any_isnan, torch.any_isinf.
    rewrite !existsb_exists. destruct Hbad; [left|right]; eauto.
Qed.

(** C9: the scan reads every weight buffer, logs one line for each
    weight that holds a NaN or an infinity, in order and without
    stopping at the first, and returns true exactly when there is one.
    With [check_nan] set, [run_by_nnf] runs the scan on the store the
    artifact has left: when a weight is then offending the run raises
    "Nan found after execution", the invocation is in the trace before
    the log lines, and the store (the output buffers with it) is the one
    the artifact has written. *)
Theorem nan_scan_after_invocation (s : PTSession) (w : World) :
  (Forall (fun kv => is_Some (tensors w !! snd kv)) (_torch_weights s) ->
   exists w',
     is_weights_nan s w
     = (Ok (existsb (offending (tensors w)) (_torch_weights s)), w') /\
     same_store w w' /\
     trace w' = (trace w ++ map nan_log
                              (List.filter (offending (tensors w))
                                           (_torch_weights s)))%list)
  /\ (existsb (offending (tensors w)) (_torch_weights s) = true <->
      exists n l t x,
        In (n, l) (_torch_weights s) /\ tensors w !! l = Some t /\
        In x (torch.data t) /\
        (torch.scalar_isnan x = true \/ torch.scalar_isinf x = true))
  /\ (forall feed ex writes,
        _executor s = Some ex ->
        kernel ex (feed_inputs feed (_inputs s)) (_outputs s) (tensors w)
        = Ok writes ->
        Forall (fun kv => is_Some (apply_writes writes (tensors w) !! snd kv))
               (_torch_weights s) ->
        existsb (offending (apply_writes writes (tensors w)))
                (_torch_weights s) = true ->
        exists s' w',
          run_by_nnf feed true (s, w)
          = (Raise (Exception [Lit "Nan found after execution"]), (s', w')) /\
          tensors w' = apply_writes writes (tensors w) /\
          trace w' = (trace w ++ EvInvoke ::
                        map nan_log
                          (List.filter
                             (offending (apply_writes writes (tensors w)))
                             (_torch_weights s)))%list)
  /\ (forall feed chk ex e,
        _executor s = Some ex ->
        kernel ex (feed_inputs feed (_inputs s)) (_outputs s) (tensors w)
        = Raise e ->
        exists s' w',
          run_by_nnf feed chk (s, w) = (Raise e, (s', w')) /\
          tensors w' = tensors w /\
          trace w' = (trace w ++ [EvInvoke])%list).
Proof.
  split; [|split; [|split]].
  - intros Hall. unfold is_weights_nan.
    destruct (weights_nan_loop_spec (_torch_weights s) false w Hall)
      as [w' [Hrun [Hs Htr]]].
    exists w'. simpl in Hrun. auto.
  - apply offending_iff.
  - intros feed ex writes Hex Hk Hall Hbad.
    rewrite run_by_nnf_eq. cbv zeta. rewrite Hex.
    pose proof (Executor_call_spec ex
                  (_inputs (set_inputs s (feed_inputs feed (_inputs s))))
                  (_outputs s) w) as Hcall.
    destruct (Executor_call ex _ (_outputs s) w) as [[[]|e] w2].
    + destruct Hcall as [writes' [Hk' [Ht [_ Htr]]]].
      assert (Hfed : _inputs (set_inputs s (feed_inputs feed (_inputs s)))
                     = feed_inputs feed (_inputs s)) by reflexivity.
      rewrite Hfed in Hk'. rewrite Hk in Hk'. inversion Hk'; subst writes'.
      assert (Hws : _torch_weights (set_inputs s (feed_inputs feed (_inputs s)))
                    = _torch_weights s) by reflexivity.
      unfold is_weights_nan. rewrite Hws.
      rewrite <- Ht in Hall, Hbad.
      destruct (weights_nan_loop_spec (_torch_weights s) false w2 Hall)
        as [w3 [Hrun [[Hs _] Htr3]]].
      rewrite Hrun. simpl. rewrite Hbad.
      eexists. exists w3. split; [reflexivity|].
      split; [congruence|]. rewrite Htr3, Htr, <- Ht, <- app_assoc. reflexivity.
    + destruct Hcall as [Hk' _].
      assert (Hfed : _inputs (set_inputs s (feed_inputs feed (_inputs s)))
                     = feed_inputs feed (_inputs s)) by reflexivity.
      rewrite Hfed in Hk'. congruence.
  - intros feed chk ex e Hex Hk.
    rewrite run_by_nnf_eq. cbv zeta. rewrite Hex.
    pose proof (Executor_call_spec ex
                  (_inputs (set_inputs s (feed_inputs feed (_inputs s))))
                  (_outputs s) w) as Hcall.
    assert (Hfed : _inputs (set_inputs s (feed_inputs feed (_inputs s)))
                   = feed_inputs feed (_inputs s)) by reflexivity.
    rewrite Hfed in Hcall.
    destruct (Executor_call ex _ (_outputs s) w) as [[[]|e'] w2].
    + destruct Hcall as [writes [Hk' _]]. congruence.
    + destruct Hcall as [Hk' [Ht [_ Htr]]].
      assert (e' = e) by congruence. subst e'.
      eexists. exists w2. split; [reflexivity|]. auto.
Qed.

Lemma nan_scan_after_invocation_witness :
  _executor demo_nan_session
  = Some (demo_nan_artifact [demo_x; demo_w] [demo_y]) /\
  kernel (demo_nan_artifact [demo_x; demo_w] [demo_y])
         (feed_inputs [("x", 2%nat)] (_inputs demo_nan_session))
         (_outputs demo_nan_session) (tensors (snd demo_nan_build))
  = Ok demo_nan_writes /\
  existsb (offending (apply_writes demo_nan_writes
                                   (tensors (snd demo_nan_build))))
          (_torch_weights demo_nan_session) = true /\
  exists s' w',
    run_by_nnf [("x", 2%nat)] true (demo_nan_session, snd demo_nan_build)
    = (Raise (Exception [Lit "Nan found after execution"]), (s', w')) /\
    tensors w' = apply_writes demo_nan_writes (tensors (snd demo_nan_build)) /\
    trace w' = (trace (snd demo_nan_build) ++ EvInvoke ::
                  map nan_log
                    (List.filter
                       (offending (apply_writes demo_nan_writes
                                     (tensors (snd demo_nan_build))))
                       (_torch_weights demo_nan_session)))%list.
Proof.
  assert (H1 : _executor demo_nan_session
               = Some (demo_nan_artifact [demo_x; demo_w] [demo_y]))
    by (vm_compute; reflexivity).
  assert (H2 : kernel (demo_nan_artifact [demo_x; demo_w] [demo_y])
                 (feed_inputs [("x", 2%nat)] (_inputs demo_nan_session))
                 (_outputs demo_nan_session) (tensors (snd demo_nan_build))
               = Ok demo_nan_writes)
    by (vm_compute; reflexivity).
  assert (H3 : Forall (fun kv => is_Some (apply_writes demo_nan_writes
                                            (tensors (snd demo_nan_build))
                                          !! snd kv))
                      (_torch_weights demo_nan_session)).
  { vm_compute. repeat (constructor; [eexists; reflexivity|]). constructor. }
  assert (H4 : existsb (offending (apply_writes demo_nan_writes
                                     (tensors (snd demo_nan_build))))
                       (_torch_weights demo_nan_session) = true)
    by (vm_compute; reflexivity).
  destruct (nan_scan_after_invocation demo_nan_session (snd demo_nan_build))
    as [_ [_ [Hrun _]]].
  exact (conj H1 (conj H2 (conj H4
           (Hrun [("x", 2%nat)] (demo_nan_artifact [demo_x; demo_w] [demo_y])
                 demo_nan_writes H1 H2 H3 H4)))).
Defined.

Example nan_scan_logs_the_weight :
  trace (snd (snd (run_by_nnf [("x", 2%nat)] true
                                (demo_nan_session, snd demo_nan_build))))
  = (trace (snd demo_nan_build)
     ++ [EvInvoke; EvLogError [Lit "Nan or inf found in "; FStr "w"]])%list.
Proof. vm_compute. reflexivity. Qed.

(** ** Configuration checks *)

(** C2, as stated, fails on the code: with no [extern_result_memory]
    among the caller's flags the construction succeeds, and with a
    falsy one it fails only after the export, the code generation and
    the build have run. *)
Lemma extern_result_memory_counterexample :
  fst demo_build = Ok demo_session /\
  dict_get "extern_result_memory" (flags_or_empty None) = None /\
  fst demo_falsy_build = Raise extern_result_memory_error /\
  existsb is_process_event (trace (snd demo_falsy_build)) = true /\
  In (EvExecute "/tmp/nnf_0/nnfusion_rt/cuda_codegen" (Shell "make -j"))
     (trace (snd demo_falsy_build)).
Proof.
  split; [vm_compute; reflexivity|].
  split; [reflexivity|].
  split; [vm_compute; reflexivity|].
  split; [vm_compute; reflexivity|].
  vm_compute. repeat (first [left; reflexivity | right]).
Qed.

Section Configuration.

Variable E : Env.

Lemma create_executor_no_build_events self :
  _build_nnf self = false ->
  preserves (events (fun ev => is_process_event ev = false))
            (_create_executor E self).
Proof.
  intros Hb. unfold _create_executor. rewrite Hb.
  assert (Hnew : forall d,
             preserves (events (fun ev => is_process_event ev = false))
                       (Executor_new E d)).
  { intros d. apply Executor_new_events. reflexivity. }
  pres.
Qed.

Lemma perform_spec ev w :
  perform E ev w
  = (match action_error E ev with
     | Some e => Raise e
     | None => Ok tt
     end, snd (emit ev w)).
Proof.
  unfold perform, bind. simpl. destruct (action_error E ev); reflexivity.
Qed.

Lemma perform_ok ev w w' :
  perform E ev w = (Ok tt, w') -> w' = snd (emit ev w).
Proof.
  rewrite perform_spec. destruct (action_error E ev); intros H; inversion H.
  reflexivity.
Qed.

(** The step of [__init__] that makes the work directory. *)
Lemma workdir_step workdir w :
  match workdir with
  | Some (String c wd) =>
      perform E (EvMakedirs (expand_path E (String c wd))) ;;;
      ret (None, expand_path E (String c wd))
  | _ =>
      perform E (EvTemporaryDirectory (mkdtemp E "nnf_")) ;;;
      ret (Some (mkdtemp E "nnf_"), mkdtemp E "nnf_")
  end w
  = (match action_error E (workdir_event E workdir) with
     | Some e => Raise e
     | None => Ok (match workdir with
                   | Some (String c wd) => None
                   | _ => Some (mkdtemp E "nnf_")
                   end, workdir_of E workdir)
     end, snd (emit (workdir_event E workdir) w)).
Proof.
  destruct workdir as [[|c wd]|]; unfold bind; rewrite perform_spec;
    simpl; destruct (action_error E _); reflexivity.
Qed.

Lemma init_no_process_events model input_desc device output_desc workdir
    model_format const_folding codegen_flags :
  preserves (events (fun ev => is_process_event ev = false))
            (__init__ E model input_desc device output_desc workdir
                      model_format const_folding false codegen_flags).
Proof.
  unfold __init__.
  assert (Hc : forall self, _build_nnf self = false ->
             preserves (events (fun ev => is_process_event ev = false))
                       (_create_executor E self))
    by apply create_executor_no_build_events.
  pres; apply perform_events; reflexivity.
Qed.

End Configuration.

(** C2, amended: a flag that the caller leaves out takes the default 1;
    a falsy one makes the construction raise, always, and when
    [build_nnf] is off nothing is exported and no command is run before
    it does. *)
Theorem extern_result_memory_is_mandatory
    (E : Env) model input_desc device output_desc workdir model_format
    const_folding build_nnf codegen_flags (w : World) :
  (dict_get "extern_result_memory" (flags_or_empty codegen_flags) = None ->
   dict_get "extern_result_memory" (merged_flags codegen_flags)
   = Some (PyInt 1))
  /\ (truthy (dict_get_default "extern_result_memory" PyNone
                               (merged_flags codegen_flags)) = false ->
      exists e w',
        __init__ E model input_desc device output_desc workdir model_format
                 const_folding build_nnf codegen_flags w = (Raise e, w') /\
        (build_nnf = false ->
         events (fun ev => is_process_event ev = false) w w')).
Proof.
  split.
  - intros Habsent. unfold merged_flags.
    rewrite dict_get_update_None by exact Habsent. reflexivity.
  - intros Hfalsy.
    destruct (__init__ E model input_desc device output_desc workdir
                       model_format const_folding build_nnf codegen_flags w)
      as [[s|e] w'] eqn:Hrun.
    + exfalso. apply init_inv in Hrun.
      destruct Hrun as [m [od [dctx [wd [path [w1 [_ [_ [_ [_ Hrun]]]]]]]]]].
      apply create_executor_inv in Hrun.
      destruct Hrun as [ex [w2 [ri [ins [outs [_ [_ [_ [_ [_ [Hflag _]]]]]]]]]]].
      simpl in Hflag. unfold merged_flags in Hfalsy. congruence.
    + exists e, w'. split; [reflexivity|]. intros ->.
      eapply preserves_run; [|exact Hrun]. apply init_no_process_events.
Qed.

Lemma extern_result_memory_is_mandatory_witness :
  truthy (dict_get_default "extern_result_memory" PyNone
            (merged_flags (Some [("extern_result_memory", PyInt 0)]))) = false
  /\ exists e w',
       __init__ (demo_env (demo_artifact [demo_x; demo_w] [demo_y]))
                0%nat [demo_x; demo_w; demo_unused] "cuda:0" (Some [demo_y])
                None "onnx" false false
                (Some [("extern_result_memory", PyInt 0)]) demo_world
       = (Raise e, w') /\
       (false = false ->
        events (fun ev => is_process_event ev = false) demo_world w').
Proof.
  split; [reflexivity|].
  apply (proj2 (extern_result_memory_is_mandatory
                  (demo_env (demo_artifact [demo_x; demo_w] [demo_y]))
                  0%nat [demo_x; demo_w; demo_unused] "cuda:0"
                  (Some [demo_y]) None "onnx" false false
                  (Some [("extern_result_memory", PyInt 0)]) demo_world)).
  reflexivity.
Defined.

(** C3, as stated, fails on the code: with training mode and constant
    folding both set and [build_nnf] on, the construction does raise the
    incompatibility error, but the export has been run by then. *)
Lemma training_const_folding_counterexample :
  training_mode (merged_flags (Some [("training_mode", PyInt 1)])) = true /\
  fst demo_folding_build = Raise incompatible_error /\
  existsb (fun ev => match ev with
                     | EvOnnxExport _ _ => true
                     | _ => false
                     end)
          (trace (snd demo_folding_build)) = true.
Proof.
  split; [reflexivity|].
  split; vm_compute; reflexivity.
Qed.

(** C3, amended: with training mode and constant folding both set the
    construction always raises, and does so before the code generation,
    the build and the loading of the artifact; what it raises is the
    incompatibility error unless one of the steps that come before the
    check has failed: the format check, the lookup of the model,
    contract inference, the making of the work directory, the export,
    or the emptying of the CUDA cache. *)
Theorem training_excludes_const_folding
    (E : Env) model input_desc device output_desc workdir model_format
    build_nnf codegen_flags (w : World) :
  training_mode (merged_flags codegen_flags) = true ->
  exists e w',
    __init__ E model input_desc device output_desc workdir model_format
             true build_nnf codegen_flags w = (Raise e, w') /\
    events (fun ev => is_build_event ev = false) w w' /\
    (e = incompatible_error
     \/ model_format <> "onnx"
     \/ modules w !! model = None
     \/ (output_desc = None /\
         exists w1, generate_output_desc E model input_desc device w
                    = (Raise e, w1))
     \/ action_error E (workdir_event E workdir) = Some e
     \/ (build_nnf = true /\
         exists od wa wb,
           convert_model_to_onnx E model
             {| inputs := input_desc; outputs := od |} device
             (path_join (workdir_of E workdir) "nnf.onnx") true wa
           = (Raise e, wb))
     \/ action_error E EvEmptyCache = Some e).
Proof.
  intros Htrain.
  set (P := fun ev => is_build_event ev = false).
  unfold __init__.
  (* the format check *)
  destruct (String.eqb_spec model_format "onnx") as [Hfmt|Hfmt]; simpl.
  2:{ eexists. exists w. split; [reflexivity|].
      split; [reflexivity|]. auto. }
  rewrite (bind_ok _ _ w tt w) by reflexivity.
  (* the model *)
  destruct (modules w !! model) as [m|] eqn:Hm.
  2:{ eexists. exists w. split.
      { apply bind_raise. unfold read_module. rewrite Hm. reflexivity. }
      split; [reflexivity|]. auto. }
  rewrite (bind_ok _ _ w m w)
    by (unfold read_module; rewrite Hm; reflexivity).
  (* the output contract *)
  destruct (match output_desc with
            | Some o => ret o
            | None => generate_output_desc E model input_desc device
            end w) as [[od|e] w1] eqn:H1.
  2:{ exists e, w1. split; [apply bind_raise; exact H1|].
      split.
      { eapply preserves_run; [|exact H1]. destruct output_desc; pres. }
      destruct output_desc as [o|]; [discriminate|].
      right. right. right. left. eauto. }
  assert (Hev1 : events P w w1).
  { eapply preserves_run; [|exact H1]. destruct output_desc; pres. }
  rewrite (bind_ok _ _ w od w1) by exact H1.
  (* the work directory *)
  pose proof (workdir_step E workdir w1) as H2.
  assert (Hev2 : events P w1 (snd (emit (workdir_event E workdir) w1))).
  { apply emit_events. destruct workdir as [[|c wd']|]; reflexivity. }
  set (w2 := snd (emit (workdir_event E workdir) w1)) in *.
  destruct (action_error E (workdir_event E workdir)) as [e|] eqn:Hdir.
  { exists e, w2. split; [apply bind_raise; exact H2|]. split.
    { etransitivity; [exact Hev1|exact Hev2]. }
    auto 6. }
  rewrite (bind_ok _ _ w1 _ w2 H2). cbn [fst snd].
  (* the export *)
  destruct ((if build_nnf
             then convert_model_to_onnx E model
                    {| inputs := input_desc; outputs := od |} device
                    (path_join (workdir_of E workdir) "nnf.onnx") true ;;;
                  ret (path_join (workdir_of E workdir) "nnf.onnx")
             else ret "") w2) as [[path|e] w3] eqn:H3.
  2:{ exists e, w3. split; [apply bind_raise; exact H3|].
      split.
      { etransitivity; [exact Hev1|]. etransitivity; [exact Hev2|].
        eapply preserves_run; [|exact H3].
        destruct build_nnf; pres.
        apply convert_model_to_onnx_events. reflexivity. }
      destruct build_nnf; [|discriminate].
      do 5 right. left. split; [reflexivity|].
      apply bind_inv in H3.
      destruct H3 as [[a [wa [_ Hret]]]|[e' [Hconv He]]]; [discriminate|].
      inversion He; subst e'. eauto. }
  assert (Hev3 : events P w2 w3).
  { eapply preserves_run; [|exact H3]. destruct build_nnf; pres.
    apply convert_model_to_onnx_events. reflexivity. }
  rewrite (bind_ok _ _ w2 path w3) by exact H3.
  (* the cache *)
  pose proof (perform_spec E EvEmptyCache w3) as H4.
  assert (Hev4 : events P w3 (snd (emit EvEmptyCache w3))).
  { apply emit_events. reflexivity. }
  set (w4 := snd (emit EvEmptyCache w3)) in *.
  destruct (action_error E EvEmptyCache) as [e|] eqn:Hcache.
  { exists e, w4. split; [apply bind_raise; exact H4|]. split.
    { etransitivity; [exact Hev1|]. etransitivity; [exact Hev2|].
      etransitivity; [exact Hev3|exact Hev4]. }
    auto 8. }
  rewrite (bind_ok _ _ w3 tt w4 H4).
  (* the check *)
  fold (merged_flags codegen_flags). rewrite Htrain. simpl.
  eexists. exists w4. split; [reflexivity|]. split.
  - etransitivity; [exact Hev1|]. etransitivity; [exact Hev2|].
    etransitivity; [exact Hev3|exact Hev4].
  - left. reflexivity.
Qed.

Lemma training_excludes_const_folding_witness :
  training_mode (merged_flags (Some [("training_mode", PyInt 1)])) = true /\
  exists e w',
    __init__ (demo_env (demo_artifact [demo_x; demo_w] [demo_y]))
             0%nat [demo_x; demo_w; demo_unused] "cuda:0" (Some [demo_y])
             None "onnx" true true
             (Some [("training_mode", PyInt 1)]) demo_world
    = (Raise e, w') /\
    events (fun ev => is_build_event ev = false) demo_world w' /\
    e = incompatible_error.
Proof.
  split; [reflexivity|].
  destruct (training_excludes_const_folding
              (demo_env (demo_artifact [demo_x; demo_w] [demo_y]))
              0%nat [demo_x; demo_w; demo_unused] "cuda:0" (Some [demo_y])
              None "onnx" true (Some [("training_mode", PyInt 1)])
              demo_world eq_refl) as [e [w' [Hrun [Hev _]]]].
  assert (H0 : __init__ (demo_env (demo_artifact [demo_x; demo_w] [demo_y]))
                 0%nat [demo_x; demo_w; demo_unused] "cuda:0" (Some [demo_y])
                 None "onnx" true true
                 (Some [("training_mode", PyInt 1)]) demo_world
               = (Raise incompatible_error, snd demo_folding_build))
    by (vm_compute; reflexivity).
  exists e, w'. refine (conj Hrun (conj Hev _)).
  exact (f_equal (fun r : Result PTSession * World =>
                    match fst r with
                    | Raise e' => e'
                    | Ok _ => incompatible_error
                    end)
                 (eq_trans (eq_sym Hrun) H0)).
Defined.

(** With a work directory that cannot be made, the construction stops
    there: the error is that of [os.makedirs], not the incompatibility
    error, and nothing has happened but the attempt. *)
Example demo_unwritable_workdir :
  demo_unwritable_build
  = (Raise (OSError "Permission denied"),
     {| tensors := tensors demo_world; modules := modules demo_world;
        cwd := cwd demo_world; rng_pos := rng_pos demo_world;
        trace := [EvMakedirs "/proc/nnf"] |}).
Proof. vm_compute. reflexivity. Qed.

(** ** Isolation of the caller's model *)

Section Hoare.

Context {A B : Type}.

Lemma hoare_bind (P : World -> Prop) (m : M A) (k : A -> M B)
    (Q : A -> World -> Prop) (R : B -> World -> Prop) (X : World -> Prop) :
  hoare P m Q X -> (forall a, hoare (Q a) (k a) R X) ->
  hoare P (bind m k) R X.
Proof.
  intros Hm Hk w HP. unfold bind. specialize (Hm w HP).
  destruct (m w) as [[a|e] w1]; [apply Hk; exact Hm|exact Hm].
Qed.

Lemma hoare_conseq (P P' : World -> Prop) (m : M A)
    (Q Q' : A -> World -> Prop) (X X' : World -> Prop) :
  hoare P m Q X ->
  (forall w, P' w -> P w) -> (forall a w, Q a w -> Q' a w) ->
  (forall w, X w -> X' w) ->
  hoare P' m Q' X'.
Proof.
  intros H HP HQ HX w Hw. specialize (H w (HP w Hw)).
  destruct (m w) as [[a|e] w1]; auto.
Qed.

(** A fact that does not depend on the world can be taken out of the
    precondition. *)
Lemma hoare_pure (F : Prop) (P : World -> Prop) (m : M A)
    (Q : A -> World -> Prop) (X : World -> Prop) :
  (F -> hoare P m Q X) -> hoare (fun w => F /\ P w) m Q X.
Proof. intros H w [HF HP]. apply H; assumption. Qed.

End Hoare.

(** A computation that touches no object keeps any property of the
    store. *)
Lemma hoare_same_store {A} (I X : World -> Prop) (m : M A) :
  (forall w w', same_store w w' -> I w -> I w' /\ X w') ->
  preserves same_store m ->
  hoare I m (fun _ w => I w) X.
Proof.
  intros HI Hm w Hw. specialize (Hm w).
  destruct (m w) as [[a|e] w1]; simpl in Hm; apply (HI w w1 Hm Hw).
Qed.

#[local] Instance untouched_refl : Reflexive untouched.
Proof. intros w. split; auto. Qed.

#[local] Instance untouched_trans : Transitive untouched.
Proof. intros a b c [H1 H2] [H3 H4]. split; auto. Qed.

Lemma untouched_length w w' :
  untouched w w' ->
  (length (tensors w) <= length (tensors w'))%nat /\
  (length (modules w) <= length (modules w'))%nat.
Proof.
  intros [Ht Hm]. split.
  - destruct (le_lt_dec (length (tensors w)) (length (tensors w')))
      as [H|H]; [exact H|].
    destruct (lookup_lt_is_Some_2 (tensors w) (length (tensors w')) H)
      as [t Hl].
    apply Ht in Hl. apply lookup_lt_Some in Hl. lia.
  - destruct (le_lt_dec (length (modules w)) (length (modules w')))
      as [H|H]; [exact H|].
    destruct (lookup_lt_is_Some_2 (modules w) (length (modules w')) H)
      as [t Hl].
    apply Hm in Hl. apply lookup_lt_Some in Hl. lia.
Qed.

Lemma untouched_same_store w0 w w' :
  same_store w w' -> untouched w0 w -> untouched w0 w'.
Proof. intros [Ht Hm] [H1 H2]. split; intros; rewrite ?Ht, ?Hm; auto. Qed.

Section Frame.

Variable w0 : World.
Variable E : Env.

Abbreviation Inv := (untouched w0).
Abbreviation IK := (store_inv w0).

Lemma IK_same_store K w w' : same_store w w' -> IK K w -> IK K w'.
Proof.
  intros Hs [HI HK]. split; [eapply untouched_same_store; eauto|].
  destruct Hs as [_ Hm]. rewrite Hm. exact HK.
Qed.

Lemma frame_same_store {A} K (m : M A) :
  preserves same_store m -> hoare (IK K) m (fun _ w => IK K w) Inv.
Proof.
  intros Hm w Hw. specialize (Hm w).
  destruct (m w) as [[a|e] w1]; simpl in Hm.
  - eapply IK_same_store; eauto.
  - eapply untouched_same_store; [exact Hm|apply Hw].
Qed.

Lemma frame_read_tensor K l :
  hoare (IK K) (read_tensor l) (fun _ w => IK K w) Inv.
Proof. apply frame_same_store. pres. Qed.

Lemma frame_write_tensor K l t :
  (length (tensors w0) <= l)%nat ->
  hoare (IK K) (write_tensor l t) (fun _ w => IK K w) Inv.
Proof.
  intros Hl w [[Ht Hm] HK]. simpl. split; [|exact HK].
  split; simpl; [|exact Hm].
  intros l' t' Hl'. rewrite list_lookup_insert_ne; [auto|].
  apply lookup_lt_Some in Hl'. lia.
Qed.

Lemma frame_alloc_tensor K t :
  hoare (IK K) (alloc_tensor t)
        (fun l w => (length (tensors w0) <= l)%nat /\ IK K w) Inv.
Proof.
  intros w [HI HK]. simpl. destruct (untouched_length _ _ HI) as [Hlen _].
  split; [exact Hlen|]. split; [|exact HK].
  destruct HI as [Ht Hm]. split; simpl; [|exact Hm].
  intros l' t' Hl'. apply lookup_app_l_Some. auto.
Qed.

Lemma frame_write_module c m m' :
  (length (modules w0) <= c)%nat ->
  hoare (IK (fun ms => ms !! c = Some m)) (write_module c m')
        (fun _ w => IK (fun ms => ms !! c = Some m') w) Inv.
Proof.
  intros Hc w [[Ht Hm] HK]. simpl. split.
  - split; simpl; [exact Ht|].
    intros l' m0 Hl'. rewrite list_lookup_insert_ne; [auto|].
    apply lookup_lt_Some in Hl'. lia.
  - simpl. apply list_lookup_insert_eq. eapply lookup_lt_Some. exact HK.
Qed.

Lemma frame_alloc_module K m :
  hoare (IK K) (alloc_module m)
        (fun c w => (length (modules w0) <= c)%nat /\
                    IK (fun ms => ms !! c = Some m) w) Inv.
Proof.
  intros w [HI HK]. simpl. destruct (untouched_length _ _ HI) as [_ Hlen].
  split; [exact Hlen|]. split.
  - destruct HI as [Ht Hm]. split; simpl; [exact Ht|].
    intros l' m' Hl'. apply lookup_app_l_Some. auto.
  - simpl. rewrite lookup_app_r by lia. rewrite Nat.sub_diag. reflexivity.
Qed.

Lemma frame_write_back K ls ts :
  Forall (fun l => (length (tensors w0) <= l)%nat) ls ->
  hoare (IK K) (write_back ls ts) (fun _ w => IK K w) Inv.
Proof.
  revert ts. induction ls as [|l ls IH]; intros [|t ts] Hall; simpl;
    try solve [apply frame_same_store; pres].
  inversion Hall; subst.
  eapply hoare_bind; [apply frame_write_tensor; assumption|].
  intros ?. apply IH. assumption.
Qed.

(** The loop rules, with the exceptional postcondition weaker than the
    invariant. *)
Lemma frame_map_M {A B} K (R : B -> Prop) (f : A -> M B) xs :
  (forall x, In x xs -> hoare (IK K) (f x) (fun y w => R y /\ IK K w) Inv) ->
  hoare (IK K) (map_M f xs) (fun ys w => Forall R ys /\ IK K w) Inv.
Proof.
  induction xs as [|x xs IH]; intros Hf; simpl.
  - intros w HI. simpl. auto.
  - eapply hoare_bind; [apply Hf; left; reflexivity|].
    intros y. apply hoare_pure. intros Hy.
    eapply hoare_bind; [apply IH; intros; apply Hf; right; assumption|].
    intros ys. apply hoare_pure. intros Hys. intros w HI. simpl. auto.
Qed.

Lemma frame_for_each {A} K (f : A -> M unit) xs :
  (forall x, In x xs -> hoare (IK K) (f x) (fun _ w => IK K w) Inv) ->
  hoare (IK K) (for_each f xs) (fun _ w => IK K w) Inv.
Proof.
  induction xs as [|x xs IH]; intros Hf; simpl.
  - intros w HI. exact HI.
  - eapply hoare_bind; [apply Hf; left; reflexivity|].
    intros ?. apply IH. intros; apply Hf; right; assumption.
Qed.

Lemma frame_copy_named K ps :
  hoare (IK K) (copy_named ps)
        (fun ps' w => Forall (fun p => (length (tensors w0) <= snd p)%nat) ps'
                      /\ IK K w) Inv.
Proof.
  unfold copy_named. apply frame_map_M. intros p _.
  eapply hoare_bind; [apply frame_read_tensor|]. intros t.
  eapply hoare_bind; [apply frame_alloc_tensor|]. intros l.
  apply hoare_pure. intros Hl w HI. simpl. auto.
Qed.

Lemma fresh_module_intro c m w :
  (length (modules w0) <= c)%nat ->
  Forall (fun l => (length (tensors w0) <= l)%nat) (own_tensors m) ->
  IK (fun ms => ms !! c = Some m) w ->
  fresh_module w0 c w /\ Inv w.
Proof.
  intros Hc Hown [HI HK]. split; [|exact HI].
  split; [exact Hc|]. exists m. auto.
Qed.

Lemma frame_deepcopy model :
  hoare Inv (deepcopy model) (fun c w => fresh_module w0 c w /\ Inv w) Inv.
Proof.
  unfold deepcopy.
  apply (hoare_conseq (IK (fun _ => True)) Inv _
           (fun c w => fresh_module w0 c w /\ Inv w)
           (fun c w => fresh_module w0 c w /\ Inv w) Inv Inv);
    [|intros w Hw; split; [exact Hw|exact I]|auto|auto].
  eapply hoare_bind; [apply frame_same_store; pres|]. intros m.
  eapply hoare_bind; [apply frame_copy_named|]. intros ps.
  apply hoare_pure. intros Hps.
  eapply hoare_bind; [apply frame_copy_named|]. intros bs.
  apply hoare_pure. intros Hbs.
  eapply hoare_conseq.
  - apply (frame_alloc_module (fun _ => True)).
  - intros w Hw. exact Hw.
  - intros c w [Hc HIK].
    eapply fresh_module_intro; [exact Hc| |exact HIK].
    unfold own_tensors. simpl. apply Forall_app. split.
    + apply List.Forall_map. exact Hps.
    + apply List.Forall_map. exact Hbs.
  - intros w Hw. exact Hw.
Qed.

(** Reading a module object that is known to be fresh. *)
Lemma frame_read_fresh c :
  hoare (fun w => fresh_module w0 c w /\ Inv w) (read_module c)
        (fun m w => ((length (modules w0) <= c)%nat /\
                     Forall (fun l => (length (tensors w0) <= l)%nat)
                            (own_tensors m)) /\
                    IK (fun ms => ms !! c = Some m) w)
        Inv.
Proof.
  intros w [[Hc [m [Hm Hown]]] HI]. unfold read_module. rewrite Hm.
  split; [auto|]. split; assumption.
Qed.

Lemma frame_Module_to c dev :
  hoare (fun w => fresh_module w0 c w /\ Inv w) (Module_to E c dev)
        (fun c' w => fresh_module w0 c' w /\ Inv w) Inv.
Proof.
  unfold Module_to.
  eapply hoare_bind; [apply frame_read_fresh|]. intros m.
  apply hoare_pure. intros [Hc Hown].
  unfold own_tensors in Hown. apply Forall_app in Hown.
  destruct Hown as [Hps Hbs].
  rewrite List.Forall_map in Hps. rewrite List.Forall_map in Hbs.
  eapply hoare_bind.
  { apply (frame_map_M _ (fun p => (length (tensors w0) <= snd p)%nat)).
    intros p Hp. unfold param_to.
    rewrite List.Forall_forall in Hps. specialize (Hps p Hp).
    eapply hoare_bind; [apply frame_read_tensor|]. intros t. cbv zeta.
    destruct (has_compatible_shallow_copy_type E t _).
    - eapply hoare_bind; [apply frame_write_tensor; exact Hps|]. intros ?.
      intros w HI. simpl. auto.
    - eapply hoare_bind; [apply frame_alloc_tensor|]. intros l.
      apply hoare_pure. intros Hl w HI. simpl. auto. }
  intros ps. apply hoare_pure. intros Hps'.
  eapply hoare_bind.
  { apply (frame_map_M _ (fun p => (length (tensors w0) <= snd p)%nat)).
    intros p Hp. unfold buffer_to.
    eapply hoare_bind; [apply frame_read_tensor|]. intros t.
    destruct (String.eqb (torch.device t) dev).
    - intros w HI. simpl. split; [|exact HI].
      rewrite List.Forall_forall in Hbs. apply (Hbs p Hp).
    - eapply hoare_bind; [apply frame_alloc_tensor|]. intros l.
      apply hoare_pure. intros Hl w HI. simpl. auto. }
  intros bs. apply hoare_pure. intros Hbs'.
  eapply hoare_bind; [apply frame_write_module; exact Hc|]. intros ?.
  intros w HIK. simpl.
  eapply fresh_module_intro; [exact Hc| |exact HIK].
  unfold own_tensors. simpl. apply Forall_app. split.
  - apply List.Forall_map. exact Hps'.
  - apply List.Forall_map. exact Hbs'.
Qed.

Lemma frame_read_all K ls :
  hoare (IK K) (map_M read_tensor ls) (fun _ w => IK K w) Inv.
Proof. apply frame_same_store. pres. Qed.

Lemma frame_call_module c args :
  hoare (fun w => fresh_module w0 c w /\ Inv w) (call_module c args)
        (fun _ w => Inv w) Inv.
Proof.
  unfold call_module.
  eapply hoare_bind; [apply frame_read_fresh|]. intros m.
  apply hoare_pure. intros [Hc Hown].
  eapply hoare_bind; [apply frame_read_all|]. intros ws.
  eapply hoare_bind; [apply frame_same_store; pres|]. intros [[out st] ws'].
  eapply hoare_bind; [apply frame_write_back; exact Hown|]. intros ?.
  eapply hoare_bind; [apply frame_write_module; exact Hc|]. intros ?.
  intros w [HI _]. exact HI.
Qed.

Lemma frame_torch_onnx_export c a :
  hoare (fun w => fresh_module w0 c w /\ Inv w) (torch_onnx_export E c a)
        (fun _ w => Inv w) Inv.
Proof.
  unfold torch_onnx_export.
  eapply hoare_bind.
  { apply (hoare_same_store (fun w => fresh_module w0 c w /\ Inv w) Inv);
      [|pres].
    intros w w' Hs [[Hc [m [Hm Hown]]] HI].
    assert (HI' : Inv w') by (eapply untouched_same_store; eauto).
    split; [|exact HI']. split; [|exact HI'].
    split; [exact Hc|]. exists m. destruct Hs as [_ Hms]. rewrite Hms. auto. }
  intros ?.
  eapply hoare_bind; [apply frame_read_fresh|]. intros m.
  apply hoare_pure. intros [Hc Hown].
  eapply hoare_bind; [apply frame_read_all|]. intros ws.
  eapply hoare_bind; [apply frame_same_store; pres|]. intros r.
  eapply hoare_bind; [apply frame_write_back; exact Hown|]. intros ?.
  eapply hoare_conseq.
  - apply frame_write_module. exact Hc.
  - intros w Hw. exact Hw.
  - intros ? w [HI _]. exact HI.
  - intros w Hw. exact Hw.
Qed.

Lemma frame_samples descs dev :
  hoare Inv (map_M (fun d => generate_sample E d dev) descs)
        (fun _ w => Inv w) Inv.
Proof.
  intros w HI.
  assert (Hp : preserves same_store
                 (map_M (fun d => generate_sample E d dev) descs)) by pres.
  specialize (Hp w).
  destruct (map_M _ descs w) as [[a|e] w1]; simpl in Hp;
    eapply untouched_same_store; eauto.
Qed.

Lemma frame_generate_output_desc model input_desc dev :
  hoare Inv (generate_output_desc E model input_desc dev)
        (fun _ w => Inv w) Inv.
Proof.
  unfold generate_output_desc.
  eapply hoare_bind; [apply frame_samples|]. intros fake_inputs.
  eapply hoare_bind.
  { eapply hoare_bind; [apply frame_deepcopy|]. intros c.
    apply frame_Module_to. }
  intros c.
  eapply hoare_bind; [apply frame_call_module|]. intros out.
  intros w HI. unfold lift. destruct (output_descs E 0 _); exact HI.
Qed.

(** What [convert_model_to_onnx] does once the caller's model has been
    moved to the device. *)
Lemma frame_export_copy model md dev f cf :
  hoare Inv
    (sample_inputs <- map_M (fun input => generate_sample E input (Some dev))
                            (inputs md) ;;
     sample_outputs <- map_M (fun output => generate_sample E output (Some dev))
                             (outputs md) ;;
     model_copy <- (c <- deepcopy model ;; Module_to E c dev) ;;
     torch_onnx_export E model_copy
       {| ea_args := sample_inputs;
          ea_f := f;
          ea_input_names := map name (inputs md);
          ea_output_names := map name (outputs md);
          ea_opset_version := 12;
          ea_retain_param_name := true;
          ea_example_outputs := sample_outputs;
          ea_do_constant_folding := cf |} ;;;
     ret model)
    (fun _ w => Inv w) Inv.
Proof.
  eapply hoare_bind; [apply frame_samples|]. intros sample_inputs.
  eapply hoare_bind; [apply frame_samples|]. intros sample_outputs.
  eapply hoare_bind.
  { eapply hoare_bind; [apply frame_deepcopy|]. intros c.
    apply frame_Module_to. }
  intros c.
  eapply hoare_bind; [apply frame_torch_onnx_export|]. intros ?.
  intros w HI. exact HI.
Qed.

End Frame.

(** ** The move of the caller's model *)

Lemma param_to_inv E dev p w p' w' :
  param_to E dev p w = (Ok p', w') ->
  exists t, tensors w !! snd p = Some t /\
            modules w' = modules w /\
            if has_compatible_shallow_copy_type E t (torch.to t (Some dev))
            then p' = p /\
                 tensors w' = <[snd p := torch.to t (Some dev)]> (tensors w)
            else p' = (fst p, length (tensors w)) /\
                 tensors w' = (tensors w ++ [torch.to t (Some dev)])%list.
Proof.
  unfold param_to, bind, read_tensor.
  destruct (tensors w !! snd p) as [t|]; [|discriminate].
  cbv zeta. intros H. exists t. split; [reflexivity|].
  destruct (has_compatible_shallow_copy_type E t _); simpl in H;
    inversion H; subst; simpl; auto.
Qed.

Lemma to_device_twice t dev :
  torch.to (torch.to t (Some dev)) (Some dev) = torch.to t (Some dev).
Proof. reflexivity. Qed.

(** The loop of [Module.to] over the parameters: a parameter object that
    can take the moved tensor is rewritten where it is, every other
    tensor is left alone. *)
Lemma params_to_effect E dev ps : forall w ps' w',
  map_M (param_to E dev) ps w = (Ok ps', w') ->
  modules w' = modules w /\
  (forall l t, tensors w !! l = Some t ->
     tensors w' !! l
     = Some (if existsb (Nat.eqb l) (map snd ps)
                && has_compatible_shallow_copy_type E t (torch.to t (Some dev))
             then torch.to t (Some dev) else t)) /\
  map fst ps' = map fst ps.
Proof.
  induction ps as [|p ps IH]; intros w ps' w' H; simpl in H.
  - inversion H; subst. repeat split; auto.
  - apply bind_inv in H. destruct H as [[p1 [w1 [H1 H]]]|[e [_ He]]];
      [|discriminate].
    apply bind_inv in H. destruct H as [[ps1 [w2 [H2 H]]]|[e [_ He]]];
      [|discriminate].
    inversion H; subst ps' w2. clear H.
    apply param_to_inv in H1. destruct H1 as [t0 [Ht0 [Hms Hstep]]].
    destruct (IH _ _ _ H2) as [Hm [Heff Hnames]].
    assert (Hfst : fst p1 = fst p).
    { destruct (has_compatible_shallow_copy_type E t0 _);
        destruct Hstep as [-> _]; reflexivity. }
    split; [congruence|]. split.
    + intros l t Ht. simpl.
      destruct (Nat.eqb_spec l (snd p)) as [->|Hne]; simpl.
      * assert (t = t0) by congruence. subst t.
        destruct (has_compatible_shallow_copy_type E t0 _) eqn:Hc;
          destruct Hstep as [_ Hts].
        -- rewrite (Heff (snd p) (torch.to t0 (Some dev))).
           { rewrite to_device_twice.
             destruct (_ && _); reflexivity. }
           rewrite Hts. apply list_lookup_insert_eq.
           eapply lookup_lt_Some. exact Ht0.
        -- rewrite (Heff (snd p) t0).
           { rewrite Hc, andb_false_r. reflexivity. }
           rewrite Hts. apply lookup_app_l_Some. exact Ht0.
      * apply Heff.
        destruct (has_compatible_shallow_copy_type E t0 _);
          destruct Hstep as [_ Hts]; rewrite Hts.
        -- rewrite list_lookup_insert_ne by congruence. exact Ht.
        -- apply lookup_app_l_Some. exact Ht.
    + simpl. congruence.
Qed.

Lemma buffer_to_untouched dev p : preserves untouched (buffer_to dev p).
Proof.
  intros w. unfold buffer_to, bind, read_tensor.
  destruct (tensors w !! snd p) as [t|]; simpl; [|reflexivity].
  destruct (String.eqb (torch.device t) dev); simpl; [reflexivity|].
  split; simpl; [|auto].
  intros l' t' Hl'. apply lookup_app_l_Some. exact Hl'.
Qed.

Lemma buffers_to_untouched dev bs :
  preserves untouched (map_M (buffer_to dev) bs).
Proof.
  assert (H : forall p, preserves untouched (buffer_to dev p))
    by apply buffer_to_untouched.
  induction bs as [|b bs IH]; simpl; pres.
Qed.

(** [model.to(device)] rewrites in place every parameter object of the
    model that can take the moved tensor, and leaves the others as they
    are. *)
Lemma Module_to_moves_parameters E model dev m w c w' :
  modules w !! model = Some m ->
  Module_to E model dev w = (Ok c, w') ->
  c = model /\
  forall l t, In l (map snd (named_parameters m)) ->
    tensors w !! l = Some t ->
    tensors w' !! l
    = Some (if has_compatible_shallow_copy_type E t (torch.to t (Some dev))
            then torch.to t (Some dev) else t).
Proof.
  intros Hm H. unfold Module_to in H.
  apply bind_inv in H. destruct H as [[m0 [wa [H0 H]]]|[e [_ He]]];
    [|discriminate].
  unfold read_module in H0. rewrite Hm in H0. inversion H0; subst m0 wa.
  clear H0.
  apply bind_inv in H. destruct H as [[ps [w1 [H1 H]]]|[e [_ He]]];
    [|discriminate].
  apply params_to_effect in H1. destruct H1 as [_ [Heff _]].
  apply bind_inv in H. destruct H as [[bs [w2 [H2 H]]]|[e [_ He]]];
    [|discriminate].
  assert (Hu : untouched w1 w2).
  { eapply preserves_run; [|exact H2]. apply buffers_to_untouched. }
  apply bind_inv in H. destruct H as [[[] [w3 [H3 H]]]|[e [_ He]]];
    [|discriminate].
  inversion H; subst c w'. clear H.
  unfold write_module, bind, get_world, set_modules in H3. simpl in H3.
  inversion H3; subst w3. simpl.
  split; [reflexivity|].
  intros l t Hl Ht.
  apply Hu. rewrite (Heff l t Ht).
  replace (existsb (Nat.eqb l) (map snd (named_parameters m))) with true;
    [reflexivity|].
  symmetry. apply existsb_exists. exists l.
  split; [exact Hl|apply Nat.eqb_refl].
Qed.

Lemma convert_model_to_onnx_moves_parameters
    (E : Env) model md dev f cf m w r w' :
  modules w !! model = Some m ->
  convert_model_to_onnx E model md dev f cf w = (Ok r, w') ->
  r = model /\
  forall l t, In l (map snd (named_parameters m)) ->
    tensors w !! l = Some t ->
    tensors w' !! l
    = Some (if has_compatible_shallow_copy_type E t (torch.to t (Some dev))
            then torch.to t (Some dev) else t).
Proof.
  intros Hm H.
  assert (Hr : r = model).
  { unfold convert_model_to_onnx in H. cbv zeta in H.
    repeat (apply bind_inv in H;
            destruct H as [[? [? [_ H]]]|[e [_ He]]]; [|discriminate]).
    inversion H. reflexivity. }
  split; [exact Hr|].
  unfold convert_model_to_onnx in H.
  apply bind_inv in H. destruct H as [[c [w1 [H1 H]]]|[e [_ He]]];
    [|discriminate].
  destruct (Module_to_moves_parameters _ _ _ _ _ _ _ Hm H1) as [_ Hmove].
  pose proof (frame_export_copy w1 E model md dev f cf w1 (reflexivity w1))
    as Hframe.
  cbv zeta in H. rewrite H in Hframe. destruct Hframe as [Hts _].
  intros l t Hl Ht. apply Hts. apply Hmove; assumption.
Qed.

(** On the [meta] device the parameter of the demo model cannot take the
    moved tensor: the model gets a new parameter object, tensor 4, and
    the old one, tensor 0, is as it was. *)
Example demo_meta_parameter :
  fst demo_meta_move = Ok 0%nat /\
  named_parameters <$> modules (snd demo_meta_move) !! 0%nat
  = Some [("w", 4%nat)] /\
  named_buffers <$> modules (snd demo_meta_move) !! 0%nat
  = Some [("b", 5%nat)] /\
  tensors (snd demo_meta_move) !! 0%nat = tensors demo_world !! 0%nat /\
  torch.device <$> tensors (snd demo_meta_move) !! 4%nat = Some "meta".
Proof. repeat split; vm_compute; reflexivity. Qed.

(** C5, as stated, fails on the code: the export moves the caller's own
    model to the device before it copies it.  The parameter object of
    the demo model is on the CPU before the export and on the CUDA
    device after it, and the module object has been rebound to a new
    buffer. *)
Lemma export_moves_the_model_counterexample :
  fst demo_export = Ok 0%nat /\
  torch.device <$> tensors demo_world !! 0%nat = Some "cpu" /\
  torch.device <$> tensors (snd demo_export) !! 0%nat = Some "cuda:0" /\
  named_buffers <$> modules demo_world !! 0%nat = Some [("b", 1%nat)] /\
  named_buffers <$> modules (snd demo_export) !! 0%nat = Some [("b", 4%nat)] /\
  ~ untouched demo_world (snd demo_export).
Proof.
  split; [vm_compute; reflexivity|].
  split; [vm_compute; reflexivity|].
  split; [vm_compute; reflexivity|].
  split; [vm_compute; reflexivity|].
  split; [vm_compute; reflexivity|].
  intros [Ht _].
  specialize (Ht 0%nat (demo_tensor "cpu" [demo_one; demo_one]) eq_refl).
  vm_compute in Ht. discriminate Ht.
Qed.

(** C5, amended: contract inference works on a deep copy and leaves
    every tensor and module object that existed before it as it was,
    the caller's model among them.  The export first moves the caller's
    model to the device, in place: when it returns, it returns the
    caller's model, and every parameter object of that model that can
    take the moved tensor (torch's test on the two tensors) is the
    tensor it was, moved to the device; a parameter object that cannot
    is left as it was (the model gets a new one).  Everything the export
    does after that move, the exporter's own side effects included,
    happens on a deep copy and leaves every object as the move left
    it. *)
Theorem probing_works_on_a_copy
    (E : Env) (model : loc) (input_desc : list IODescription)
    (model_desc : ModelDescription) (device file_name : string)
    (const_folding : bool) (w : World) :
  untouched w (snd (generate_output_desc E model input_desc device w)) /\
  untouched (snd (Module_to E model device w))
            (snd (convert_model_to_onnx E model model_desc device file_name
                                        const_folding w)) /\
  (forall m r w',
     modules w !! model = Some m ->
     convert_model_to_onnx E model model_desc device file_name
                           const_folding w = (Ok r, w') ->
     r = model /\
     forall n l t, In (n, l) (named_parameters m) ->
       tensors w !! l = Some t ->
       tensors w' !! l
       = Some (if has_compatible_shallow_copy_type E t
                    (torch.to t (Some device))
               then torch.to t (Some device) else t)).
Proof.
  split; [|split].
  - pose proof (frame_generate_output_desc w E model input_desc device w)
      as H.
    specialize (H (reflexivity w)).
    destruct (generate_output_desc E model input_desc device w)
      as [[od|e] w']; exact H.
  - unfold convert_model_to_onnx. unfold bind at 1.
    destruct (Module_to E model device w) as [[c|e] w1]; simpl;
      [|reflexivity].
    pose proof (frame_export_copy w1 E model model_desc device file_name
                  const_folding w1 (reflexivity w1)) as H.
    cbv zeta.
    destruct (bind (map_M _ (inputs model_desc)) _ w1) as [[r|e] w'];
      exact H.
  - intros m r w' Hm Hrun.
    destruct (convert_model_to_onnx_moves_parameters
                E model model_desc device file_name const_folding m w r w'
                Hm Hrun) as [Hr Hmove].
    split; [exact Hr|]. intros n l t Hin. apply Hmove.
    apply (in_map snd _ (n, l)). exact Hin.
Qed.

Lemma probing_works_on_a_copy_witness :
  modules demo_world !! 0%nat = Some demo_identity /\
  fst demo_export = Ok 0%nat /\
  tensors demo_world !! 0%nat = Some (demo_tensor "cpu" [demo_one; demo_one]) /\
  tensors (snd demo_export) !! 0%nat
  = Some (if has_compatible_shallow_copy_type
               (demo_env (demo_artifact [demo_x] [demo_y]))
               (demo_tensor "cpu" [demo_one; demo_one])
               (torch.to (demo_tensor "cpu" [demo_one; demo_one])
                         (Some "cuda:0"))
          then torch.to (demo_tensor "cpu" [demo_one; demo_one])
                        (Some "cuda:0")
          else demo_tensor "cpu" [demo_one; demo_one]).
Proof.
  assert (Hm : modules demo_world !! 0%nat = Some demo_identity)
    by reflexivity.
  assert (Hrun : convert_model_to_onnx
                   (demo_env (demo_artifact [demo_x] [demo_y])) 0%nat
                   {| inputs := [demo_x]; outputs := [demo_y] |} "cuda:0"
                   "/work/nnf.onnx" false demo_world
                 = (Ok 0%nat, snd demo_export))
    by (vm_compute; reflexivity).
  assert (Hfst : fst demo_export = Ok 0%nat) by (vm_compute; reflexivity).
  assert (Ht : tensors demo_world !! 0%nat
               = Some (demo_tensor "cpu" [demo_one; demo_one]))
    by reflexivity.
  exact (conj Hm (conj Hfst (conj Ht
           (proj2 (proj2 (proj2 (probing_works_on_a_copy
                                   (demo_env (demo_artifact [demo_x] [demo_y]))
                                   0%nat [] _ "cuda:0" _ _ demo_world))
                         demo_identity 0%nat (snd demo_export) Hm Hrun)
                  "w" 0%nat _ (or_introl eq_refl) Ht)))).
Defined.

(** ** Messages of the output assertions *)

(** The two output assertions build their message from [real_inputs]:
    whatever the mismatch, what is raised depends on the input of the
    same name and never mentions the caller's output descriptor. *)
Lemma check_output_shape_mismatch flags ri ro desc r :
  dict_get (name desc) ro = Some r ->
  shape_eqb (shape desc) (shape r) = false ->
  check_output flags ri ro desc
  = match dict_get (name desc) ri with
    | Some i => Raise (AssertionError
                         (msg_output_shape (name desc) (shape desc) (shape i)))
    | None => Raise (KeyError (name desc))
    end.
Proof.
  intros Hr Hsh. unfold check_output, dict_mem, dict_getitem.
  rewrite Hr, orb_true_r. simpl. rewrite Hsh. simpl.
  destruct (dict_get (name desc) ri); reflexivity.
Qed.

Lemma check_output_dtype_mismatch flags ri ro desc r :
  dict_get (name desc) ro = Some r ->
  shape_eqb (shape desc) (shape r) = true ->
  String.eqb (dtype desc) (dtype r) = false ->
  check_output flags ri ro desc
  = match dict_get (name desc) ri with
    | Some i => Raise (AssertionError
                         (msg_output_shape (name desc) (shape desc) (shape i)))
    | None => Raise (KeyError (name desc))
    end.
Proof.
  intros Hr Hsh Hdt. unfold check_output, dict_mem, dict_getitem.
  rewrite Hr, orb_true_r. simpl. rewrite Hsh. simpl. rewrite Hdt. simpl.
  destruct (dict_get (name desc) ri); reflexivity.
Qed.

(** C6 fails on the code for outputs.  A shape mismatch on an output
    that is not also an input raises [KeyError], because the message of
    the assertion reads [real_inputs[desc.name]]; a dtype mismatch on an
    output that is also the name of an input raises an AssertionError
    whose message carries two shapes (the second one that of the input)
    and no dtype at all.  The same shape mismatch on an input is
    reported with the artifact's and the caller's shape. *)
Theorem output_mismatch_messages :
  fst demo_output_shape_mismatch = Raise (KeyError "y") /\
  fst demo_output_dtype_mismatch
  = Raise (AssertionError (msg_output_shape "w" [DInt 2] [DInt 2])) /\
  fst demo_input_shape_mismatch
  = Raise (AssertionError
             (msg_input_shape "x" [DInt 2; DInt 4] [DInt 2; DInt 3])).
Proof.
  split; [vm_compute; reflexivity|].
  split; vm_compute; reflexivity.
Qed.

(** ** The sample synthesizer *)












(** The sample of the demo descriptor of class indices: the first four
    draws of the demo generator (0, 7, 14, 21), modulo 3. *)
Example demo_labels_sample :
  generate_sample (demo_env (demo_artifact [] [])) demo_labels
                  (Some "cuda:0") demo_world
  = (Ok {| torch.shape := [2; 2]; torch.dtype_of := torch.int64;
           torch.device := "cuda:0";
           torch.data := [torch.SInt 0; torch.SInt 1; torch.SInt 2;
                          torch.SInt 0] |},
     {| tensors := tensors demo_world; modules := modules demo_world;
        cwd := cwd demo_world; rng_pos := 4; trace := trace demo_world |}).
Proof. vm_compute. reflexivity. Qed.

(** ** Contract inference *)


Section Inference.

Variable E : Env.















End Inference.



(** ** The parameters of the model through the construction *)

#[local] Instance same_modules_refl : Reflexive same_modules.
Proof. intros w. reflexivity. Qed.

#[local] Instance same_modules_trans : Transitive same_modules.
Proof. intros a b c H1 H2. unfold same_modules in *. congruence. Qed.

Lemma same_store_modules {A} (m : M A) :
  preserves same_store m -> preserves same_modules m.
Proof. intros H w. destruct (H w) as [_ Hm]. exact Hm. Qed.

Lemma write_tensor_same_modules l t : preserves same_modules (write_tensor l t).
Proof. intros w. reflexivity. Qed.

Lemma alloc_tensor_same_modules t : preserves same_modules (alloc_tensor t).
Proof. intros w. reflexivity. Qed.

#[local] Hint Resolve write_tensor_same_modules alloc_tensor_same_modules
  : pres.

Section Parameters.

Variable E : Env.

Lemma bind_outputs_same_modules flags ri ro dev ds acc :
  preserves same_modules (bind_outputs E flags ri ro dev ds acc).
Proof.
  revert acc. induction ds as [|d ds IH]; intros acc; simpl; pres.
Qed.

Lemma create_executor_same_modules self :
  preserves same_modules (_create_executor E self).
Proof.
  unfold _create_executor.
  assert (H1 : forall p f o, preserves same_modules (codegen E p f o))
    by (intros; apply same_store_modules; pres).
  assert (H2 : forall d, preserves same_modules (modify_nnfusion_rt E d))
    by (intros; apply same_store_modules; pres).
  assert (H3 : forall d, preserves same_modules (build E d))
    by (intros; apply same_store_modules; pres).
  assert (H4 : forall d, preserves same_modules (Executor_new E d))
    by (intros; apply same_store_modules; pres).
  assert (H5 : forall flags ri ro dev ds acc,
             preserves same_modules (bind_outputs E flags ri ro dev ds acc))
    by apply bind_outputs_same_modules.
  pres.
Qed.

End Parameters.

(** At session build every input the artifact declares is entered in
    the binding table: when its name is that of a model parameter or
    buffer it is bound to the tensor object the session holds for that
    name, whatever the training mode flag says, and otherwise it starts
    unbound; nothing else is in the table.  The session holds the
    objects the model had when the construction began. *)
Lemma init_binds_the_weight_set
    (E : Env) model input_desc device output_desc workdir model_format
    const_folding build_nnf codegen_flags (w : World) (s : PTSession)
    (w' : World) :
  __init__ E model input_desc device output_desc workdir model_format
           const_folding build_nnf codegen_flags w = (Ok s, w') ->
  exists m ex,
    modules w !! model = Some m /\
    _executor s = Some ex /\
    _torch_weights s = dict_update (dict_of_items (named_parameters m))
                                   (dict_of_items (named_buffers m)) /\
    (forall n, dict_mem n (_torch_weights s) = true <->
               In n (map fst (named_parameters m)) \/
               In n (map fst (named_buffers m))) /\
    (forall d l, In d (get_inputs ex) ->
                 dict_get (name d) (_torch_weights s) = Some l ->
                 dict_get (name d) (_inputs s)
                 = Some (Some (cast_pytorch_tensor l)) /\
                 reference (cast_pytorch_tensor l) = l) /\
    (forall d, In d (get_inputs ex) ->
               dict_get (name d) (_torch_weights s) = None ->
               dict_get (name d) (_inputs s) = Some None) /\
    (forall n, ~ In n (map name (get_inputs ex)) ->
               dict_get n (_inputs s) = None).
Proof.
  intros Hinit. apply init_inv in Hinit.
  destruct Hinit as [m [od [dctx [wd [path [w1 [_ [Hm [_ [_ Hrun]]]]]]]]]].
  apply create_executor_inv in Hrun.
  destruct Hrun as [ex [w2 [ri [ins [outs [_ [_ [_ [_ [Hb [_ [_ Hs]]]]]]]]]]]].
  simpl in Hb.
  pose proof (bind_inputs_spec ri
                (dict_update (dict_of_items (named_parameters m))
                             (dict_of_items (named_buffers m)))
                (get_inputs ex) []) as Hspec.
  rewrite Hb in Hspec. destruct Hspec as [_ [Hin Hout]].
  exists m, ex. subst s. simpl.
  split; [exact Hm|]. split; [reflexivity|]. split; [reflexivity|].
  split; [|split; [|split]].
  - intros n. rewrite dict_mem_update, dict_mem_of_items.
    assert (Hbuf : In n (map fst (dict_of_items (named_buffers m))) <->
                   In n (map fst (named_buffers m))).
    { rewrite <- (dict_mem_keys n (dict_of_items (named_buffers m))).
      apply dict_mem_of_items. }
    tauto.
  - intros d l Hd Hl. split; [|reflexivity].
    rewrite (Hin (name d)) by (apply in_map; exact Hd).
    unfold weight_binding. rewrite Hl. reflexivity.
  - intros d Hd Hl.
    rewrite (Hin (name d)) by (apply in_map; exact Hd).
    unfold weight_binding. rewrite Hl. reflexivity.
  - intros n Hn. rewrite (Hout n Hn). reflexivity.
Qed.

(** C10 fails on the code for a buffer of a model that is not on the
    device of the session.  The demo model is on the CPU, the session is
    for [cuda:0] and is built with the export, not in training mode; the
    artifact takes [x], the parameter [w] and the buffer [b].  The build
    binds [w] and [b] although training mode is off, and leaves [x]
    unbound.  The object bound for [w], tensor 0, is the model's
    parameter, moved to the device.  The object bound for [b], tensor 1,
    is the buffer the model had before the export moved it: it is still
    on the CPU, while the model's buffer [b] is now tensor 4, on the
    device.  A run that feeds [x] binds [x] to the tensor it is fed and
    invokes the artifact with [b] still bound to tensor 1. *)
Theorem weight_binding_misses_the_moved_buffer :
  fst demo_weights_build = Ok demo_weights_session /\
  training_mode (_codegen_flags demo_weights_session) = false /\
  _torch_weights demo_weights_session = [("w", 0%nat); ("b", 1%nat)] /\
  _inputs demo_weights_session
  = [("x", None); ("w", Some (cast_pytorch_tensor 0%nat));
     ("b", Some (cast_pytorch_tensor 1%nat))] /\
  named_parameters <$> modules (snd demo_weights_build) !! 0%nat
  = Some [("w", 0%nat)] /\
  named_buffers <$> modules (snd demo_weights_build) !! 0%nat
  = Some [("b", 4%nat)] /\
  torch.device <$> tensors (snd demo_weights_build) !! 0%nat = Some "cuda:0" /\
  tensors (snd demo_weights_build) !! 1%nat = tensors demo_world !! 1%nat /\
  torch.device <$> tensors (snd demo_weights_build) !! 1%nat = Some "cpu" /\
  torch.device <$> tensors (snd demo_weights_build) !! 4%nat = Some "cuda:0" /\
  fst demo_weights_run = Ok [7%nat] /\
  _inputs (fst (snd demo_weights_run))
  = [("x", Some (cast_pytorch_tensor 2%nat));
     ("w", Some (cast_pytorch_tensor 0%nat));
     ("b", Some (cast_pytorch_tensor 1%nat))] /\
  trace (snd (snd demo_weights_run))
  = (trace (snd demo_weights_build) ++ [EvInvoke])%list.
Proof.
  split; [vm_compute; reflexivity|].
  split; [vm_compute; reflexivity|].
  split; [vm_compute; reflexivity|].
  split; [vm_compute; reflexivity|].
  split; [vm_compute; reflexivity|].
  split; [vm_compute; reflexivity|].
  split; [vm_compute; reflexivity|].
  split; [vm_compute; reflexivity|].
  split; [vm_compute; reflexivity|].
  split; [vm_compute; reflexivity|].
  split; [vm_compute; reflexivity|].
  split; vm_compute; reflexivity.
Qed.

(** The same in training mode, where the artifact takes the weights as
    inputs and the caller declares [x] only: the buffer the artifact is
    given is again the one the model no longer has. *)
Example demo_training_stale_buffer :
  _inputs (result_or (fst demo_training_build) (demo_self [] [] []))
  = [("x", None); ("w", Some (cast_pytorch_tensor 0%nat));
     ("b", Some (cast_pytorch_tensor 1%nat))] /\
  named_buffers <$> modules (snd demo_training_build) !! 0%nat
  = Some [("b", 4%nat)] /\
  torch.device <$> tensors (snd demo_training_build) !! 1%nat = Some "cpu".
Proof.
  split; [vm_compute; reflexivity|].
  split; vm_compute; reflexivity.
Qed.

(** * Further properties of the session *)

(** ** The external actions of a construction *)

Lemma events_none w w' : events (fun _ => False) w w' -> trace w' = trace w.
Proof.
  intros [evs [Htr Hall]]. destruct evs as [|ev evs].
  - rewrite Htr. apply app_nil_r.
  - inversion Hall; subst. contradiction.
Qed.

Section Actions.

Variable E : Env.

Lemma build_pipeline_inv self w w0 :
  (if _build_nnf self
   then
     let flags_str := "-f " ++ _model_format self ++ " " in
     let flags_str :=
       flags_str ++ str_join " "
         (map (fun kv => "-f" ++ fst kv ++ "=" ++ py_str (snd kv))
              (_codegen_flags self)) in
     codegen E (_onnx_model_path self) flags_str (_workdir self) ;;;
     modify_nnfusion_rt E (rt_dir_of self) ;;;
     build E (rt_dir_of self)
   else ret tt) w = (Ok tt, w0) ->
  trace w0
  = (trace w ++
     if _build_nnf self
     then build_commands E (_workdir self) (_onnx_model_path self)
            (flags_str_of (_model_format self) (_codegen_flags self))
     else [])%list.
Proof.
  destruct (_build_nnf self).
  - unfold codegen, modify_nnfusion_rt, build, with_cd, execute, bind,
      get_world, emit, set_cwd, ret, raise. simpl.
    repeat match goal with
           | |- context [exit_ok E ?d ?c] =>
               destruct (exit_ok E d c); simpl; [|discriminate]
           end.
    intros H. inversion H. simpl.
    rewrite <- !app_assoc. reflexivity.
  - intros H. inversion H; subst. symmetry. apply app_nil_r.
Qed.

End Actions.

(** ** The output loop of the session build *)

Lemma check_output_spec flags ri ro d :
  check_output flags ri ro d = Ok tt <-> output_ok flags ro d.
Proof.
  unfold check_output, output_ok, rbind, py_assert, dict_getitem, dict_mem.
  destruct (dict_get (name d) ro) as [r|] eqn:Hget.
  - rewrite orb_true_r.
    destruct (shape_eqb_spec (shape d) (shape r)) as [Hs|Hs].
    + destruct (String.eqb_spec (dtype d) (dtype r)) as [Ht|Ht].
      * tauto.
      * split; [|tauto]. destruct (dict_get (name d) ri); discriminate.
    + split; [|tauto]. destruct (dict_get (name d) ri); discriminate.
  - rewrite orb_false_r. destruct (training_mode flags).
    + tauto.
    + split; discriminate.
Qed.

Lemma shape_ints_inv sh size : shape_ints sh = Ok size -> sh = map DInt size.
Proof.
  revert size. induction sh as [|[n|s] sh IH]; intros size H; simpl in H.
  - inversion H. reflexivity.
  - destruct (shape_ints sh) as [l|e]; [|discriminate].
    inversion H; subst. simpl. rewrite (IH l eq_refl). reflexivity.
  - discriminate.
Qed.


Section OutputLoop.

Variable E : Env.

(** One round of the loop, when it goes through. *)
Lemma bind_outputs_cons flags ri ro dev d ds acc w outs w' :
  bind_outputs E flags ri ro dev (d :: ds) acc w = (Ok outs, w') ->
  output_ok flags ro d /\
  allocatable E d /\
  exists t,
    zero_buffer E dev d t /\
    bind_outputs E flags ri ro dev ds
      (dict_set (name d) (cast_pytorch_tensor (length (tensors w))) acc)
      {| tensors := (tensors w ++ [t])%list; modules := modules w;
         cwd := cwd w; rng_pos := rng_pos w; trace := trace w |}
    = (Ok outs, w').
Proof.
  intros H. simpl in H.
  apply bind_inv in H. destruct H as [[[] [w0 [H0 H]]]|[e [_ He]]];
    [|discriminate].
  unfold lift in H0. inversion H0 as [[Hc Hw]]. subst w0. clear H0.
  apply check_output_spec in Hc.
  apply bind_inv in H. destruct H as [[ty [w0 [H0 H]]]|[e [_ He]]];
    [|discriminate].
  unfold lift in H0. inversion H0 as [[Hty Hw]]. subst w0. clear H0.
  apply bind_inv in H. destruct H as [[size [w0 [H0 H]]]|[e [_ He]]];
    [|discriminate].
  unfold lift in H0. inversion H0 as [[Hsize Hw]]. subst w0. clear H0.
  apply bind_inv in H. destruct H as [[t [w0 [H0 H]]]|[e [_ He]]];
    [|discriminate].
  unfold lift in H0. inversion H0 as [[Ht Hw]]. subst w0. clear H0.
  apply bind_inv in H. destruct H as [[l [w0 [H0 H]]]|[e [_ He]]];
    [|discriminate].
  unfold alloc_tensor, bind, get_world, set_tensors, ret in H0.
  simpl in H0. inversion H0; subst l w0. clear H0.
  split; [exact Hc|].
  unfold str2type_getitem in Hty.
  destruct (str2type E (dtype d)) as [ty'|] eqn:Hty'; [|discriminate].
  inversion Hty; subst ty'.
  unfold torch.zeros, torch.full in Ht.
  destruct (torch.bad_size size) eqn:Hbad; [discriminate|].
  apply shape_ints_inv in Hsize.
  split; [exists ty, size; auto|].
  exists t. split; [|exact H].
  exists ty, size. split; [exact Hty'|]. split; [exact Hsize|]. congruence.
Qed.

Lemma bind_outputs_spec flags ri ro dev ds : forall acc w outs w',
  bind_outputs E flags ri ro dev ds acc w = (Ok outs, w') ->
  Forall (fun d => output_ok flags ro d /\ allocatable E d) ds /\
  (exists ts, tensors w' = (tensors w ++ ts)%list /\
              Forall2 (zero_buffer E dev) ds ts) /\
  modules w' = modules w /\
  trace w' = trace w /\
  (forall i d, ds !! i = Some d ->
     (forall j d', (i < j)%nat -> ds !! j = Some d' -> name d' <> name d) ->
     dict_get (name d) outs
     = Some (cast_pytorch_tensor (length (tensors w) + i))) /\
  (forall n, ~ In n (map name ds) -> dict_get n outs = dict_get n acc).
Proof.
  induction ds as [|d ds IH]; intros acc w outs w' H.
  - simpl in H. inversion H; subst.
    split; [constructor|]. split.
    { exists []. split; [symmetry; apply app_nil_r|constructor]. }
    split; [reflexivity|]. split; [reflexivity|].
    split; [|reflexivity]. intros i d Hi. rewrite lookup_nil in Hi.
    discriminate.
  - apply bind_outputs_cons in H. destruct H as [Hok [Ha [t [Hz H]]]].
    apply IH in H. simpl in H.
    destruct H as [Hall [[ts [Hts Hzs]] [Hm [Htr [Hidx Hrest]]]]].
    split; [constructor; [split|]; assumption|]. split.
    { exists (t :: ts). split; [|constructor; assumption].
      rewrite Hts, <- app_assoc. reflexivity. }
    split; [exact Hm|]. split; [exact Htr|]. split.
    + intros [|i] d' Hi Hlast; simpl in Hi.
      * inversion Hi; subst d'. rewrite Nat.add_0_r.
        rewrite Hrest.
        { apply dict_get_set_eq. }
        intros Hin. apply in_map_iff in Hin.
        destruct Hin as [d' [Hname Hin]].
        apply list_elem_of_In, list_elem_of_lookup_1 in Hin.
        destruct Hin as [j Hj].
        apply (Hlast (S j) d'); [lia|exact Hj|exact Hname].
      * rewrite (Hidx i d' Hi).
        { rewrite length_app. simpl. do 2 f_equal. lia. }
        intros j d'' Hij Hj. apply (Hlast (S j) d''); [lia|exact Hj].
    + intros n Hn. simpl in Hn. rewrite Hrest by tauto.
      apply dict_get_set_ne. intros ->. tauto.
Qed.

End OutputLoop.

Section BuildActions.

Variable E : Env.

(** What a session build that returns has done to the outside, and to
    the store. *)
Lemma create_executor_effect self w s' w' :
  _create_executor E self w = (Ok s', w') ->
  trace w'
  = (trace w
     ++ (if _build_nnf self
         then build_commands E (_workdir self) (_onnx_model_path self)
                (flags_str_of (_model_format self) (_codegen_flags self))
         else [])
     ++ [EvLoadExecutor (rt_dir_of self)])%list.
Proof.
  unfold _create_executor. intros H.
  apply bind_inv in H. destruct H as [[rt_dir [w0 [H0 H]]]|[e [_ He]]];
    [|discriminate].
  destruct (str_contains "cuda" (_device self)) eqn:Hcuda.
  2:{ destruct (str_contains "cpu" (_device self)); [discriminate|].
      destruct (str_contains "rocm" (_device self)); discriminate. }
  inversion H0; subst rt_dir w0. clear H0.
  apply bind_inv in H. destruct H as [[[] [w0 [H0 H]]]|[e [_ He]]];
    [|discriminate].
  apply build_pipeline_inv in H0.
  apply bind_inv in H. destruct H as [[ex [w1 [H1 H]]]|[e [_ He]]];
    [|discriminate].
  assert (Htr1 : trace w1 = (trace w0 ++ [EvLoadExecutor (rt_dir_of self)])%list).
  { unfold Executor_new, bind, emit, lift in H1. simpl in H1.
    destruct (load_executor E _); inversion H1. reflexivity. }
  clear H1.
  assert (Hev : events (fun _ => False) w1 w').
  { eapply preserves_run; [|exact H]. pres. }
  apply events_none in Hev. rewrite Hev, Htr1, H0, <- app_assoc.
  reflexivity.
Qed.

End BuildActions.

(** ** What the exporter is given *)

Lemma map_M_Forall2 {S A B} (R : A -> B -> Prop) (f : A -> MS S B) xs :
  (forall x w y w', f x w = (Ok y, w') -> R x y) ->
  forall w ys w', map_M f xs w = (Ok ys, w') -> Forall2 R xs ys.
Proof.
  intros Hf. induction xs as [|x xs IH]; intros w ys w' H; simpl in H.
  - inversion H. constructor.
  - apply bind_inv in H. destruct H as [[y [w1 [H1 H]]]|[e [_ He]]];
      [|discriminate].
    apply bind_inv in H. destruct H as [[ys' [w2 [H2 H]]]|[e [_ He]]];
      [|discriminate].
    inversion H; subst. constructor; eauto.
Qed.

Lemma Module_to_result E model dev w c w' :
  Module_to E model dev w = (Ok c, w') -> c = model.
Proof.
  unfold Module_to. intros H.
  repeat (apply bind_inv in H;
          destruct H as [[? [? [_ H]]]|[e [_ He]]]; [|discriminate]).
  inversion H. reflexivity.
Qed.

Lemma deepcopy_fresh model w c w' :
  deepcopy model w = (Ok c, w') -> c = length (modules w).
Proof.
  unfold deepcopy. intros H.
  apply bind_inv in H. destruct H as [[m [w0 [H0 H]]]|[e [_ He]]];
    [|discriminate].
  assert (w0 = w).
  { unfold read_module in H0. destruct (modules w !! model); inversion H0.
    reflexivity. }
  subst w0. clear H0.
  apply bind_inv in H. destruct H as [[ps [w1 [H1 H]]]|[e [_ He]]];
    [|discriminate].
  assert (Hm1 : same_modules w w1).
  { eapply preserves_run; [|exact H1]. unfold copy_named. pres. }
  apply bind_inv in H. destruct H as [[bs [w2 [H2 H]]]|[e [_ He]]];
    [|discriminate].
  assert (Hm2 : same_modules w1 w2).
  { eapply preserves_run; [|exact H2]. unfold copy_named. pres. }
  unfold alloc_module, bind, get_world, set_modules, ret in H. simpl in H.
  inversion H. unfold same_modules in *. congruence.
Qed.

Section Exporter.

Variable E : Env.

(** Whenever [generate_sample] returns, the sample is the one of the
    descriptor. *)
Lemma generate_sample_inv desc dev w t w' :
  generate_sample E desc (Some dev) w = (Ok t, w') ->
  export_sample E dev desc t.
Proof.
  unfold generate_sample, export_sample, str2type_getitem.
  change (map (fun s => match s with DInt n => n | DSym _ => 1 end)
              (shape desc))
    with (map concrete_dim (shape desc)).
  destruct (str2type E (dtype desc)) as [ty|].
  2:{ destruct (num_classes_set desc); discriminate. }
  intros H. exists ty. split; [reflexivity|].
  destruct (num_classes_set desc) as [nc|].
  - unfold bind at 1 in H. unfold lift at 1 in H.
    unfold torch_randint, torch.randint, bind, get_world, lift, set_rng_pos,
      ret in H.
    destruct (negb _); [discriminate|].
    destruct (nc <=? 0); [discriminate|].
    destruct (_ || _); [discriminate|].
    destruct (torch.bad_size _); [discriminate|].
    simpl in H. inversion H. auto.
  - unfold bind at 1 in H. unfold lift at 1 in H.
    unfold torch.ones, torch.full, bind, lift, ret in H.
    destruct (torch.bad_size _); [discriminate|].
    inversion H. auto.
Qed.

Lemma torch_onnx_export_trace c a w w' :
  torch_onnx_export E c a w = (Ok tt, w') ->
  trace w' = (trace w ++ [EvOnnxExport c a])%list.
Proof.
  unfold torch_onnx_export. intros H.
  apply bind_inv in H. destruct H as [[[] [w0 [H0 H]]]|[e [_ He]]];
    [|discriminate].
  unfold emit in H0. inversion H0; subst w0. clear H0.
  assert (Hev : events (fun _ => False)
                  {| tensors := tensors w; modules := modules w;
                     cwd := cwd w; rng_pos := rng_pos w;
                     trace := (trace w ++ [EvOnnxExport c a])%list |} w').
  { eapply preserves_run; [|exact H]. pres. }
  apply events_none in Hev. exact Hev.
Qed.

Lemma convert_model_to_onnx_export model md dev f cf w r w' :
  convert_model_to_onnx E model md dev f cf w = (Ok r, w') ->
  r = model /\
  exists c sample_inputs sample_outputs,
    trace w'
    = (trace w
       ++ [EvOnnxExport c
             {| ea_args := sample_inputs;
                ea_f := f;
                ea_input_names := map name (inputs md);
                ea_output_names := map name (outputs md);
                ea_opset_version := 12;
                ea_retain_param_name := true;
                ea_example_outputs := sample_outputs;
                ea_do_constant_folding := cf |}])%list /\
    (length (modules w) <= c)%nat /\
    Forall2 (export_sample E dev) (inputs md) sample_inputs /\
    Forall2 (export_sample E dev) (outputs md) sample_outputs.
Proof.
  unfold convert_model_to_onnx. intros H.
  apply bind_inv in H. destruct H as [[c0 [w1 [H1 H]]]|[e [_ He]]];
    [|discriminate].
  assert (Hev1 : events (fun _ => False) w w1).
  { eapply preserves_run; [|exact H1]. pres. }
  assert (Hg1 : grows w w1).
  { eapply preserves_run; [|exact H1]. pres. }
  clear H1. cbv zeta in H.
  apply bind_inv in H. destruct H as [[si [w2 [H2 H]]]|[e [_ He]]];
    [|discriminate].
  assert (Hev2 : events (fun _ => False) w1 w2).
  { eapply preserves_run; [|exact H2]. pres. }
  assert (Hg2 : grows w1 w2).
  { eapply preserves_run; [|exact H2]. pres. }
  apply (map_M_Forall2 (export_sample E dev)) in H2;
    [|intros; eapply generate_sample_inv; eassumption].
  apply bind_inv in H. destruct H as [[so [w3 [H3 H]]]|[e [_ He]]];
    [|discriminate].
  assert (Hev3 : events (fun _ => False) w2 w3).
  { eapply preserves_run; [|exact H3]. pres. }
  assert (Hg3 : grows w2 w3).
  { eapply preserves_run; [|exact H3]. pres. }
  apply (map_M_Forall2 (export_sample E dev)) in H3;
    [|intros; eapply generate_sample_inv; eassumption].
  apply bind_inv in H. destruct H as [[c [w4 [H4 H]]]|[e [_ He]]];
    [|discriminate].
  assert (Hev4 : events (fun _ => False) w3 w4).
  { eapply preserves_run; [|exact H4]. pres. }
  assert (Hc : c = length (modules w3)).
  { apply bind_inv in H4.
    destruct H4 as [[c1 [w5 [H5 H4]]]|[e [_ He]]]; [|discriminate].
    apply deepcopy_fresh in H5. apply Module_to_result in H4. congruence. }
  clear H4.
  apply bind_inv in H. destruct H as [[[] [w5 [H5 H]]]|[e [_ He]]];
    [|discriminate].
  apply torch_onnx_export_trace in H5.
  inversion H; subst r w5. clear H.
  split; [reflexivity|]. exists c, si, so.
  apply events_none in Hev1, Hev2, Hev3, Hev4.
  split; [rewrite H5; congruence|].
  split; [|split; assumption].
  destruct Hg1 as [_ Hg1], Hg2 as [_ Hg2], Hg3 as [_ Hg3]. subst c. lia.
Qed.

End Exporter.

Section OutputBinding.

Variable E : Env.

Lemma create_executor_outputs self w s' w' :
  _create_executor E self w = (Ok s', w') ->
  exists ex ts,
    _executor s' = Some ex /\
    load_executor E (rt_dir_of self) = Ok ex /\
    tensors w' = (tensors w ++ ts)%list /\
    modules w' = modules w /\
    Forall2 (zero_buffer E (_device self)) (get_outputs ex) ts /\
    Forall (fun d => output_ok (_codegen_flags self) (real_outputs_of self) d
                     /\ allocatable E d)
           (get_outputs ex) /\
    (forall i d, get_outputs ex !! i = Some d ->
       (forall j d', (i < j)%nat -> get_outputs ex !! j = Some d' ->
                     name d' <> name d) ->
       dict_get (name d) (_outputs s')
       = Some (cast_pytorch_tensor (length (tensors w) + i))) /\
    (forall n, ~ In n (map name (get_outputs ex)) ->
               dict_get n (_outputs s') = None).
Proof.
  intros H. apply create_executor_inv in H.
  destruct H as [ex [w1 [ri [ins [outs [_ [Hload [[Ht Hm] [_ [_ [_ [Hb Hs]]]]]]]]]]]].
  apply bind_outputs_spec in Hb.
  destruct Hb as [Hok [[ts [Hts Hz]] [Hm' [_ [Hidx Hrest]]]]].
  exists ex, ts. subst s'. cbn [_executor _outputs set_outputs set_inputs
                                 set_executor].
  split; [reflexivity|]. split; [exact Hload|].
  split; [congruence|]. split; [congruence|].
  split; [exact Hz|]. split; [exact Hok|].
  split.
  - intros i d Hi Hlast. rewrite <- Ht. apply Hidx; assumption.
  - intros n Hn. rewrite Hrest by exact Hn. reflexivity.
Qed.



End OutputBinding.

(** ** The device and the training-mode inputs *)

Section EarlyChecks.

Variable E : Env.

Lemma create_executor_unsupported_device self w :
  str_contains "cuda" (_device self) = false ->
  _create_executor E self w
  = (Raise (unsupported_device_error (_device self)), w).
Proof.
  intros Hcuda. unfold _create_executor, unsupported_device_error.
  unfold bind at 1. rewrite Hcuda.
  destruct (str_contains "cpu" (_device self)); [reflexivity|].
  destruct (str_contains "rocm" (_device self)); reflexivity.
Qed.

Lemma init_unsupported_device model input_desc device output_desc workdir
    model_format const_folding build_nnf codegen_flags w :
  str_contains "cuda" device = false ->
  exists e w',
    __init__ E model input_desc device output_desc workdir model_format
             const_folding build_nnf codegen_flags w = (Raise e, w') /\
    events (fun ev => is_build_event ev = false) w w'.
Proof.
  intros Hcuda.
  destruct (__init__ E model input_desc device output_desc workdir
                     model_format const_folding build_nnf codegen_flags w)
    as [[s|e] w'] eqn:Hrun.
  - exfalso. apply init_inv in Hrun.
    destruct Hrun as [m [od [dctx [wd [path [w1 [_ [_ [_ [_ Hrun]]]]]]]]]].
    apply create_executor_inv in Hrun.
    destruct Hrun as [ex [w2 [ri [ins [outs [Hc _]]]]]].
    cbn [_device] in Hc. congruence.
  - exists e, w'. split; [reflexivity|].
    eapply preserves_run; [|exact Hrun].
    unfold __init__.
    assert (Hc : forall self, _device self = device ->
               preserves (events (fun ev => is_build_event ev = false))
                         (_create_executor E self)).
    { intros self Hd w0. rewrite create_executor_unsupported_device
        by (rewrite Hd; exact Hcuda).
      reflexivity. }
    assert (Hx : forall md f,
               preserves (events (fun ev => is_build_event ev = false))
                 (convert_model_to_onnx E model md device f const_folding)).
    { intros. apply convert_model_to_onnx_events. reflexivity. }
    pres; apply perform_events; reflexivity.
Qed.

(** The weights loop of training mode goes through only when no weight
    has the name of a caller input. *)
Lemma add_weight_descs_fresh items : forall ri w ri' w',
  add_weight_descs E items ri w = (Ok ri', w') ->
  forall n, In n (map fst items) -> dict_mem n ri = false.
Proof.
  induction items as [|[k l] items IH]; intros ri w ri' w' H n Hn;
    simpl in *.
  - destruct Hn.
  - apply bind_inv in H. destruct H as [[[] [w0 [H0 H]]]|[e [_ He]]];
      [|discriminate].
    unfold lift, py_assert in H0.
    destruct (dict_mem k ri) eqn:Hk; simpl in H0; [discriminate|].
    inversion H0; subst w0. clear H0.
    apply bind_inv in H. destruct H as [[t [w0 [H0 H]]]|[e [_ He]]];
      [|discriminate].
    apply bind_inv in H. destruct H as [[d [w1 [H1 H]]]|[e [_ He]]];
      [|discriminate].
    destruct Hn as [Hn|Hn]; [subst n; exact Hk|].
    pose proof (IH _ _ _ _ H n Hn) as Hmem.
    rewrite dict_mem_set in Hmem. apply orb_false_iff in Hmem. tauto.
Qed.

Lemma add_weight_descs_duplicate pre n l post : forall ri w,
  Forall (fun kv => dict_mem (fst kv) ri = false /\ describable E w kv) pre ->
  List.NoDup (map fst pre) ->
  ~ In n (map fst pre) ->
  dict_mem n ri = true ->
  add_weight_descs E (pre ++ (n, l) :: post) ri w
  = (Raise (AssertionError (msg_duplicate n)), w).
Proof.
  induction pre as [|[k lk] pre IH]; intros ri w Hall Hnd Hn Hmem; simpl.
  - unfold bind, lift, py_assert. rewrite Hmem. reflexivity.
  - inversion Hall as [|kv pre0 [Hk [t [d [Ht Hd]]]] Hrest]; subst.
    simpl in Hk, Ht, Hd. inversion Hnd as [|k0 ks Hnotin Hnd']; subst.
    unfold bind at 1. unfold lift at 1. unfold py_assert. rewrite Hk.
    cbn [negb]. unfold bind at 1. unfold read_tensor. rewrite Ht.
    unfold bind at 1. unfold lift at 1. rewrite Hd.
    apply IH.
    + apply List.Forall_forall. intros kv Hkv.
      rewrite List.Forall_forall in Hrest. destruct (Hrest kv Hkv) as [H1 H2].
      split; [|exact H2].
      rewrite dict_mem_set, H1, orb_false_r.
      apply String.eqb_neq. intros Heq. apply Hnotin.
      rewrite <- Heq. apply in_map. exact Hkv.
    + exact Hnd'.
    + simpl in Hn. tauto.
    + rewrite dict_mem_set, Hmem. apply orb_true_r.
Qed.

(** When the weights loop raises, the session build raises the same. *)
Lemma create_executor_weights_error self w ex e :
  str_contains "cuda" (_device self) = true ->
  (forall d c, exit_ok E d c = true) ->
  load_executor E (rt_dir_of self) = Ok ex ->
  real_inputs_of E self w = Raise e ->
  exists w', _create_executor E self w = (Raise e, w') /\ same_store w w'.
Proof.
  intros Hcuda Hexit Hload Hri.
  unfold _create_executor. rewrite Hcuda.
  rewrite (bind_ok _ _ w _ w) by reflexivity.
  destruct (build_pipeline_ok E self w Hexit) as [w0 [Hb Hs0]].
  fold (rt_dir_of self).
  rewrite (bind_ok _ _ w tt w0) by exact Hb.
  assert (Hnew : exists w1, Executor_new E (rt_dir_of self) w0 = (Ok ex, w1)
                            /\ same_store w0 w1).
  { unfold Executor_new, bind, emit, lift. simpl. rewrite Hload.
    eexists. split; [reflexivity|]. split; reflexivity. }
  destruct Hnew as [w1 [Hnew Hs1]].
  rewrite (bind_ok _ _ w0 ex w1) by exact Hnew.
  assert (Hw : forall items ri0 wa wb, tensors wa = tensors wb ->
             fst (add_weight_descs E items ri0 wa)
             = fst (add_weight_descs E items ri0 wb)).
  { clear. induction items as [|[n l] items IH]; intros ri0 wa wb Hab;
      simpl; [reflexivity|].
    unfold bind, lift, read_tensor. rewrite Hab.
    destruct (py_assert _ _); [|reflexivity].
    destruct (tensors wb !! l); [|reflexivity].
    destruct (tensor2desc E _ _); [|reflexivity].
    apply IH, Hab. }
  exists w1. split; [|etransitivity; eassumption].
  apply bind_raise.
  cbn [_codegen_flags _torch_weights _input_desc set_executor].
  unfold real_inputs_of in Hri.
  destruct (training_mode (_codegen_flags self)); [|discriminate].
  pose proof (add_weight_descs_same E (_torch_weights self)
                (dict_of_items (map (fun desc => (name desc, desc))
                                    (_input_desc self))) w1) as Hsame.
  rewrite (Hw _ _ w w1) in Hri
    by (destruct Hs0 as [Ha _], Hs1 as [Hb' _]; congruence).
  destruct (add_weight_descs E _ _ w1) as [r w2]. simpl in *. congruence.
Qed.

End EarlyChecks.

(** ** Feeding the session *)

Section DictKeys.

Context {V : Type}.
Implicit Types (k : string) (v : V) (d : dict V).

Lemma dict_set_keys k v d :
  dict_mem k d = true -> map fst (dict_set k v d) = map fst d.
Proof.
  induction d as [|[k' v'] d IH]; simpl.
  - discriminate.
  - unfold dict_mem. simpl.
    destruct (String.eqb_spec k k') as [->|Hne]; simpl.
    + reflexivity.
    + intros H. f_equal. apply IH. exact H.
Qed.

Lemma dict_get_None_keys {U : Type} k (d : dict U) :
  dict_get k d = None <-> ~ In k (map fst d).
Proof.
  rewrite <- dict_mem_false. split.
  - intros H Hin. apply dict_mem_keys in Hin. congruence.
  - intros H. destruct (dict_mem k d) eqn:Hm; [|reflexivity].
    apply dict_mem_keys in Hm. tauto.
Qed.

End DictKeys.

Lemma feed_inputs_app (feed1 feed2 : dict loc) ins :
  feed_inputs (feed1 ++ feed2)%list ins
  = feed_inputs feed2 (feed_inputs feed1 ins).
Proof. unfold feed_inputs. apply fold_left_app. Qed.

Lemma feed_inputs_keys feed : forall ins,
  map fst (feed_inputs feed ins) = map fst ins.
Proof.
  induction feed as [|[n l] feed IH]; intros ins; simpl.
  - reflexivity.
  - destruct (dict_mem n ins) eqn:Hm; rewrite IH; [|reflexivity].
    apply dict_set_keys. exact Hm.
Qed.

Lemma feed_inputs_mem feed ins n :
  dict_mem n (feed_inputs feed ins) = dict_mem n ins.
Proof.
  destruct (dict_mem n ins) eqn:Hm.
  - apply dict_mem_keys. rewrite feed_inputs_keys. apply dict_mem_keys, Hm.
  - destruct (dict_mem n (feed_inputs feed ins)) eqn:Hm'; [|reflexivity].
    apply dict_mem_keys in Hm'. rewrite feed_inputs_keys in Hm'.
    apply dict_mem_keys in Hm'. congruence.
Qed.

Lemma feed_inputs_other feed n : forall ins,
  ~ In n (map fst feed) ->
  dict_get n (feed_inputs feed ins) = dict_get n ins.
Proof.
  induction feed as [|[k l] feed IH]; intros ins Hn; simpl in *.
  - reflexivity.
  - rewrite IH by tauto.
    destruct (dict_mem k ins); [|reflexivity].
    apply dict_get_set_ne. intros ->. tauto.
Qed.

Lemma feed_inputs_fed pre n l post ins :
  ~ In n (map fst post) ->
  dict_mem n ins = true ->
  dict_get n (feed_inputs (pre ++ (n, l) :: post)%list ins)
  = Some (Some (cast_pytorch_tensor l)).
Proof.
  intros Hpost Hmem. rewrite feed_inputs_app. simpl.
  rewrite feed_inputs_mem, Hmem.
  rewrite feed_inputs_other by exact Hpost.
  apply dict_get_set_eq.
Qed.

Lemma NoDup_keys_split {V} (feed : dict V) n l :
  List.NoDup (map fst feed) -> In (n, l) feed ->
  exists pre post, feed = (pre ++ (n, l) :: post)%list /\
                   ~ In n (map fst pre) /\ ~ In n (map fst post).
Proof.
  intros Hnd Hin. apply in_split in Hin. destruct Hin as [pre [post ->]].
  exists pre, post. split; [reflexivity|].
  rewrite map_app in Hnd. simpl in Hnd.
  apply NoDup_remove_2 in Hnd. rewrite in_app_iff in Hnd. tauto.
Qed.

(** Every run, whether it returns or raises, leaves the session with the
    feeds taken in and nothing else changed. *)
Lemma run_by_nnf_state feed chk s w r s1 w1 :
  run_by_nnf feed chk (s, w) = (r, (s1, w1)) ->
  s1 = set_inputs s (feed_inputs feed (_inputs s)).
Proof.
  rewrite run_by_nnf_eq. cbv zeta.
  destruct (_executor s) as [ex|]; [|intros H; inversion H; reflexivity].
  destruct (Executor_call ex _ (_outputs s) w) as [[[]|e] w2];
    [|intros H; inversion H; reflexivity].
  destruct (if chk then _ else _) as [[[|]|e] w3];
    try (intros H; inversion H; reflexivity).
  pose proof (collect_outputs_spec (_outputs s) (_output_desc s)
                (set_inputs s (feed_inputs feed (_inputs s)), w3)) as Hcol.
  intros Hrun. rewrite Hrun in Hcol.
  destruct r as [outs|e]; destruct Hcol as [Hst _]; inversion Hst;
    reflexivity.
Qed.

Lemma run_by_nnf_modules feed chk s w r s1 w1 :
  run_by_nnf feed chk (s, w) = (r, (s1, w1)) -> modules w1 = modules w.
Proof.
  rewrite run_by_nnf_eq. cbv zeta.
  destruct (_executor s) as [ex|]; [|intros H; inversion H; reflexivity].
  pose proof (Executor_call_spec ex
                (_inputs (set_inputs s (feed_inputs feed (_inputs s))))
                (_outputs s) w) as Hcall.
  destruct (Executor_call ex _ (_outputs s) w) as [[[]|e] w2].
  2:{ destruct Hcall as [_ [_ [Hm _]]]. intros H; inversion H; subst.
      exact Hm. }
  destruct Hcall as [writes [_ [_ [Hm _]]]].
  assert (Hscan : forall r0 w3,
             (if chk
              then is_weights_nan
                     (set_inputs s (feed_inputs feed (_inputs s))) w2
              else (Ok false, w2)) = (r0, w3) -> modules w3 = modules w2).
  { intros r0 w3 Hr. destruct chk.
    - pose proof (is_weights_nan_same_store
                    (set_inputs s (feed_inputs feed (_inputs s))) w2) as Hp.
      rewrite Hr in Hp. destruct Hp as [_ Hp]. exact Hp.
    - inversion Hr. reflexivity. }
  destruct (if chk then _ else _) as [[[|]|e] w3] eqn:Hchk;
    specialize (Hscan _ _ eq_refl);
    try (intros H; inversion H; subst; congruence).
  pose proof (collect_outputs_spec (_outputs s) (_output_desc s)
                (set_inputs s (feed_inputs feed (_inputs s)), w3)) as Hcol.
  intros Hrun. rewrite Hrun in Hcol.
  destruct r as [outs|e]; destruct Hcol as [Hst _]; inversion Hst;
    congruence.
Qed.

(** ** Outputs the artifact does not produce, and the NaN policy *)

Lemma collect_outputs_missing (outs : dict DataFormat) pre d post
    (st : PTSession * World) :
  Forall (fun d' => dict_mem (name d') outs = true) pre ->
  dict_get (name d) outs = None ->
  map_M (fun desc =>
           b <- lift (dict_getitem (name desc) outs) ;;
           ret (reference b)) (pre ++ d :: post) st
  = (Raise (KeyError (name d)), st).
Proof.
  intros Hpre Hd. induction Hpre as [|d' pre Hd' Hpre IH]; simpl.
  - assert (Hg : dict_getitem (name d) outs = Raise (KeyError (name d)))
      by (unfold dict_getitem; rewrite Hd; reflexivity).
    unfold bind at 1. unfold bind at 1. unfold lift at 1. rewrite Hg.
    reflexivity.
  - apply dict_mem_true in Hd'. destruct Hd' as [b Hb].
    assert (Hg : dict_getitem (name d') outs = Ok b)
      by (unfold dict_getitem; rewrite Hb; reflexivity).
    unfold bind at 1. unfold bind at 1. unfold lift at 1. rewrite Hg.
    cbn [ret]. unfold bind at 1. rewrite IH. reflexivity.
Qed.

Lemma run_by_nnf_missing_output feed s w ex writes pre d post :
  _executor s = Some ex ->
  kernel ex (feed_inputs feed (_inputs s)) (_outputs s) (tensors w)
  = Ok writes ->
  _output_desc s = (pre ++ d :: post)%list ->
  Forall (fun d' => dict_mem (name d') (_outputs s) = true) pre ->
  dict_get (name d) (_outputs s) = None ->
  exists s1 w1,
    run_by_nnf feed false (s, w) = (Raise (KeyError (name d)), (s1, w1)) /\
    tensors w1 = apply_writes writes (tensors w) /\
    trace w1 = (trace w ++ [EvInvoke])%list.
Proof.
  intros Hex Hk Hdesc Hpre Hd. rewrite run_by_nnf_eq. cbv zeta. rewrite Hex.
  pose proof (Executor_call_spec ex
                (_inputs (set_inputs s (feed_inputs feed (_inputs s))))
                (_outputs s) w) as Hcall.
  assert (Hfed : _inputs (set_inputs s (feed_inputs feed (_inputs s)))
                 = feed_inputs feed (_inputs s)) by reflexivity.
  rewrite Hfed in Hcall.
  destruct (Executor_call ex _ (_outputs s) w) as [[[]|e] w2].
  - destruct Hcall as [writes' [Hk' [Ht [_ Htr]]]].
    assert (writes' = writes) by congruence. subst writes'.
    rewrite Hdesc. rewrite (collect_outputs_missing _ _ _ _ _ Hpre Hd).
    eexists. exists w2. split; [reflexivity|]. auto.
  - destruct Hcall as [Hk' _]. congruence.
Qed.

Lemma weights_nan_loop_clean items : forall acc w,
  Forall (fun kv => is_Some (tensors w !! snd kv) /\
                    offending (tensors w) kv = false) items ->
  weights_nan_loop items acc w = (Ok acc, w).
Proof.
  induction items as [|[n l] items IH]; intros acc w Hall; simpl.
  - reflexivity.
  - inversion Hall as [|kv items' [[t Ht] Hoff] Hrest]; subst.
    simpl in Ht. unfold offending in Hoff. simpl in Hoff. rewrite Ht in Hoff.
    unfold bind at 1. unfold read_tensor. rewrite Ht, Hoff.
    apply IH. exact Hrest.
Qed.

(** ** Contract inference on any model *)

Section InferenceAny.

Variable E : Env.

Lemma tensor2desc_inv t n o :
  tensor2desc E t n = Ok o -> name o = n /\ described_by E t o.
Proof.
  unfold tensor2desc, str2type_getitem. fold (dtype_name (torch.dtype_of t)).
  destruct (str2type E (dtype_name (torch.dtype_of t))) as [ty|] eqn:Hty;
    [|discriminate].
  intros H. inversion H; subst o. simpl. split; [reflexivity|].
  split; [reflexivity|]. split; [reflexivity|]. exists ty. auto.
Qed.

Lemma output_descs_inv ts : forall i od,
  output_descs E i ts = Ok od ->
  map name od = output_names i (length ts) /\
  Forall2 (described_by E) ts od.
Proof.
  induction ts as [|t ts IH]; intros i od H.
  - simpl in H. inversion H. split; [reflexivity|constructor].
  - change (output_descs E i (t :: ts))
      with (match tensor2desc E t ("output_" ++ str_of_Z (Z.of_nat i)) with
            | Ok d0 =>
                match output_descs E (S i) ts with
                | Ok ds => Ok (d0 :: ds)
                | Raise e => Raise e
                end
            | Raise e => Raise e
            end) in H.
    destruct (tensor2desc E t _) as [d0|e] eqn:Hd; [|discriminate].
    destruct (output_descs E (S i) ts) as [ds|e] eqn:Hds; [|discriminate].
    inversion H; subst od.
    apply tensor2desc_inv in Hd. destruct Hd as [Hn Hd].
    destruct (IH _ _ Hds) as [Hnames Hall].
    split; [|constructor; assumption].
    simpl. unfold output_names in *. simpl. rewrite Hnames, Hn. reflexivity.
Qed.

Lemma generate_output_desc_inv model input_desc device w od w' :
  generate_output_desc E model input_desc device w = (Ok od, w') ->
  exists c fake_inputs out w3,
    Forall2 (export_sample E device) input_desc fake_inputs /\
    (length (modules w) <= c)%nat /\
    call_module c fake_inputs w3 = (Ok out, w') /\
    Forall2 (described_by E) (unwrap out) od /\
    map name od = output_names 0 (length od).
Proof.
  unfold generate_output_desc. intros H.
  apply bind_inv in H. destruct H as [[fake [w1 [H1 H]]]|[e [_ He]]];
    [|discriminate].
  assert (Hg1 : grows w w1).
  { eapply preserves_run; [|exact H1]. pres. }
  apply (map_M_Forall2 (export_sample E device)) in H1;
    [|intros; eapply generate_sample_inv; eassumption].
  apply bind_inv in H. destruct H as [[c [w2 [H2 H]]]|[e [_ He]]];
    [|discriminate].
  assert (Hc : c = length (modules w1)).
  { apply bind_inv in H2.
    destruct H2 as [[c1 [w5 [H5 H2]]]|[e [_ He]]]; [|discriminate].
    apply deepcopy_fresh in H5. apply Module_to_result in H2. congruence. }
  apply bind_inv in H. destruct H as [[out [w3 [H3 H]]]|[e [_ He]]];
    [|discriminate].
  unfold lift in H. fold (unwrap out) in H.
  destruct (output_descs E 0 (unwrap out)) as [od'|e] eqn:Hod;
    inversion H; subst od' w3.
  apply output_descs_inv in Hod. destruct Hod as [Hnames Hall].
  exists c, fake, out, w2. split; [exact H1|].
  split; [destruct Hg1; lia|]. split; [exact H3|]. split; [exact Hall|].
  rewrite Hnames. f_equal. eapply Forall2_length. exact Hall.
Qed.

Lemma described_by_concrete t o :
  described_by E t o -> Forall is_concrete (shape o).
Proof.
  intros [Hs _]. rewrite Hs. apply List.Forall_map.
  apply List.Forall_forall. intros x _. exact I.
Qed.

End InferenceAny.

(** ** The flags and the store of a constructed session *)

Lemma dict_get_update_Some {V} k (v : V) d (items : list (string * V)) :
  List.NoDup (map fst items) ->
  dict_get k items = Some v ->
  dict_get k (dict_update d items) = Some v.
Proof.
  unfold dict_update. revert d.
  induction items as [|[k0 v0] items IH]; intros d Hnd Hget; simpl in *.
  - discriminate.
  - inversion Hnd as [|k1 ks Hnotin Hnd']; subst.
    destruct (String.eqb_spec k k0) as [->|Hne].
    + inversion Hget; subst v0.
      change (fold_left (fun acc kv => dict_set (fst kv) (snd kv) acc) items
                        (dict_set k0 v d))
        with (dict_update (dict_set k0 v d) items).
      rewrite dict_get_update_None.
      * apply dict_get_set_eq.
      * apply dict_get_None_keys. exact Hnotin.
    + apply IH; assumption.
Qed.

Section SessionInvariants.

Variable E : Env.

Lemma init_flags model input_desc device output_desc workdir model_format
    const_folding build_nnf codegen_flags w s w' :
  __init__ E model input_desc device output_desc workdir model_format
           const_folding build_nnf codegen_flags w = (Ok s, w') ->
  _codegen_flags s = merged_flags codegen_flags /\
  _const_folding s = const_folding /\
  training_mode (merged_flags codegen_flags) && const_folding = false /\
  truthy (dict_get_default "extern_result_memory" PyNone
                           (merged_flags codegen_flags)) = true /\
  str_contains "cuda" device = true /\
  _device s = device /\ _model s = model /\ _input_desc s = input_desc.
Proof.
  unfold __init__. intros H.
  do 6 (apply bind_inv in H;
        destruct H as [[? [? [_ H]]]|[e [_ He]]]; [|discriminate]).
  apply bind_inv in H. destruct H as [[[] [w5 [H5 H]]]|[e [_ He]]];
    [|discriminate].
  fold (merged_flags codegen_flags) in H5, H.
  destruct (training_mode (merged_flags codegen_flags) && const_folding)
    eqn:Hcheck; [discriminate|].
  apply create_executor_inv in H.
  destruct H as [ex [wb [ri [ins [outs [Hcuda [_ [_ [_ [_ [Hflag [_ Hs]]]]]]]]]]]].
  cbn [_device _codegen_flags] in Hcuda, Hflag. subst s.
  cbn [_codegen_flags _const_folding _device _model _input_desc set_outputs
       set_inputs set_executor].
  auto 10.
Qed.

End SessionInvariants.

(** ** What a construction leaves alone *)

Lemma same_store_untouched {A} (m : M A) :
  preserves same_store m -> preserves untouched m.
Proof.
  intros H w. eapply untouched_same_store; [apply H|reflexivity].
Qed.

Lemma alloc_tensor_untouched t : preserves untouched (alloc_tensor t).
Proof.
  intros w. split; simpl; [|auto].
  intros l t' Hl. apply lookup_app_l_Some. exact Hl.
Qed.

Section LeftAlone.

Variable E : Env.

Lemma bind_outputs_untouched flags ri ro dev ds acc :
  preserves untouched (bind_outputs E flags ri ro dev ds acc).
Proof.
  assert (Ha : forall t, preserves untouched (alloc_tensor t))
    by apply alloc_tensor_untouched.
  revert acc. induction ds as [|d ds IH]; intros acc; simpl; pres.
Qed.

Lemma create_executor_untouched self :
  preserves untouched (_create_executor E self).
Proof.
  unfold _create_executor.
  assert (H1 : forall p f o, preserves untouched (codegen E p f o))
    by (intros; apply same_store_untouched; pres).
  assert (H2 : forall d, preserves untouched (modify_nnfusion_rt E d))
    by (intros; apply same_store_untouched; pres).
  assert (H3 : forall d, preserves untouched (build E d))
    by (intros; apply same_store_untouched; pres).
  assert (H4 : forall d, preserves untouched (Executor_new E d))
    by (intros; apply same_store_untouched; pres).
  assert (H5 : forall flags ri ro dev ds acc,
             preserves untouched (bind_outputs E flags ri ro dev ds acc))
    by apply bind_outputs_untouched.
  pres.
Qed.

Lemma generate_output_desc_untouched model input_desc dev :
  preserves untouched (generate_output_desc E model input_desc dev).
Proof.
  intros w.
  pose proof (frame_generate_output_desc w E model input_desc dev w
                (reflexivity w)) as H.
  destruct (generate_output_desc E model input_desc dev w) as [[od|e] w'];
    exact H.
Qed.

Lemma init_untouched model input_desc device output_desc workdir
    model_format const_folding codegen_flags :
  preserves untouched
    (__init__ E model input_desc device output_desc workdir model_format
              const_folding false codegen_flags).
Proof.
  unfold __init__.
  assert (H1 : forall self, preserves untouched (_create_executor E self))
    by apply create_executor_untouched.
  assert (H2 : forall m i d,
             preserves untouched (generate_output_desc E m i d))
    by apply generate_output_desc_untouched.
  assert (H3 : forall ev, preserves untouched (perform E ev))
    by (intros; apply same_store_untouched; pres).
  pres.
Qed.

End LeftAlone.

(** ** The weight set and the move of the model *)

Section DictOrder.

Context {V : Type}.
Implicit Types (k : string) (v : V) (d : dict V).

Lemma dict_set_NoDup k v d :
  List.NoDup (map fst d) -> List.NoDup (map fst (dict_set k v d)).
Proof.
  induction d as [|[k' v'] d IH]; intros Hnd; simpl.
  - constructor; [intros []|constructor].
  - inversion Hnd as [|k0 ks Hnotin Hnd']; subst.
    destruct (String.eqb_spec k k') as [->|Hne]; simpl.
    + constructor; assumption.
    + constructor; [|apply IH; exact Hnd'].
      intros Hin. apply dict_mem_keys in Hin. rewrite dict_mem_set in Hin.
      apply orb_true_iff in Hin. destruct Hin as [Hin|Hin].
      * apply String.eqb_eq in Hin. congruence.
      * apply dict_mem_keys in Hin. tauto.
Qed.

Lemma dict_update_NoDup d (items : list (string * V)) :
  List.NoDup (map fst d) -> List.NoDup (map fst (dict_update d items)).
Proof.
  unfold dict_update. revert d.
  induction items as [|[k v] items IH]; intros d Hnd; simpl.
  - exact Hnd.
  - apply IH, dict_set_NoDup, Hnd.
Qed.

Lemma dict_of_items_NoDup (items : list (string * V)) :
  List.NoDup (map fst (dict_of_items items)).
Proof. apply dict_update_NoDup. constructor. Qed.

Lemma dict_get_In k v d :
  List.NoDup (map fst d) -> In (k, v) d -> dict_get k d = Some v.
Proof.
  induction d as [|[k' v'] d IH]; intros Hnd Hin; simpl in *.
  - destruct Hin.
  - inversion Hnd as [|k0 ks Hnotin Hnd']; subst.
    destruct Hin as [Heq|Hin].
    + inversion Heq; subst. rewrite String.eqb_refl. reflexivity.
    + destruct (String.eqb_spec k k') as [->|Hne].
      * exfalso. apply Hnotin. apply (in_map fst _ (k', v)). exact Hin.
      * apply IH; assumption.
Qed.

Lemma dict_get_of_items k v (items : list (string * V)) :
  List.NoDup (map fst items) -> In (k, v) items ->
  dict_get k (dict_of_items items) = Some v.
Proof.
  intros Hnd Hin. unfold dict_of_items.
  apply dict_get_update_Some; [exact Hnd|]. apply dict_get_In; assumption.
Qed.

End DictOrder.

Lemma buffer_to_inv dev p w p' w' :
  buffer_to dev p w = (Ok p', w') ->
  untouched w w' /\ fst p' = fst p /\
  exists t, tensors w !! snd p = Some t /\
            (String.eqb (torch.device t) dev = false ->
             snd p' = length (tensors w)).
Proof.
  intros H.
  assert (Hu : untouched w w').
  { eapply preserves_run; [|exact H]. apply buffer_to_untouched. }
  split; [exact Hu|].
  unfold buffer_to, bind, read_tensor in H.
  destruct (tensors w !! snd p) as [t|]; [|discriminate].
  destruct (String.eqb (torch.device t) dev) eqn:Hdev.
  - inversion H; subst. split; [reflexivity|]. exists t.
    split; [reflexivity|intros Hd; congruence].
  - unfold alloc_tensor, bind, get_world, set_tensors, ret in H.
    simpl in H. inversion H; subst. split; [reflexivity|].
    exists t. split; reflexivity.
Qed.

Lemma buffers_to_rebinds dev bs : forall w bs' w',
  map_M (buffer_to dev) bs w = (Ok bs', w') ->
  map fst bs' = map fst bs /\
  forall n l t, In (n, l) bs -> tensors w !! l = Some t ->
                String.eqb (torch.device t) dev = false ->
                exists l', In (n, l') bs' /\ (length (tensors w) <= l')%nat.
Proof.
  induction bs as [|p bs IH]; intros w bs' w' H; simpl in H.
  - inversion H. split; [reflexivity|]. intros n l t [].
  - apply bind_inv in H. destruct H as [[p' [w1 [H1 H]]]|[e [_ He]]];
      [|discriminate].
    apply bind_inv in H. destruct H as [[bs'' [w2 [H2 H]]]|[e [_ He]]];
      [|discriminate].
    inversion H; subst bs' w2. clear H.
    apply buffer_to_inv in H1.
    destruct H1 as [Hu [Hfst [t0 [Ht0 Hnew]]]].
    destruct (IH _ _ _ H2) as [Hnames Hrest].
    split; [simpl; congruence|].
    intros n l t [Heq|Hin] Ht Hdev.
    + subst p. simpl in Ht0, Hfst, Hnew.
      assert (t0 = t) by congruence. subst t0.
      exists (snd p'). split.
      * left. destruct p' as [n' l']. simpl in *. congruence.
      * rewrite (Hnew Hdev). lia.
    + pose proof (untouched_length w w1 Hu) as [Hg _].
      destruct Hu as [Hut _].
      destruct (Hrest n l t Hin (Hut _ _ Ht) Hdev) as [l' [Hl' Hlen]].
      exists l'. split; [right; exact Hl'|]. lia.
Qed.

Lemma Module_to_buffers E model dev m w c w' :
  modules w !! model = Some m ->
  Module_to E model dev w = (Ok c, w') ->
  exists m',
    modules w' !! model = Some m' /\
    map fst (named_parameters m') = map fst (named_parameters m) /\
    map fst (named_buffers m') = map fst (named_buffers m) /\
    forall n l t,
      In (n, l) (named_buffers m) ->
      ~ In l (map snd (named_parameters m)) ->
      tensors w !! l = Some t ->
      String.eqb (torch.device t) dev = false ->
      tensors w' !! l = Some t /\
      exists l', In (n, l') (named_buffers m') /\
                 (length (tensors w) <= l')%nat.
Proof.
  intros Hm H. unfold Module_to in H.
  apply bind_inv in H. destruct H as [[m0 [wa [H0 H]]]|[e [_ He]]];
    [|discriminate].
  unfold read_module in H0. rewrite Hm in H0. inversion H0; subst m0 wa.
  clear H0.
  apply bind_inv in H. destruct H as [[ps [w1 [H1 H]]]|[e [_ He]]];
    [|discriminate].
  assert (Hg1 : grows w w1).
  { eapply preserves_run; [|exact H1]. unfold param_to. pres. }
  apply params_to_effect in H1. destruct H1 as [Hm1 [Heff Hpnames]].
  apply bind_inv in H. destruct H as [[bs [w2 [H2 H]]]|[e [_ He]]];
    [|discriminate].
  assert (Hu : untouched w1 w2).
  { eapply preserves_run; [|exact H2]. apply buffers_to_untouched. }
  assert (Hm2 : same_modules w1 w2).
  { eapply preserves_run; [|exact H2]. unfold buffer_to. pres. }
  apply buffers_to_rebinds in H2. destruct H2 as [Hnames Hreb].
  apply bind_inv in H. destruct H as [[[] [w3 [H3 H]]]|[e [_ He]]];
    [|discriminate].
  inversion H; subst c w'. clear H.
  unfold write_module, bind, get_world, set_modules in H3. simpl in H3.
  inversion H3; subst w3. simpl.
  eexists. split.
  { apply list_lookup_insert_eq. unfold same_modules in Hm2.
    rewrite Hm2, Hm1. eapply lookup_lt_Some. exact Hm. }
  simpl. split; [exact Hpnames|]. split; [exact Hnames|].
  intros n l t Hin Hnotparam Ht Hdev.
  assert (Ht1 : tensors w1 !! l = Some t).
  { rewrite (Heff l t Ht).
    destruct (existsb (Nat.eqb l) (map snd (named_parameters m))) eqn:Hex;
      [|reflexivity].
    exfalso. apply existsb_exists in Hex. destruct Hex as [x [Hx Heq]].
    apply Nat.eqb_eq in Heq. subst x. tauto. }
  split; [apply Hu; exact Ht1|].
  destruct (Hreb n l t Hin Ht1 Hdev) as [l' [Hl' Hlen]].
  exists l'. split; [exact Hl'|]. destruct Hg1 as [Hg1 _]. lia.
Qed.

Section WeightSet.

Variable E : Env.

(** The weight set of a session is collected from the model as it is
    when the construction starts. *)
Lemma init_weights model input_desc device output_desc workdir model_format
    const_folding build_nnf codegen_flags w s w' m :
  modules w !! model = Some m ->
  __init__ E model input_desc device output_desc workdir model_format
           const_folding build_nnf codegen_flags w = (Ok s, w') ->
  _torch_weights s
  = dict_update (dict_of_items (named_parameters m))
                (dict_of_items (named_buffers m)).
Proof.
  intros Hm H. apply init_inv in H.
  destruct H as [m0 [od [dctx [wd [path [w1 [_ [Hm0 [_ [_ H]]]]]]]]]].
  assert (m0 = m) by congruence. subst m0.
  apply create_executor_inv in H.
  destruct H as [ex [wb [ri [ins [outs [_ [_ [_ [_ [_ [_ [_ Hs]]]]]]]]]]]].
  subst s. reflexivity.
Qed.

End WeightSet.

(** ** When the session build and a run return *)

Section Acceptance.

Variable E : Env.


End Acceptance.

Lemma weights_nan_loop_false items : forall acc w w',
  weights_nan_loop items acc w = (Ok false, w') ->
  acc = false /\
  Forall (fun kv => is_Some (tensors w !! snd kv) /\
                    offending (tensors w) kv = false) items.
Proof.
  induction items as [|[n l] items IH]; intros acc w w' H; simpl in H.
  - inversion H. split; [reflexivity|constructor].
  - apply bind_inv in H. destruct H as [[t [w0 [H0 H]]]|[e [_ He]]];
      [|discriminate].
    unfold read_tensor in H0.
    destruct (tensors w !! l) as [t'|] eqn:Ht; [|discriminate].
    inversion H0; subst t' w0. clear H0.
    destruct (torch.any_isnan t || torch.any_isinf t) eqn:Hbad.
    + apply bind_inv in H. destruct H as [[[] [w1 [H1 H]]]|[e [_ He]]];
        [|discriminate].
      apply IH in H. destruct H as [H _]. discriminate.
    + apply IH in H. destruct H as [Hacc Hall]. split; [exact Hacc|].
      constructor; [|exact Hall]. split; [simpl; eauto|].
      unfold offending. simpl. rewrite Ht. exact Hbad.
Qed.



(** * Further properties of the session: the statements *)

(** ** Construction *)

(** X1: what a construction that returns has done to the outside, in
    order.  It has created the work directory (the caller's, expanded,
    or a new temporary one when the caller gave none or an empty one);
    with [build_nnf] it has run the exporter exactly once, on a module
    object that did not exist before, writing to [nnf.onnx] in the work
    directory, with the names of the caller's inputs and of the
    session's outputs in order and the caller's [const_folding]; it has
    emptied the CUDA cache; with [build_nnf] it has run the code
    generator in the work directory on the absolute path of that file
    with the flag string of the session, then, in
    [nnfusion_rt/cuda_codegen] under the work directory, the [sed]
    patch, [cmake .] (passed as a list) and [make -j]; and it has loaded
    the artifact from that directory.  Nothing else is in the trace. *)
Theorem construction_external_actions
    (E : Env) model input_desc device output_desc workdir model_format
    const_folding build_nnf codegen_flags w s w' :
  __init__ E model input_desc device output_desc workdir model_format
           const_folding build_nnf codegen_flags w = (Ok s, w') ->
  _workdir s = workdir_of E workdir /\
  _onnx_model_path s
  = (if build_nnf then path_join (workdir_of E workdir) "nnf.onnx" else "") /\
  exists exports,
    trace w'
    = (trace w
       ++ [workdir_event E workdir]
       ++ exports
       ++ [EvEmptyCache]
       ++ (if build_nnf
           then build_commands E (workdir_of E workdir)
                  (path_join (workdir_of E workdir) "nnf.onnx")
                  (flags_str_of "onnx" (merged_flags codegen_flags))
           else [])
       ++ [EvLoadExecutor
             (path_join (workdir_of E workdir) "nnfusion_rt/cuda_codegen")])%list
    /\ if build_nnf
       then exists c sample_inputs sample_outputs,
              exports
              = [EvOnnxExport c
                   {| ea_args := sample_inputs;
                      ea_f := path_join (workdir_of E workdir) "nnf.onnx";
                      ea_input_names := map name input_desc;
                      ea_output_names := map name (_output_desc s);
                      ea_opset_version := 12;
                      ea_retain_param_name := true;
                      ea_example_outputs := sample_outputs;
                      ea_do_constant_folding := const_folding |}] /\
              (length (modules w) <= c)%nat /\
              Forall2 (export_sample E device) input_desc sample_inputs /\
              Forall2 (export_sample E device) (_output_desc s)
                      sample_outputs
       else exports = [].
Proof.
  unfold __init__. intros H.
  apply bind_inv in H. destruct H as [[[] [w0 [H0 H]]]|[e [_ He]]];
    [|discriminate].
  destruct (String.eqb_spec model_format "onnx") as [Hfmt|Hfmt];
    simpl in H0; [|discriminate].
  inversion H0; subst w0. clear H0.
  apply bind_inv in H. destruct H as [[m [w0 [H0 H]]]|[e [_ He]]];
    [|discriminate].
  unfold read_module in H0.
  destruct (modules w !! model) as [m'|] eqn:Hm; [|discriminate].
  inversion H0; subst m' w0. clear H0.
  apply bind_inv in H. destruct H as [[od [w1 [H1 H]]]|[e [_ He]]];
    [|discriminate].
  assert (Hev1 : events (fun _ => False) w w1).
  { eapply preserves_run; [|exact H1]. destruct output_desc; pres. }
  assert (Hg1 : grows w w1).
  { eapply preserves_run; [|exact H1]. destruct output_desc; pres. }
  clear H1. apply events_none in Hev1.
  apply bind_inv in H. destruct H as [[dirs [w2 [H2 H]]]|[e [_ He]]];
    [|discriminate].
  assert (Hdirs : snd dirs = workdir_of E workdir /\
                  trace w2 = (trace w1 ++ [workdir_event E workdir])%list /\
                  modules w2 = modules w1).
  { pose proof (eq_trans (eq_sym (workdir_step E workdir w1)) H2) as Hstep.
    destruct (action_error E (workdir_event E workdir)); inversion Hstep.
    simpl. auto. }
  destruct Hdirs as [Hwd [Htr2 Hm2]]. clear H2.
  apply bind_inv in H. destruct H as [[path [w3 [H3 H]]]|[e [_ He]]];
    [|discriminate].
  apply bind_inv in H. destruct H as [[[] [w4 [H4 H]]]|[e [_ He]]];
    [|discriminate].
  apply perform_ok in H4. unfold emit in H4. cbn [snd] in H4. subst w4.
  apply bind_inv in H. destruct H as [[[] [w5 [H5 H]]]|[e [_ He]]];
    [|discriminate].
  destruct (training_mode _ && const_folding); [discriminate|].
  inversion H5; subst w5. clear H5.
  pose proof (create_executor_effect E _ _ _ _ H) as Htr.
  apply create_executor_inv in H.
  destruct H as [ex [wb [ri [ins [outs [_ [_ [_ [_ [_ [_ [_ Hs]]]]]]]]]]]].
  unfold rt_dir_of in Htr.
  cbn [_build_nnf _workdir _onnx_model_path _model_format _codegen_flags]
    in Htr.
  rewrite Hwd in Htr. subst s.
  cbn [_workdir _onnx_model_path _output_desc set_outputs set_inputs
       set_executor].
  split; [exact Hwd|].
  fold (merged_flags codegen_flags) in Htr.
  destruct build_nnf.
  - apply bind_inv in H3.
    destruct H3 as [[r [wa [Ha Hret]]]|[e [_ He]]]; [|discriminate].
    inversion Hret; subst path w3. clear Hret.
    apply convert_model_to_onnx_export in Ha.
    destruct Ha as [_ [c [si [so [Htra [Hc [Hsi Hso]]]]]]].
    cbn [inputs outputs] in Htra, Hsi, Hso. rewrite Hwd in *.
    split; [reflexivity|].
    exists [EvOnnxExport c
              {| ea_args := si;
                 ea_f := path_join (workdir_of E workdir) "nnf.onnx";
                 ea_input_names := map name input_desc;
                 ea_output_names := map name od;
                 ea_opset_version := 12;
                 ea_retain_param_name := true;
                 ea_example_outputs := so;
                 ea_do_constant_folding := const_folding |}].
    split.
    + rewrite Htr. cbn [trace]. rewrite Htra, Htr2, Hev1, Hfmt.
      rewrite <- !app_assoc. reflexivity.
    + exists c, si, so. split; [reflexivity|].
      split; [|split; assumption].
      destruct Hg1 as [_ Hg1]. rewrite Hm2 in Hc. lia.
  - inversion H3; subst path w3. clear H3.
    split; [reflexivity|].
    exists []. split; [|reflexivity].
    rewrite Htr. cbn [trace]. rewrite Htr2, Hev1. rewrite <- !app_assoc.
    reflexivity.
Qed.

Lemma construction_external_actions_witness :
  __init__ (demo_env (demo_artifact [demo_x; demo_w] [demo_y]))
           0%nat [demo_x; demo_w; demo_unused] "cuda:0" (Some [demo_y])
           None "onnx" false true None demo_world
  = (Ok demo_session, snd demo_build) /\
  _workdir demo_session
  = workdir_of (demo_env (demo_artifact [demo_x; demo_w] [demo_y])) None /\
  _onnx_model_path demo_session
  = (if true
     then path_join
            (workdir_of (demo_env (demo_artifact [demo_x; demo_w] [demo_y]))
                        None) "nnf.onnx"
     else "").
Proof.
  assert (H0 : __init__ (demo_env (demo_artifact [demo_x; demo_w] [demo_y]))
                 0%nat [demo_x; demo_w; demo_unused] "cuda:0" (Some [demo_y])
                 None "onnx" false true None demo_world
               = (Ok demo_session, snd demo_build))
    by (vm_compute; reflexivity).
  destruct (construction_external_actions _ _ _ _ _ _ _ _ _ _ _ _ _ H0)
    as [H1 [H2 _]].
  exact (conj H0 (conj H1 H2)).
Defined.

(** The commands of the demo construction, and the loading of its
    artifact. *)
Example demo_build_commands :
  List.filter is_build_event (trace (snd demo_build))
  = [EvExecute "/tmp/nnf_0"
       (Shell "nnfusion /tmp/nnf_0/nnf.onnx -f onnx -fextern_result_memory=1");
     EvExecute "/tmp/nnf_0/nnfusion_rt/cuda_codegen"
       (Shell "sed -i '/cudaDeviceReset()/s:^://:' nnfusion_rt.cu");
     EvExecute "/tmp/nnf_0/nnfusion_rt/cuda_codegen" (Argv ["cmake ."]);
     EvExecute "/tmp/nnf_0/nnfusion_rt/cuda_codegen" (Shell "make -j");
     EvLoadExecutor "/tmp/nnf_0/nnfusion_rt/cuda_codegen"].
Proof. vm_compute. reflexivity. Qed.

(** X2: an export that returns has returned the model it was given and
    has called the exporter exactly once: on a module object that did
    not exist before (the copy), with the file name, the names of the
    contract's inputs and outputs in order, opset 12, the parameter
    names retained and the caller's [const_folding], and with one
    sample per input and per output of the contract, each of the
    descriptor's dtype and shape (a dynamic dimension taken as 1) on the
    device. *)
Theorem export_arguments
    (E : Env) model md dev f cf w r w' :
  convert_model_to_onnx E model md dev f cf w = (Ok r, w') ->
  r = model /\
  exists c sample_inputs sample_outputs,
    trace w'
    = (trace w
       ++ [EvOnnxExport c
             {| ea_args := sample_inputs;
                ea_f := f;
                ea_input_names := map name (inputs md);
                ea_output_names := map name (outputs md);
                ea_opset_version := 12;
                ea_retain_param_name := true;
                ea_example_outputs := sample_outputs;
                ea_do_constant_folding := cf |}])%list /\
    (length (modules w) <= c)%nat /\
    Forall2 (export_sample E dev) (inputs md) sample_inputs /\
    Forall2 (export_sample E dev) (outputs md) sample_outputs.
Proof. apply convert_model_to_onnx_export. Qed.

Lemma export_arguments_witness :
  convert_model_to_onnx (demo_env (demo_artifact [demo_x] [demo_y]))
    0%nat {| inputs := [demo_x]; outputs := [demo_y] |} "cuda:0"
    "/work/nnf.onnx" false demo_world
  = (Ok 0%nat, snd demo_export) /\
  exists c sample_inputs sample_outputs,
    trace (snd demo_export)
    = (trace demo_world
       ++ [EvOnnxExport c
             {| ea_args := sample_inputs;
                ea_f := "/work/nnf.onnx";
                ea_input_names :=
                  map name (inputs {| inputs := [demo_x];
                                      outputs := [demo_y] |});
                ea_output_names :=
                  map name (outputs {| inputs := [demo_x];
                                       outputs := [demo_y] |});
                ea_opset_version := 12;
                ea_retain_param_name := true;
                ea_example_outputs := sample_outputs;
                ea_do_constant_folding := false |}])%list /\
    (length (modules demo_world) <= c)%nat /\
    Forall2 (export_sample (demo_env (demo_artifact [demo_x] [demo_y]))
                           "cuda:0")
            (inputs {| inputs := [demo_x]; outputs := [demo_y] |})
            sample_inputs /\
    Forall2 (export_sample (demo_env (demo_artifact [demo_x] [demo_y]))
                           "cuda:0")
            (outputs {| inputs := [demo_x]; outputs := [demo_y] |})
            sample_outputs.
Proof.
  assert (H0 : convert_model_to_onnx
                 (demo_env (demo_artifact [demo_x] [demo_y]))
                 0%nat {| inputs := [demo_x]; outputs := [demo_y] |} "cuda:0"
                 "/work/nnf.onnx" false demo_world
               = (Ok 0%nat, snd demo_export))
    by (vm_compute; reflexivity).
  exact (conj H0 (proj2 (export_arguments _ _ _ _ _ _ _ _ _ H0))).
Defined.

(** ** The output loop of the session build *)

(** X3: a session build that returns has added to the store exactly one
    new tensor per output the artifact declares, in the artifact's
    order, and has touched nothing else: each is a tensor of zeros of
    the declared shape and dtype on the session's device.  The output
    table binds the name of an output to the buffer of the last output
    declared under that name, and holds no other name. *)
Theorem output_buffers_are_new_zeros
    (E : Env) (self : PTSession) (w : World) (s' : PTSession) (w' : World) :
  _create_executor E self w = (Ok s', w') ->
  exists ex ts,
    _executor s' = Some ex /\
    load_executor E (rt_dir_of self) = Ok ex /\
    tensors w' = (tensors w ++ ts)%list /\
    modules w' = modules w /\
    Forall2 (zero_buffer E (_device self)) (get_outputs ex) ts /\
    (forall i d, get_outputs ex !! i = Some d ->
       (forall j d', (i < j)%nat -> get_outputs ex !! j = Some d' ->
                     name d' <> name d) ->
       dict_get (name d) (_outputs s')
       = Some (cast_pytorch_tensor (length (tensors w) + i))) /\
    (forall n, ~ In n (map name (get_outputs ex)) ->
               dict_get n (_outputs s') = None).
Proof.
  intros H. apply create_executor_outputs in H.
  destruct H as [ex [ts [H1 [H2 [H3 [H4 [H5 [_ [H6 H7]]]]]]]]].
  exists ex, ts. auto 10.
Qed.

Lemma output_buffers_are_new_zeros_witness :
  _create_executor (demo_env (demo_artifact [demo_x] [demo_y]))
    (demo_self [demo_x; demo_unused] [demo_y] demo_flags) demo_world
  = (Ok demo_created, snd demo_create) /\
  exists ex ts,
    _executor demo_created = Some ex /\
    tensors (snd demo_create) = (tensors demo_world ++ ts)%list /\
    Forall2 (zero_buffer (demo_env (demo_artifact [demo_x] [demo_y]))
               (_device (demo_self [demo_x; demo_unused] [demo_y] demo_flags)))
            (get_outputs ex) ts.
Proof.
  assert (H0 : _create_executor (demo_env (demo_artifact [demo_x] [demo_y]))
                 (demo_self [demo_x; demo_unused] [demo_y] demo_flags)
                 demo_world
               = (Ok demo_created, snd demo_create))
    by (vm_compute; reflexivity).
  destruct (output_buffers_are_new_zeros _ _ _ _ _ H0)
    as [ex [ts [H1 [_ [H3 [_ [H5 _]]]]]]].
  exact (conj H0 (ex_intro _ ex (ex_intro _ ts (conj H1 (conj H3 H5))))).
Defined.

(** The buffer of the demo session: six zeros of type float32, shaped
    (2, 3), on the CUDA device, at the first free location. *)
Example demo_output_buffer :
  dict_get "y" (_outputs demo_created) = Some (cast_pytorch_tensor 4%nat) /\
  tensors (snd demo_create) !! 4%nat
  = Some {| torch.shape := [2; 3]; torch.dtype_of := torch.float32;
            torch.device := "cuda:0";
            torch.data := repeat (torch.SFloat (S754_zero false)) 6 |}.
Proof. split; vm_compute; reflexivity. Qed.



(** ** The checks before the loops *)

(** X5: a device whose name does not contain [cuda] is refused.  The
    session build raises at once, with the store and the trace as they
    were: "CPU not supported yet" when the name contains [cpu], else
    "ROCm not supported yet" when it contains [rocm], else "Unknown
    device" with the name.  So no construction for such a device
    returns a session, and none runs a command of the build pipeline or
    loads an artifact. *)
Theorem unsupported_device_is_refused (E : Env) (device : string) :
  str_contains "cuda" device = false ->
  (forall self w,
     _device self = device ->
     _create_executor E self w = (Raise (unsupported_device_error device), w))
  /\ (forall model input_desc output_desc workdir model_format const_folding
             build_nnf codegen_flags w,
        exists e w',
          __init__ E model input_desc device output_desc workdir model_format
                   const_folding build_nnf codegen_flags w = (Raise e, w') /\
          events (fun ev => is_build_event ev = false) w w').
Proof.
  intros Hcuda. split.
  - intros self w Hd. subst device.
    apply create_executor_unsupported_device. exact Hcuda.
  - intros. apply init_unsupported_device. exact Hcuda.
Qed.

Lemma unsupported_device_is_refused_witness :
  str_contains "cuda" "cpu" = false /\
  _create_executor (demo_env (demo_artifact [demo_x] [demo_y]))
    {| _model := 0%nat; _model_format := "onnx"; _torch_weights := [];
       _input_desc := [demo_x]; _device := "cpu"; _output_desc := [demo_y];
       _model_desc := {| inputs := [demo_x]; outputs := [demo_y] |};
       _dir_ctx := None; _workdir := "/work"; _const_folding := false;
       _build_nnf := true; _onnx_model_path := "/work/nnf.onnx";
       _codegen_flags := demo_flags; _executor := None; _inputs := [];
       _outputs := [] |} demo_world
  = (Raise (unsupported_device_error "cpu"), demo_world).
Proof.
  split; [reflexivity|].
  apply (proj1 (unsupported_device_is_refused
                  (demo_env (demo_artifact [demo_x] [demo_y])) "cpu"
                  eq_refl)).
  reflexivity.
Defined.

(** X6: in training mode a model weight that has the name of a caller
    input makes the session build fail.  The weights are taken in the
    order of the weight set: when the weights before the first such one
    are there and can be described, what is raised is the AssertionError
    "Duplicate inputs" with the name of that weight, and no tensor or
    module object has been touched. *)
Theorem training_duplicate_input_is_refused
    (E : Env) (self : PTSession) (w : World) :
  training_mode (_codegen_flags self) = true ->
  (forall n,
     In n (map fst (_torch_weights self)) ->
     In n (map name (_input_desc self)) ->
     exists e w', _create_executor E self w = (Raise e, w'))
  /\ (forall ex pre n l post,
        str_contains "cuda" (_device self) = true ->
        (forall dir c, exit_ok E dir c = true) ->
        load_executor E (rt_dir_of self) = Ok ex ->
        _torch_weights self = (pre ++ (n, l) :: post)%list ->
        List.NoDup (map fst (_torch_weights self)) ->
        Forall (fun kv => ~ In (fst kv) (map name (_input_desc self)) /\
                          describable E w kv) pre ->
        In n (map name (_input_desc self)) ->
        exists w',
          _create_executor E self w
          = (Raise (AssertionError (msg_duplicate n)), w') /\
          same_store w w').
Proof.
  intros Htrain. split.
  - intros n Hw Hi.
    destruct (_create_executor E self w) as [[s'|e] w'] eqn:Hrun; [|eauto].
    exfalso. apply create_executor_inv in Hrun.
    destruct Hrun as [ex [w1 [ri [ins [outs [_ [_ [_ [Hri _]]]]]]]]].
    unfold real_inputs_of in Hri. rewrite Htrain in Hri.
    destruct (add_weight_descs E (_torch_weights self)
                (dict_of_items (map (fun desc => (name desc, desc))
                                    (_input_desc self))) w)
      as [[ri'|e] w2] eqn:Hadd; [|discriminate].
    pose proof (add_weight_descs_fresh E _ _ _ _ _ Hadd n Hw) as Hfresh.
    apply dict_mem_descs in Hi. congruence.
  - intros ex pre n l post Hcuda Hexit Hload Hws Hnd Hpre Hi.
    apply create_executor_weights_error with (ex := ex);
      [exact Hcuda|exact Hexit|exact Hload|].
    unfold real_inputs_of. rewrite Htrain, Hws.
    rewrite Hws, map_app in Hnd. simpl in Hnd.
    rewrite add_weight_descs_duplicate; [reflexivity| | | |].
    + eapply List.Forall_impl; [|exact Hpre]. simpl.
      intros kv [Hk Hd]. split; [|exact Hd].
      destruct (dict_mem (fst kv) _) eqn:Hm; [|reflexivity].
      apply dict_mem_descs in Hm. tauto.
    + apply NoDup_app_remove_r in Hnd. exact Hnd.
    + apply NoDup_remove_2 in Hnd. rewrite in_app_iff in Hnd. tauto.
    + apply dict_mem_descs. exact Hi.
Qed.

Lemma training_duplicate_input_is_refused_witness :
  training_mode
    (_codegen_flags
       (demo_self [demo_x; demo_w] [demo_y]
          [("extern_result_memory", PyInt 1); ("training_mode", PyInt 1)]))
  = true /\
  exists w',
    _create_executor (demo_env (demo_artifact [demo_x; demo_w] [demo_y]))
      (demo_self [demo_x; demo_w] [demo_y]
         [("extern_result_memory", PyInt 1); ("training_mode", PyInt 1)])
      demo_world
    = (Raise (AssertionError (msg_duplicate "w")), w') /\
    same_store demo_world w'.
Proof.
  split; [reflexivity|].
  apply (proj2 (training_duplicate_input_is_refused
                  (demo_env (demo_artifact [demo_x; demo_w] [demo_y]))
                  (demo_self [demo_x; demo_w] [demo_y]
                     [("extern_result_memory", PyInt 1);
                      ("training_mode", PyInt 1)])
                  demo_world eq_refl)
               (demo_artifact [demo_x; demo_w] [demo_y])
               [] "w" 0%nat [("b", 1%nat)]).
  - reflexivity.
  - intros dir c. reflexivity.
  - reflexivity.
  - reflexivity.
  - repeat constructor; simpl; intuition discriminate.
  - constructor.
  - simpl. auto.
Defined.

(** X7: the check on [extern_result_memory] comes after the input loop
    and before the output loop.  With the inputs bound, a falsy flag
    stops the session build with the error "Please add
    extern_result_memory to codegen flags", and no output buffer has
    been allocated: the store is as it was. *)
Theorem falsy_flag_stops_before_outputs
    (E : Env) (self : PTSession) (w : World) (ex : Executor)
    (ri : dict IODescription) (ins : dict (option DataFormat)) :
  str_contains "cuda" (_device self) = true ->
  (forall d c, exit_ok E d c = true) ->
  load_executor E (rt_dir_of self) = Ok ex ->
  real_inputs_of E self w = Ok ri ->
  bind_inputs ri (_torch_weights self) (get_inputs ex) [] = Ok ins ->
  truthy (dict_get_default "extern_result_memory" PyNone
                           (_codegen_flags self)) = false ->
  exists w', _create_executor E self w
             = (Raise extern_result_memory_error, w') /\
             same_store w w'.
Proof. apply create_executor_flag_error. Qed.

Lemma falsy_flag_stops_before_outputs_witness :
  exists w',
    _create_executor (demo_env (demo_artifact [demo_x] [demo_y]))
      (demo_self [demo_x] [demo_y] [("extern_result_memory", PyInt 0)])
      demo_world
    = (Raise extern_result_memory_error, w') /\
    same_store demo_world w'.
Proof.
  apply (falsy_flag_stops_before_outputs
           (demo_env (demo_artifact [demo_x] [demo_y]))
           (demo_self [demo_x] [demo_y] [("extern_result_memory", PyInt 0)])
           demo_world (demo_artifact [demo_x] [demo_y])
           [("x", demo_x)] [("x", None)]).
  - reflexivity.
  - intros d c. reflexivity.
  - reflexivity.
  - reflexivity.
  - reflexivity.
  - reflexivity.
Defined.

(** ** Running the session *)

(** X8: what a run does to the session, whether it returns or raises.
    The binding table keeps its names and their order; a name of
    [feed_data] that is not in the table is ignored; a name that is in
    the table is bound to the tensor fed for it, also when it was bound
    to a weight; a name that is not fed keeps the binding it had.  The
    run changes nothing else in the session and no module object. *)
Theorem run_takes_the_feeds_in
    (feed : dict loc) (chk : bool) (s : PTSession) (w : World)
    (r : Result (list loc)) (s1 : PTSession) (w1 : World) :
  run_by_nnf feed chk (s, w) = (r, (s1, w1)) ->
  map fst (_inputs s1) = map fst (_inputs s)
  /\ (forall n, dict_get n feed = None ->
                dict_get n (_inputs s1) = dict_get n (_inputs s))
  /\ (forall n l,
        List.NoDup (map fst feed) -> In (n, l) feed ->
        dict_mem n (_inputs s) = true ->
        dict_get n (_inputs s1) = Some (Some (cast_pytorch_tensor l)))
  /\ s1 = set_inputs s (_inputs s1)
  /\ modules w1 = modules w.
Proof.
  intros H.
  pose proof (run_by_nnf_modules _ _ _ _ _ _ _ H) as Hm.
  apply run_by_nnf_state in H. subst s1. cbn [_inputs set_inputs].
  split; [apply feed_inputs_keys|].
  split.
  { intros n Hn. apply feed_inputs_other. apply dict_get_None_keys, Hn. }
  split.
  { intros n l Hnd Hin Hmem.
    destruct (NoDup_keys_split feed n l Hnd Hin) as [pre [post [-> [_ Hp]]]].
    apply feed_inputs_fed; assumption. }
  split; [reflexivity|exact Hm].
Qed.

Lemma run_takes_the_feeds_in_witness :
  run_by_nnf [("x", 2%nat); ("nobody", 3%nat)] false
             (demo_session, snd demo_build)
  = (Ok [7%nat], (fst (snd demo_run4), snd (snd demo_run4))) /\
  map fst (_inputs (fst (snd demo_run4))) = map fst (_inputs demo_session) /\
  dict_get "x" (_inputs (fst (snd demo_run4)))
  = Some (Some (cast_pytorch_tensor 2%nat)).
Proof.
  assert (H0 : run_by_nnf [("x", 2%nat); ("nobody", 3%nat)] false
                 (demo_session, snd demo_build)
               = (Ok [7%nat], (fst (snd demo_run4), snd (snd demo_run4))))
    by (vm_compute; reflexivity).
  assert (Hnd : List.NoDup (map fst [("x", 2%nat); ("nobody", 3%nat)]))
    by (repeat constructor; simpl; intuition discriminate).
  assert (Hin : In ("x", 2%nat) [("x", 2%nat); ("nobody", 3%nat)])
    by (left; reflexivity).
  assert (Hmem : dict_mem "x" (_inputs demo_session) = true)
    by (vm_compute; reflexivity).
  destruct (run_takes_the_feeds_in _ _ _ _ _ _ _ H0) as [H1 [_ [H3 _]]].
  exact (conj H0 (conj H1 (H3 "x" 2%nat Hnd Hin Hmem))).
Defined.

(** The name [nobody] is not one of the demo session's inputs: feeding
    it leaves nothing in the table. *)
Example demo_feed_ignored :
  map fst (_inputs (fst (snd demo_run4))) = ["x"; "w"].
Proof. vm_compute. reflexivity. Qed.

(** X9: the feeds of successive runs accumulate.  After two runs the
    binding table is the one a single run fed with both feeds, the
    second after the first, leaves; so an input that was fed in the
    first run and is not fed in the second is still bound, for the
    second invocation of the artifact, to the tensor of the first
    run. *)
Theorem feeds_persist_across_runs
    (feed1 feed2 : dict loc) (chk1 chk2 : bool) (s : PTSession)
    (w wb : World) (r1 r2 : Result (list loc)) (s1 s2 : PTSession)
    (w1 w2 : World) :
  run_by_nnf feed1 chk1 (s, w) = (r1, (s1, w1)) ->
  run_by_nnf feed2 chk2 (s1, wb) = (r2, (s2, w2)) ->
  _inputs s2 = feed_inputs (feed1 ++ feed2)%list (_inputs s)
  /\ (forall chk wc r3 s3 w3,
        run_by_nnf (feed1 ++ feed2)%list chk (s, wc) = (r3, (s3, w3)) ->
        _inputs s3 = _inputs s2)
  /\ (forall n l,
        List.NoDup (map fst feed1) -> In (n, l) feed1 ->
        dict_get n feed2 = None ->
        dict_mem n (_inputs s) = true ->
        dict_get n (_inputs s2) = Some (Some (cast_pytorch_tensor l)))
  /\ (forall outs ex,
        r2 = Ok outs -> _executor s = Some ex ->
        exists writes,
          kernel ex (_inputs s2) (_outputs s) (tensors wb) = Ok writes /\
          tensors w2 = apply_writes writes (tensors wb)).
Proof.
  intros H1 H2.
  pose proof (run_by_nnf_state _ _ _ _ _ _ _ H1) as Hs1.
  pose proof (run_by_nnf_state _ _ _ _ _ _ _ H2) as Hs2.
  assert (Hin2 : _inputs s2 = feed_inputs (feed1 ++ feed2)%list (_inputs s)).
  { rewrite Hs2, Hs1. cbn [_inputs set_inputs]. symmetry.
    apply feed_inputs_app. }
  split; [exact Hin2|]. split.
  { intros chk wc r3 s3 w3 H3. apply run_by_nnf_state in H3.
    rewrite H3, Hin2. reflexivity. }
  split.
  { intros n l Hnd Hin Hn2 Hmem. rewrite Hs2. cbn [_inputs set_inputs].
    rewrite feed_inputs_other by (apply dict_get_None_keys; exact Hn2).
    rewrite Hs1. cbn [_inputs set_inputs].
    destruct (NoDup_keys_split feed1 n l Hnd Hin) as [pre [post [-> [_ Hp]]]].
    apply feed_inputs_fed; assumption. }
  intros outs ex Hr Hex. subst r2.
  apply run_by_nnf_ok_inv in H2.
  destruct H2 as [_ [_ [ex' [writes [Hex' [Hk Ht]]]]]].
  rewrite Hs1 in Hex', Hk. cbn [_executor _inputs _outputs set_inputs] in *.
  assert (ex' = ex) by congruence. subst ex'.
  exists writes. split; [|exact Ht].
  rewrite Hin2, feed_inputs_app. exact Hk.
Qed.

Lemma feeds_persist_across_runs_witness :
  run_by_nnf [("x", 2%nat)] false (demo_session, snd demo_build)
  = (Ok [7%nat], (fst (snd demo_run1), snd (snd demo_run1))) /\
  run_by_nnf [] false (fst (snd demo_run1), snd (snd demo_run1))
  = (Ok [7%nat], (fst (snd demo_run3), snd (snd demo_run3))) /\
  dict_get "x" (_inputs (fst (snd demo_run3)))
  = Some (Some (cast_pytorch_tensor 2%nat)).
Proof.
  assert (H1 : run_by_nnf [("x", 2%nat)] false (demo_session, snd demo_build)
               = (Ok [7%nat], (fst (snd demo_run1), snd (snd demo_run1))))
    by (vm_compute; reflexivity).
  assert (H2 : run_by_nnf [] false (fst (snd demo_run1), snd (snd demo_run1))
               = (Ok [7%nat], (fst (snd demo_run3), snd (snd demo_run3))))
    by (vm_compute; reflexivity).
  assert (Hnd : List.NoDup (map fst [("x", 2%nat)]))
    by (repeat constructor; simpl; intuition).
  assert (Hin : In ("x", 2%nat) [("x", 2%nat)]) by (left; reflexivity).
  assert (Hn2 : dict_get "x" (@nil (string * loc)) = None) by reflexivity.
  assert (Hmem : dict_mem "x" (_inputs demo_session) = true)
    by (vm_compute; reflexivity).
  destruct (feeds_persist_across_runs _ _ _ _ _ _ _ _ _ _ _ _ _ H1 H2)
    as [_ [_ [H3 _]]].
  exact (conj H1 (conj H2 (H3 "x" 2%nat Hnd Hin Hn2 Hmem))).
Defined.

(** The run with nothing fed has rewritten the output buffer from the
    tensor fed in the run before it. *)
Example demo_stale_feed :
  tensors (snd (snd demo_run3)) !! 7%nat = tensors demo_world !! 2%nat.
Proof. vm_compute. reflexivity. Qed.

(** X10: an output that the caller declares and the artifact does not
    produce is not detected by the session build, which returns; but
    then no run of the session returns.  Each run invokes the artifact
    and, the NaN policy off, raises [KeyError] for the first such
    output, with the store as the artifact has written it. *)
Theorem undeclared_output_fails_every_run
    (E : Env) (self : PTSession) (w0 : World) (s : PTSession) (wb : World)
    (ex : Executor) (pre : list IODescription) (d : IODescription)
    (post : list IODescription) :
  _create_executor E self w0 = (Ok s, wb) ->
  load_executor E (rt_dir_of self) = Ok ex ->
  _output_desc self = (pre ++ d :: post)%list ->
  Forall (fun d' => In (name d') (map name (get_outputs ex))) pre ->
  ~ In (name d) (map name (get_outputs ex)) ->
  (forall feed chk w outs s1 w1,
     run_by_nnf feed chk (s, w) <> (Ok outs, (s1, w1)))
  /\ (forall feed w writes,
        kernel ex (feed_inputs feed (_inputs s)) (_outputs s) (tensors w)
        = Ok writes ->
        exists s1 w1,
          run_by_nnf feed false (s, w)
          = (Raise (KeyError (name d)), (s1, w1)) /\
          tensors w1 = apply_writes writes (tensors w) /\
          trace w1 = (trace w ++ [EvInvoke])%list).
Proof.
  intros Hbuild Hload Hdesc Hpre Hd.
  apply create_executor_inv in Hbuild.
  destruct Hbuild
    as [ex' [w1 [ri [ins [outs [_ [Hload' [_ [_ [_ [_ [Hb Hs]]]]]]]]]]]].
  assert (ex' = ex) by congruence. subst ex'.
  assert (Hex : _executor s = Some ex) by (subst s; reflexivity).
  assert (Hod : _output_desc s = (pre ++ d :: post)%list)
    by (subst s; exact Hdesc).
  assert (Houts : _outputs s = outs) by (subst s; reflexivity).
  assert (Hnone : dict_get (name d) (_outputs s) = None).
  { rewrite Houts.
    destruct (bind_outputs_spec E _ _ _ _ _ _ _ _ _ Hb)
      as [_ [_ [_ [_ [_ Hrest]]]]].
    rewrite (Hrest _ Hd). reflexivity. }
  assert (Hmem : Forall (fun d' => dict_mem (name d') (_outputs s) = true)
                        pre).
  { eapply List.Forall_impl; [|exact Hpre]. simpl. intros d' Hd'.
    rewrite Houts. eapply bind_outputs_keys; eauto. }
  split.
  - intros feed chk w outs1 s1 w2 Hrun.
    apply run_by_nnf_ok_inv in Hrun. destruct Hrun as [_ [Hh _]].
    rewrite Hod in Hh. unfold output_handles in Hh.
    rewrite map_app in Hh. simpl in Hh. rewrite Hnone in Hh. simpl in Hh.
    assert (Hin : In None (map Some outs1)).
    { rewrite Hh. apply in_or_app. right. left. reflexivity. }
    apply in_map_iff in Hin. destruct Hin as [x [Hx _]]. discriminate.
  - intros feed w writes Hk.
    eapply run_by_nnf_missing_output; eassumption.
Qed.

Lemma undeclared_output_fails_every_run_witness :
  _create_executor (demo_env (demo_artifact [demo_x] [demo_y]))
    (demo_self [demo_x] [demo_y; demo_z] demo_flags) demo_world
  = (Ok demo_extra_session, snd demo_extra_create) /\
  exists s1 w1,
    run_by_nnf [("x", 2%nat)] false
               (demo_extra_session, snd demo_extra_create)
    = (Raise (KeyError (name demo_z)), (s1, w1)) /\
    tensors w1
    = apply_writes [(4%nat, {| torch.shape := [2; 3];
                               torch.dtype_of := torch.float32;
                               torch.device := "cuda:0";
                               torch.data := repeat demo_one 6 |})]
                   (tensors (snd demo_extra_create)) /\
    trace w1 = (trace (snd demo_extra_create) ++ [EvInvoke])%list.
Proof.
  assert (H0 : _create_executor (demo_env (demo_artifact [demo_x] [demo_y]))
                 (demo_self [demo_x] [demo_y; demo_z] demo_flags) demo_world
               = (Ok demo_extra_session, snd demo_extra_create))
    by (vm_compute; reflexivity).
  assert (Hpre : Forall (fun d' => In (name d')
                                      (map name (get_outputs
                                                   (demo_artifact [demo_x]
                                                                  [demo_y]))))
                        [demo_y])
    by (repeat constructor).
  assert (Hd : ~ In (name demo_z)
                    (map name (get_outputs (demo_artifact [demo_x] [demo_y]))))
    by (simpl; intuition discriminate).
  assert (Hk : kernel (demo_artifact [demo_x] [demo_y])
                 (feed_inputs [("x", 2%nat)] (_inputs demo_extra_session))
                 (_outputs demo_extra_session)
                 (tensors (snd demo_extra_create))
               = Ok [(4%nat, {| torch.shape := [2; 3];
                                torch.dtype_of := torch.float32;
                                torch.device := "cuda:0";
                                torch.data := repeat demo_one 6 |})])
    by (vm_compute; reflexivity).
  exact (conj H0
           (proj2 (undeclared_output_fails_every_run
                     (demo_env (demo_artifact [demo_x] [demo_y]))
                     (demo_self [demo_x] [demo_y; demo_z] demo_flags)
                     demo_world demo_extra_session (snd demo_extra_create)
                     (demo_artifact [demo_x] [demo_y]) [demo_y] demo_z []
                     H0 eq_refl eq_refl Hpre Hd)
                  [("x", 2%nat)] (snd demo_extra_create) _ Hk)).
Defined.

(** X11: with [check_nan] set, a run whose artifact leaves no NaN and
    no infinity in the weights does exactly what the run without the
    policy does: the same result, the same session, the same store and
    the same trace. *)
Theorem clean_weights_make_the_policy_silent
    (feed : dict loc) (s : PTSession) (w : World) :
  (forall ex writes,
     _executor s = Some ex ->
     kernel ex (feed_inputs feed (_inputs s)) (_outputs s) (tensors w)
     = Ok writes ->
     Forall (fun kv =>
               is_Some (apply_writes writes (tensors w) !! snd kv) /\
               offending (apply_writes writes (tensors w)) kv = false)
            (_torch_weights s)) ->
  run_by_nnf feed true (s, w) = run_by_nnf feed false (s, w).
Proof.
  intros Hclean. rewrite !run_by_nnf_eq. cbv zeta.
  destruct (_executor s) as [ex|] eqn:Hex; [|reflexivity].
  pose proof (Executor_call_spec ex
                (_inputs (set_inputs s (feed_inputs feed (_inputs s))))
                (_outputs s) w) as Hcall.
  assert (Hfed : _inputs (set_inputs s (feed_inputs feed (_inputs s)))
                 = feed_inputs feed (_inputs s)) by reflexivity.
  rewrite Hfed in Hcall.
  destruct (Executor_call ex _ (_outputs s) w) as [[[]|e] w2];
    [|reflexivity].
  destruct Hcall as [writes [Hk [Ht _]]].
  specialize (Hclean ex writes eq_refl Hk). rewrite <- Ht in Hclean.
  unfold is_weights_nan.
  assert (Hws : _torch_weights (set_inputs s (feed_inputs feed (_inputs s)))
                = _torch_weights s) by reflexivity.
  rewrite Hws, (weights_nan_loop_clean _ false w2 Hclean). reflexivity.
Qed.

Lemma clean_weights_make_the_policy_silent_witness :
  run_by_nnf [("x", 2%nat)] true (demo_session, snd demo_build)
  = run_by_nnf [("x", 2%nat)] false (demo_session, snd demo_build).
Proof.
  apply (clean_weights_make_the_policy_silent
           [("x", 2%nat)] demo_session (snd demo_build)).
  intros ex writes Hex Hk.
  assert (He : _executor demo_session
               = Some (demo_artifact [demo_x; demo_w] [demo_y]))
    by (vm_compute; reflexivity).
  rewrite He in Hex. inversion Hex; subst ex. clear Hex.
  assert (Hk' : kernel (demo_artifact [demo_x; demo_w] [demo_y])
                  (feed_inputs [("x", 2%nat)] (_inputs demo_session))
                  (_outputs demo_session) (tensors (snd demo_build))
                = Ok [(7%nat, {| torch.shape := [2; 3];
                                 torch.dtype_of := torch.float32;
                                 torch.device := "cuda:0";
                                 torch.data := repeat demo_one 6 |})])
    by (vm_compute; reflexivity).
  rewrite Hk' in Hk. inversion Hk; subst writes. clear Hk Hk'.
  vm_compute.
  repeat (constructor; [split; [eexists; reflexivity|reflexivity]|]).
  constructor.
Defined.

(** ** Samples and contract inference *)

(** X12: contract inference on any model.  When it returns, it has run
    a copy of the model, a module object that did not exist before, on
    one sample per input descriptor, and its result describes the
    tensors that run returned, one descriptor per tensor in order (a
    single tensor counts as one): named [output_0], [output_1], ...,
    with the tensor's shape, all integers, the table's name for the
    tensor's dtype, and no [num_classes]. *)
Theorem inferred_contract_describes_the_outputs
    (E : Env) (model : loc) (input_desc : list IODescription)
    (device : string) (w : World) (od : list IODescription) (w' : World) :
  generate_output_desc E model input_desc device w = (Ok od, w') ->
  map name od = output_names 0 (length od)
  /\ Forall (fun o => Forall is_concrete (shape o) /\ num_classes o = None) od
  /\ exists c fake_inputs out w3,
       Forall2 (export_sample E device) input_desc fake_inputs /\
       (length (modules w) <= c)%nat /\
       call_module c fake_inputs w3 = (Ok out, w') /\
       Forall2 (described_by E) (unwrap out) od.
Proof.
  intros H. apply generate_output_desc_inv in H.
  destruct H as [c [fake [out [w3 [Hs [Hc [Hcall [Hd Hn]]]]]]]].
  split; [exact Hn|]. split.
  - clear Hn. induction Hd as [|t o ts os Hto Hrest IH]; constructor.
    + split; [eapply described_by_concrete; exact Hto|].
      destruct Hto as [_ [Hnc _]]. exact Hnc.
    + exact IH.
  - exists c, fake, out, w3. auto.
Qed.

Lemma inferred_contract_describes_the_outputs_witness :
  generate_output_desc (demo_env (demo_artifact [] [])) 0%nat
                       [demo_dynamic; demo_labels] "cpu" demo_world
  = (Ok [demo_desc "output_0" [DInt 2; DInt 1] "float32";
         demo_desc "output_1" [DInt 2; DInt 2] "int64"],
     snd demo_inference) /\
  map name [demo_desc "output_0" [DInt 2; DInt 1] "float32";
            demo_desc "output_1" [DInt 2; DInt 2] "int64"]
  = output_names 0
      (length [demo_desc "output_0" [DInt 2; DInt 1] "float32";
               demo_desc "output_1" [DInt 2; DInt 2] "int64"]).
Proof.
  assert (H0 : generate_output_desc (demo_env (demo_artifact [] [])) 0%nat
                 [demo_dynamic; demo_labels] "cpu" demo_world
               = (Ok [demo_desc "output_0" [DInt 2; DInt 1] "float32";
                      demo_desc "output_1" [DInt 2; DInt 2] "int64"],
                  snd demo_inference))
    by (vm_compute; reflexivity).
  exact (conj H0 (proj1 (inferred_contract_describes_the_outputs
                           _ _ _ _ _ _ _ H0))).
Defined.

(** X13: [generate_sample] raises [KeyError] exactly when the dtype of
    the descriptor is not in the type table; the key is that dtype, and
    nothing has been drawn from the random generator, whatever the
    shape and [num_classes] of the descriptor. *)
Theorem unknown_dtype_is_a_KeyError
    (E : Env) (desc : IODescription) (dev : option string) (w : World)
    (k : string) (w' : World) :
  generate_sample E desc dev w = (Raise (KeyError k), w') <->
  str2type E (dtype desc) = None /\ k = dtype desc /\ w' = w.
Proof.
  unfold generate_sample, str2type_getitem.
  destruct (str2type E (dtype desc)) as [ty|].
  - split; [|intros [H _]; discriminate].
    destruct (num_classes_set desc) as [nc|].
    + unfold bind at 1. unfold lift at 1.
      unfold torch_randint, torch.randint, bind, get_world, lift,
        set_rng_pos, ret.
      destruct (negb _); [discriminate|].
      destruct (nc <=? 0); [discriminate|].
      destruct (_ || _); [discriminate|].
      destruct (torch.bad_size _); discriminate.
    + unfold bind at 1. unfold lift at 1.
      unfold torch.ones, torch.full, bind, lift, ret.
      destruct (torch.bad_size _); discriminate.
  - destruct (num_classes_set desc); unfold bind, lift; split.
    + intros H; inversion H; auto.
    + intros [_ [-> ->]]. reflexivity.
    + intros H; inversion H; auto.
    + intros [_ [-> ->]]. reflexivity.
Qed.



(** ** What every constructed session satisfies *)

(** X15: the invariants of a constructed session.  Its flags are the
    caller's over the default [extern_result_memory = 1]: every flag of
    the caller is there with the caller's value, and no other flag is
    but the default.  Whatever the caller gave, [extern_result_memory]
    is truthy, training mode and constant folding are not both set, and
    the device is a CUDA device. *)
Theorem constructed_session_invariants
    (E : Env) model input_desc device output_desc workdir model_format
    const_folding build_nnf codegen_flags (w : World) (s : PTSession)
    (w' : World) :
  __init__ E model input_desc device output_desc workdir model_format
           const_folding build_nnf codegen_flags w = (Ok s, w') ->
  truthy (dict_get_default "extern_result_memory" PyNone (_codegen_flags s))
  = true
  /\ training_mode (_codegen_flags s) && _const_folding s = false
  /\ str_contains "cuda" (_device s) = true
  /\ (List.NoDup (map fst (flags_or_empty codegen_flags)) ->
      forall k v, dict_get k (flags_or_empty codegen_flags) = Some v ->
                  dict_get k (_codegen_flags s) = Some v)
  /\ (forall k, dict_get k (flags_or_empty codegen_flags) = None ->
                dict_get k (_codegen_flags s)
                = dict_get k [("extern_result_memory", PyInt 1)])
  /\ _device s = device /\ _model s = model /\ _input_desc s = input_desc
  /\ _const_folding s = const_folding.
Proof.
  intros H. apply init_flags in H.
  destruct H as [Hf [Hcf [Hcheck [Hflag [Hcuda [Hd [Hm Hi]]]]]]].
  rewrite Hf, Hcf, Hd. split; [exact Hflag|]. split; [exact Hcheck|].
  split; [exact Hcuda|]. split.
  { intros Hnd k v Hk. unfold merged_flags.
    apply dict_get_update_Some; assumption. }
  split.
  { intros k Hk. unfold merged_flags. apply dict_get_update_None, Hk. }
  auto.
Qed.

Lemma constructed_session_invariants_witness :
  __init__ (demo_env (demo_artifact [demo_x; demo_w] [demo_y]))
           0%nat [demo_x; demo_w; demo_unused] "cuda:0" (Some [demo_y])
           None "onnx" false true None demo_world
  = (Ok demo_session, snd demo_build) /\
  truthy (dict_get_default "extern_result_memory" PyNone
                           (_codegen_flags demo_session)) = true /\
  training_mode (_codegen_flags demo_session) && _const_folding demo_session
  = false.
Proof.
  assert (H0 : __init__ (demo_env (demo_artifact [demo_x; demo_w] [demo_y]))
                 0%nat [demo_x; demo_w; demo_unused] "cuda:0" (Some [demo_y])
                 None "onnx" false true None demo_world
               = (Ok demo_session, snd demo_build))
    by (vm_compute; reflexivity).
  destruct (constructed_session_invariants _ _ _ _ _ _ _ _ _ _ _ _ _ H0)
    as [H1 [H2 _]].
  exact (conj H0 (conj H1 H2)).
Defined.

(** X16: the session build never changes a tensor or a module object
    that exists, whether it returns or raises: all it does to the store
    is to add the output buffers.  With [build_nnf] off the same holds
    of the whole construction, contract inference included: it runs the
    model on a copy. *)
Theorem construction_without_export_leaves_the_store
    (E : Env) (self : PTSession) model input_desc device output_desc
    workdir model_format const_folding codegen_flags (w : World) :
  untouched w (snd (_create_executor E self w)) /\
  untouched w
    (snd (__init__ E model input_desc device output_desc workdir
                   model_format const_folding false codegen_flags w)).
Proof.
  split.
  - apply create_executor_untouched.
  - apply init_untouched.
Qed.

(** ** The weight set *)

(** X17: the weight set of a session is collected before the export
    moves the model.  When the construction exports, a buffer of the
    model that is not on the device of the session stays in the weight
    set as the tensor object it was, and that object is unchanged,
    still on its old device; the model has been rebound, under the same
    name, to a new tensor object. *)
Theorem weight_set_keeps_the_old_buffer
    (E : Env) model input_desc device output_desc workdir model_format
    const_folding codegen_flags (w : World) (s : PTSession) (w' : World)
    (m : Module) (n : string) (l : loc) (t : torch.Tensor) :
  modules w !! model = Some m ->
  __init__ E model input_desc device output_desc workdir model_format
           const_folding true codegen_flags w = (Ok s, w') ->
  List.NoDup (map fst (named_buffers m)) ->
  In (n, l) (named_buffers m) ->
  ~ In l (map snd (named_parameters m)) ->
  tensors w !! l = Some t ->
  String.eqb (torch.device t) device = false ->
  dict_get n (_torch_weights s) = Some l /\
  tensors w' !! l = Some t /\
  exists m' l',
    modules w' !! model = Some m' /\
    In (n, l') (named_buffers m') /\
    map fst (named_buffers m') = map fst (named_buffers m) /\
    (length (tensors w) <= l')%nat.
Proof.
  intros Hm H Hnd Hin Hnotparam Ht Hdev.
  split.
  { rewrite (init_weights _ _ _ _ _ _ _ _ _ _ _ _ _ _ Hm H).
    apply dict_get_update_Some; [apply dict_of_items_NoDup|].
    apply dict_get_of_items; assumption. }
  unfold __init__ in H.
  apply bind_inv in H. destruct H as [[[] [w0 [H0 H]]]|[e [_ He]]];
    [|discriminate].
  assert (w0 = w).
  { destruct (negb (String.eqb model_format "onnx")); inversion H0.
    reflexivity. }
  subst w0. clear H0.
  apply bind_inv in H. destruct H as [[m0 [w0 [H0 H]]]|[e [_ He]]];
    [|discriminate].
  unfold read_module in H0. rewrite Hm in H0. inversion H0; subst m0 w0.
  clear H0.
  apply bind_inv in H. destruct H as [[od [w1 [H1 H]]]|[e [_ He]]];
    [|discriminate].
  assert (Hu1 : untouched w w1).
  { eapply preserves_run; [|exact H1].
    destruct output_desc; [pres|apply generate_output_desc_untouched]. }
  clear H1.
  apply bind_inv in H. destruct H as [[dirs [w2 [H2 H]]]|[e [_ He]]];
    [|discriminate].
  assert (Hs2 : same_store w1 w2).
  { eapply preserves_run; [|exact H2].
    destruct workdir as [[|c wd']|]; pres. }
  clear H2.
  assert (Hu2 : untouched w w2) by (eapply untouched_same_store; eassumption).
  apply bind_inv in H. destruct H as [[path [w3 [H3 H]]]|[e [_ He]]];
    [|discriminate].
  apply bind_inv in H3.
  destruct H3 as [[r [wa [Ha Hret]]]|[e [_ He]]]; [|discriminate].
  inversion Hret; subst path w3. clear Hret.
  unfold convert_model_to_onnx in Ha.
  apply bind_inv in Ha. destruct Ha as [[c [wm [Hmove Ha]]]|[e [_ He]]];
    [|discriminate].
  destruct Hu2 as [Hut Hum].
  destruct (Module_to_buffers _ _ _ _ _ _ _ (Hum _ _ Hm) Hmove)
    as [m' [Hm' [_ [Hnames Hreb]]]].
  destruct (Hreb n l t Hin Hnotparam (Hut _ _ Ht) Hdev)
    as [Htm [l' [Hl' Hlen]]].
  pose proof (frame_export_copy wm E model
                {| inputs := input_desc; outputs := od |} device
                (path_join (snd dirs) "nnf.onnx") const_folding wm
                (reflexivity wm)) as Hframe.
  cbv zeta in Ha. rewrite Ha in Hframe. destruct Hframe as [Hft Hfm].
  apply bind_inv in H. destruct H as [[[] [w4 [H4 H]]]|[e [_ He]]];
    [|discriminate].
  apply perform_ok in H4. unfold emit in H4. cbn [snd] in H4. subst w4.
  apply bind_inv in H. destruct H as [[[] [w5 [H5 H]]]|[e [_ He]]];
    [|discriminate].
  assert (w5 = {| tensors := tensors wa; modules := modules wa;
                  cwd := cwd wa; rng_pos := rng_pos wa;
                  trace := (trace wa ++ [EvEmptyCache])%list |}).
  { destruct (training_mode _ && const_folding); inversion H5. reflexivity. }
  subst w5. clear H5.
  pose proof (preserves_run untouched _ _ _ _
                (create_executor_untouched E _) H) as [Hct Hcm].
  simpl in Hct, Hcm.
  split; [apply Hct, Hft, Htm|].
  exists m', l'. split; [apply Hcm, Hfm, Hm'|].
  split; [exact Hl'|]. split; [exact Hnames|].
  pose proof (untouched_length w w2 (conj Hut Hum)) as [Hg _]. lia.
Qed.

Lemma weight_set_keeps_the_old_buffer_witness :
  __init__ (demo_env (demo_artifact [demo_x; demo_w] [demo_y]))
           0%nat [demo_x; demo_w; demo_unused] "cuda:0" (Some [demo_y])
           None "onnx" false true None demo_world
  = (Ok demo_session, snd demo_build) /\
  dict_get "b" (_torch_weights demo_session) = Some 1%nat /\
  tensors (snd demo_build) !! 1%nat = Some (demo_tensor "cpu" [demo_one]) /\
  exists m' l',
    modules (snd demo_build) !! 0%nat = Some m' /\
    In ("b", l') (named_buffers m') /\
    map fst (named_buffers m') = map fst (named_buffers demo_identity) /\
    (length (tensors demo_world) <= l')%nat.
Proof.
  assert (H0 : __init__ (demo_env (demo_artifact [demo_x; demo_w] [demo_y]))
                 0%nat [demo_x; demo_w; demo_unused] "cuda:0" (Some [demo_y])
                 None "onnx" false true None demo_world
               = (Ok demo_session, snd demo_build))
    by (vm_compute; reflexivity).
  assert (Hm : modules demo_world !! 0%nat = Some demo_identity)
    by reflexivity.
  assert (Hnd : List.NoDup (map fst (named_buffers demo_identity)))
    by (repeat constructor; simpl; intuition).
  assert (Hin : In ("b", 1%nat) (named_buffers demo_identity))
    by (left; reflexivity).
  assert (Hp : ~ In 1%nat (map snd (named_parameters demo_identity)))
    by (simpl; intuition discriminate).
  assert (Ht : tensors demo_world !! 1%nat
               = Some (demo_tensor "cpu" [demo_one]))
    by reflexivity.
  assert (Hdev : String.eqb (torch.device (demo_tensor "cpu" [demo_one]))
                            "cuda:0" = false)
    by reflexivity.
  exact (conj H0 (weight_set_keeps_the_old_buffer
                    _ _ _ _ _ _ _ _ _ _ _ _ _ _ _ _ Hm H0 Hnd Hin Hp Ht
                    Hdev)).
Defined.

(** In the demo session the model's buffer [b] is tensor 4 on the CUDA
    device, while the weight set still has tensor 1, on the CPU. *)
Example demo_stale_buffer :
  named_buffers <$> modules (snd demo_build) !! 0%nat = Some [("b", 4%nat)] /\
  dict_get "b" (_torch_weights demo_session) = Some 1%nat /\
  torch.device <$> tensors (snd demo_build) !! 4%nat = Some "cuda:0" /\
  torch.device <$> tensors (snd demo_build) !! 1%nat = Some "cpu".
Proof. repeat split; vm_compute; reflexivity. Qed.

(** ** When the session build and a run return *)



(** X19: when a run returns.  A run returns exactly when the session
    has its artifact, the invocation of the artifact on the table with
    the feeds taken in returns, every output the caller declared has a
    buffer in the output table and, with [check_nan] set, no weight
    holds a NaN or an infinity after the invocation. *)
Theorem run_returns_exactly_when
    (feed : dict loc) (chk : bool) (s : PTSession) (w : World) :
  (exists outs s1 w1, run_by_nnf feed chk (s, w) = (Ok outs, (s1, w1))) <->
  exists ex writes,
    _executor s = Some ex /\
    kernel ex (feed_inputs feed (_inputs s)) (_outputs s) (tensors w)
    = Ok writes /\
    (chk = true ->
     Forall (fun kv =>
               is_Some (apply_writes writes (tensors w) !! snd kv) /\
               offending (apply_writes writes (tensors w)) kv = false)
            (_torch_weights s)) /\
    Forall (fun d => dict_mem (name d) (_outputs s) = true) (_output_desc s).
Proof.
  rewrite run_by_nnf_eq. cbv zeta.
  destruct (_executor s) as [ex|] eqn:Hex.
  2:{ split; [intros [? [? [? H]]]; discriminate
             |intros [? [? [H _]]]; discriminate]. }
  pose proof (Executor_call_spec ex
                (_inputs (set_inputs s (feed_inputs feed (_inputs s))))
                (_outputs s) w) as Hcall.
  assert (Hfed : _inputs (set_inputs s (feed_inputs feed (_inputs s)))
                 = feed_inputs feed (_inputs s)) by reflexivity.
  rewrite Hfed in Hcall.
  assert (Hws : _torch_weights (set_inputs s (feed_inputs feed (_inputs s)))
                = _torch_weights s) by reflexivity.
  destruct (Executor_call ex _ (_outputs s) w) as [[[]|e] w2].
  2:{ destruct Hcall as [Hk _].
      split; [intros [? [? [? H]]]; discriminate|].
      intros [ex' [writes [Hex' [Hk' _]]]].
      assert (ex' = ex) by congruence. subst ex'. congruence. }
  destruct Hcall as [writes [Hk [Ht _]]].
  pose proof (collect_outputs_spec (_outputs s) (_output_desc s)) as Hcol.
  assert (Hret : forall w3 : World,
             (exists (outs : list loc) (s1 : PTSession) (w1 : World),
                @map_M (PTSession * World) _ _ (fun desc =>
                         d <- lift (dict_getitem (name desc) (_outputs s)) ;;
                         ret (reference d))
                      (_output_desc s)
                      (set_inputs s (feed_inputs feed (_inputs s)), w3)
                = (Ok outs, (s1, w1)))
             <-> Forall (fun d => dict_mem (name d) (_outputs s) = true)
                        (_output_desc s)).
  { intros w3.
    specialize (Hcol (set_inputs s (feed_inputs feed (_inputs s)), w3)).
    destruct (map_M _ (_output_desc s) _) as [[outs|e] [s1 w1]].
    - destruct Hcol as [_ Hh]. split; [|eauto]. intros _.
      apply List.Forall_forall. intros d Hd.
      assert (Hin : In (option_map reference (dict_get (name d) (_outputs s)))
                       (map Some outs)).
      { rewrite Hh. unfold output_handles.
        apply (in_map (fun d0 => option_map reference
                                   (dict_get (name d0) (_outputs s)))).
        exact Hd. }
      apply in_map_iff in Hin. destruct Hin as [x [Hx _]].
      apply dict_mem_true.
      destruct (dict_get (name d) (_outputs s)); [eauto|discriminate].
    - destruct Hcol as [_ [d [Hd [Hnone _]]]].
      split; [intros [? [? [? H]]]; discriminate|].
      intros Hall. exfalso. rewrite List.Forall_forall in Hall.
      specialize (Hall d Hd). apply dict_mem_true in Hall.
      destruct Hall as [b Hb]. congruence. }
  destruct chk.
  - unfold is_weights_nan. rewrite Hws.
    destruct (weights_nan_loop (_torch_weights s) false w2)
      as [[[|]|e] w3] eqn:Hloop.
    + split; [intros [? [? [? H]]]; discriminate|].
      intros [ex' [writes' [Hex' [Hk' [Hclean _]]]]].
      assert (ex' = ex) by congruence. subst ex'.
      assert (writes' = writes) by congruence. subst writes'.
      specialize (Hclean eq_refl). rewrite <- Ht in Hclean.
      rewrite (weights_nan_loop_clean _ false w2 Hclean) in Hloop.
      discriminate.
    + apply weights_nan_loop_false in Hloop. destruct Hloop as [_ Hclean].
      rewrite Ht in Hclean. rewrite Hret. split.
      * intros Hall. exists ex, writes. auto.
      * intros [_ [_ [_ [_ [_ Hall]]]]]. exact Hall.
    + split; [intros [? [? [? H]]]; discriminate|].
      intros [ex' [writes' [Hex' [Hk' [Hclean _]]]]].
      assert (ex' = ex) by congruence. subst ex'.
      assert (writes' = writes) by congruence. subst writes'.
      specialize (Hclean eq_refl). rewrite <- Ht in Hclean.
      rewrite (weights_nan_loop_clean _ false w2 Hclean) in Hloop.
      discriminate.
  - rewrite Hret. split.
    + intros Hall. exists ex, writes.
      split; [reflexivity|]. split; [exact Hk|].
      split; [discriminate|exact Hall].
    + intros [_ [_ [_ [_ [_ Hall]]]]]. exact Hall.
Qed.

(** The two directions on the demo sessions: the corrupting artifact
    makes the run with the policy raise, so a weight is offending. *)
Example demo_nan_run_does_not_return :
  ~ exists outs s1 w1,
      run_by_nnf [("x", 2%nat)] true (demo_nan_session, snd demo_nan_build)
      = (Ok outs, (s1, w1)).
Proof.
  intros [outs [s1 [w1 H]]].
  assert (Hr : fst (run_by_nnf [("x", 2%nat)] true
                               (demo_nan_session, snd demo_nan_build))
               = Raise (Exception [Lit "Nan found after execution"]))
    by (vm_compute; reflexivity).
  rewrite H in Hr. discriminate Hr.
Qed.
